(** * A shallow embedding of the Mongoose adapter of json-api

  The development follows the TypeScript sources:
  - [src/db-adapters/Mongoose/MongooseAdapter.ts]: the adapter
    ([find], [update], [delete], [docToResource], [getIdQueryType],
    [toFriendlyName], ...);
  - [src/util/misc.ts]: [deleteNested], [isSubsetOf] and
    [pseudoTopSort];
  - [src/util/utils.js]: [arrayUnique], [arrayValuesMatch] and the
    older copy of [deleteNested];
  - [src/util/type-handling]: [mapResources], [forEachArrayOrVal].

  JavaScript strings are modelled as [string] (sequences of 8-bit
  characters), objects as association lists in property order, arrays as
  lists whose slots may be holes, exceptions and rejected promises as the
  left injection of a sum.  The objects [deleteNested] can be handed by
  any caller live in a heap ([Heap], below), where reads follow the
  prototype chain. *)

From Stdlib Require Import List String Ascii ZArith Lia Bool Arith.
From Stdlib Require Import DecimalString Permutation.
Import ListNotations.

Local Open Scope string_scope.
Local Open Scope list_scope.

Set Implicit Arguments.

(* ================================================================= *)
(** ** Strings *)

Module Str.

Definition isUpper (c : ascii) : bool :=
  let n := nat_of_ascii c in (65 <=? n)%nat && (n <=? 90)%nat.

Definition isLower (c : ascii) : bool :=
  let n := nat_of_ascii c in (97 <=? n)%nat && (n <=? 122)%nat.

(** [toUpperCase()] and [toLowerCase()] on one character.  The
    conversions are those of the ASCII letters; on a string with other
    characters the engine converts by the Unicode tables, which are not
    part of the model ([Engine.isAscii] marks the strings covered). *)
Definition toUpperChar (c : ascii) : ascii :=
  if isLower c then ascii_of_nat (nat_of_ascii c - 32) else c.

Definition toLowerChar (c : ascii) : ascii :=
  if isUpper c then ascii_of_nat (nat_of_ascii c + 32) else c.

Fixpoint map (f : ascii -> ascii) (s : string) : string :=
  match s with
  | EmptyString => EmptyString
  | String c s' => String (f c) (map f s')
  end.

Definition toLowerCase : string -> string := map toLowerChar.

(** [v.charAt(0).toUpperCase() + v.slice(1)] *)
Definition ucFirst (v : string) : string :=
  match v with
  | EmptyString => EmptyString
  | String c s' => String (toUpperChar c) s'
  end.

(** [s.slice(1)] *)
Definition slice1 (s : string) : string :=
  match s with
  | EmptyString => EmptyString
  | String _ s' => s'
  end.

(** [s.split(sep)] for a one-character separator.  As in JavaScript the
    result is never empty: splitting the empty string gives one empty
    part. *)
Fixpoint split (sep : ascii) (s : string) : list string :=
  match s with
  | EmptyString => [EmptyString]
  | String c s' =>
      if Ascii.eqb c sep then EmptyString :: split sep s'
      else match split sep s' with
           | p :: ps => String c p :: ps
           | [] => [String c EmptyString]
           end
  end.

(** [parts.join(sep)] *)
Fixpoint join (sep : string) (parts : list string) : string :=
  match parts with
  | [] => EmptyString
  | [p] => p
  | p :: ps => p ++ sep ++ join sep ps
  end.

(** The characters [0-9a-fA-F]. *)
Definition isHexDigit (c : ascii) : bool :=
  let n := nat_of_ascii c in
  ((48 <=? n)%nat && (n <=? 57)%nat)
  || ((97 <=? n)%nat && (n <=? 102)%nat)
  || ((65 <=? n)%nat && (n <=? 70)%nat).

Fixpoint forallb (p : ascii -> bool) (s : string) : bool :=
  match s with
  | EmptyString => true
  | String c s' => p c && forallb p s'
  end.

End Str.

(* ================================================================= *)
(** ** Friendly names: [MongooseAdapter.toFriendlyName] *)

Module FriendlyName.

(** The words are the matches of the regular expression [wordsRe]: a
    capital, then either a greedy run of capitals with a negative
    lookahead for a non-capital, or a greedy run of non-capitals.
    First alternative of the group: a greedy run of capitals that
    must not be followed by a non-capital.  The star first tries to take
    one more capital and gives it back when the rest cannot match.  The
    result is the matched run and the remaining input. *)
Fixpoint capitalRun (s : string) : option (string * string) :=
  match s with
  | EmptyString => Some (EmptyString, EmptyString)
  | String c s' =>
      if Str.isUpper c then
        match capitalRun s' with
        | Some (m, rest) => Some (String c m, rest)
        | None => Some (EmptyString, s)
        end
      else None
  end.

(** Second alternative: a greedy run of non-capitals; it always
    matches. *)
Fixpoint nonCapitalRun (s : string) : string * string :=
  match s with
  | EmptyString => (EmptyString, EmptyString)
  | String c s' =>
      if Str.isUpper c then (EmptyString, s)
      else let (m, rest) := nonCapitalRun s' in (String c m, rest)
  end.

(** One match of the whole expression anchored at the head of [s]. *)
Definition wordAt (s : string) : option (string * string) :=
  match s with
  | EmptyString => None
  | String c s' =>
      if Str.isUpper c then
        match capitalRun s' with
        | Some (m, rest) => Some (String c m, rest)
        | None => let (m, rest) := nonCapitalRun s' in Some (String c m, rest)
        end
      else None
  end.

(** The [while((matches = wordsRe.exec(...)) !== null)] loop: with the
    [g] flag each search resumes where the previous match ended and
    skips the characters at which no match starts.  A match consumes at
    least one character, so [fuel = length s] iterations are enough. *)
Fixpoint wordsFrom (fuel : nat) (s : string) : list string :=
  match fuel with
  | O => []
  | S fuel' =>
      match s with
      | EmptyString => []
      | String _ s' =>
          match wordAt s with
          | Some (w, rest) => w :: wordsFrom fuel' rest
          | None => wordsFrom fuel' s'
          end
      end
  end.

Definition words (s : string) : list string := wordsFrom (String.length s) s.

Definition toFriendlyName (pathOrModelName : string) : string :=
  let pascalCasedString :=
    Str.join "" (List.map Str.ucFirst (Str.split "." pathOrModelName)) in
  Str.join " " (words pascalCasedString).

End FriendlyName.

(* ================================================================= *)
(** ** JavaScript objects as association lists *)

Module Obj.

Section Props.
Variable A : Type.

(** [obj[k]] restricted to own properties: the first binding of [k]. *)
Fixpoint lookup (k : string) (props : list (string * A)) : option A :=
  match props with
  | [] => None
  | (k', v) :: rest => if String.eqb k k' then Some v else lookup k rest
  end.

Definition has (k : string) (props : list (string * A)) : bool :=
  match lookup k props with Some _ => true | None => false end.

(** [delete obj[k]] *)
Fixpoint remove (k : string) (props : list (string * A)) : list (string * A) :=
  match props with
  | [] => []
  | (k', v) :: rest =>
      if String.eqb k k' then remove k rest else (k', v) :: remove k rest
  end.

(** [obj[k] = v]: an existing property keeps its place, a new one is
    added last. *)
Fixpoint set (k : string) (v : A) (props : list (string * A)) : list (string * A) :=
  match props with
  | [] => [(k, v)]
  | (k', v') :: rest =>
      if String.eqb k k' then (k, v) :: rest else (k', v') :: set k v rest
  end.

Definition keys (props : list (string * A)) : list string := List.map fst props.

End Props.

End Obj.

(* ================================================================= *)
(** ** JavaScript values

    The data a serialized document holds: primitives, arrays and plain
    objects.  Numbers are restricted to integers, and an [ObjectId] is
    represented by the string [String()] gives for it.  An array is a
    list of slots, [None] being a hole (what [delete arr[i]] leaves
    behind).
    Property reads see own properties only; members inherited from a
    prototype are not part of the model, except for the method
    [hasOwnProperty], which [deleteNested] calls: the values are those
    of a serialized document, read at the names of its fields.  A read
    at the name of a member of [Object.prototype]
    ([Engine.objectPrototypeMember]) gives that member in the engine;
    [Heap] has the reads that follow the prototype chain. *)

#[warning="-register-all"]
Inductive value : Type :=
| VUndef
| VNull
| VBool (b : bool)
| VNum (n : Z)
| VStr (s : string)
| VArr (items : list (option value))
| VObj (props : list (string * value)).

Module JS.

(** [Array.isArray(v)] *)
Definition isArray (v : value) : bool :=
  match v with VArr _ => true | _ => false end.

(** Arrays and plain objects, the values that have properties to
    delete. *)
Definition isContainer (v : value) : bool :=
  match v with
  | VArr _ | VObj _ => true
  | _ => false
  end.

(** Two values of the same kind: arrays of the same length, plain
    objects, or the same primitive.  Deleting a property inside a value
    leaves it of the same kind. *)
Definition sameKind (v v' : value) : Prop :=
  match v, v' with
  | VArr items, VArr items' => List.length items = List.length items'
  | VObj _, VObj _ => True
  | _, _ => v = v'
  end.

(** Truthiness, as tested by [if(v)], [!v], [v && ...], [v ? .. : ..]. *)
Definition truthy (v : value) : bool :=
  match v with
  | VUndef | VNull => false
  | VBool b => b
  | VNum n => negb (Z.eqb n 0)
  | VStr s => negb (String.eqb s "")
  | VArr _ | VObj _ => true
  end.

(** [String(v)]; for a number, its decimal numeral, which is what the
    engine prints for an integer below [10^21] in absolute value. *)
Fixpoint toString (v : value) : string :=
  match v with
  | VUndef => "undefined"
  | VNull => "null"
  | VBool true => "true"
  | VBool false => "false"
  | VNum n => NilZero.string_of_int (Z.to_int n)
  | VStr s => s
  | VArr items =>
      let elt (x : option value) : string :=
        match x with
        | None | Some VUndef | Some VNull => ""
        | Some w => toString w
        end in
      Str.join "," (List.map elt items)
  | VObj _ => "[object Object]"
  end.

(** The key of the array index [i]: its canonical decimal numeral. *)
Definition indexString (i : nat) : string :=
  NilZero.string_of_uint (Nat.to_uint i).

(** The index below [len] that the property key [k] names, if any. *)
Definition arrayIndex (len : nat) (k : string) : option nat :=
  List.find (fun i => String.eqb k (indexString i)) (List.seq 0 len).

(** [s[i]] as a one-character string. *)
Definition charAt (s : string) (i : nat) : option string :=
  match String.get i s with
  | Some c => Some (String c EmptyString)
  | None => None
  end.

(** [obj[part]].  [None] is the [TypeError] raised when [obj] is
    [undefined] or [null]. *)
Definition getProp (obj : value) (part : string) : option value :=
  match obj with
  | VUndef | VNull => None
  | VBool _ | VNum _ => Some VUndef
  | VStr s =>
      match arrayIndex (String.length s) part with
      | Some i => match charAt s i with
                  | Some c => Some (VStr c)
                  | None => Some VUndef
                  end
      | None => if String.eqb part "length"
                then Some (VNum (Z.of_nat (String.length s)))
                else Some VUndef
      end
  | VArr items =>
      match arrayIndex (List.length items) part with
      | Some i => match nth_error items i with
                  | Some (Some v) => Some v
                  | _ => Some VUndef
                  end
      | None => if String.eqb part "length"
                then Some (VNum (Z.of_nat (List.length items)))
                else Some VUndef
      end
  | VObj props =>
      match Obj.lookup part props with
      | Some v => Some v
      | None => Some VUndef
      end
  end.

(** [parts.reduce((obj, part) => obj[part], object)] *)
Fixpoint reduceGetProp (parts : list string) (object : value) : option value :=
  match parts with
  | [] => Some object
  | part :: rest =>
      match getProp object part with
      | Some v => reduceGetProp rest v
      | None => None
      end
  end.

(** Whether [k] is an own property of [v]. *)
Definition ownProperty (v : value) (k : string) : bool :=
  match v with
  | VObj props => Obj.has k props
  | VArr items =>
      match arrayIndex (List.length items) k with
      | Some i => match nth_error items i with
                  | Some (Some _) => true
                  | _ => false
                  end
      | None => String.eqb k "length"
      end
  | VStr s =>
      match arrayIndex (String.length s) k with
      | Some _ => true
      | None => String.eqb k "length"
      end
  | _ => false
  end.

(** The method call [container.hasOwnProperty(k)].  The method is read
    from the container like any property: on [undefined] and [null] the
    read raises, and an own data property named [hasOwnProperty] hides
    the inherited method and is not callable.  [None] is the
    [TypeError]. *)
Definition hasOwnProperty (container : value) (k : string) : option bool :=
  match container with
  | VUndef | VNull => None
  | VObj props =>
      if Obj.has "hasOwnProperty" props then None
      else Some (Obj.has k props)
  | _ => Some (ownProperty container k)
  end.

Fixpoint setNth (A : Type) (i : nat) (x : A) (l : list A) : list A :=
  match l, i with
  | [], _ => []
  | _ :: l', O => x :: l'
  | y :: l', S i' => y :: setNth i' x l'
  end.

(** [delete container[k]] in strict mode, for an own property [k].  The
    elements of an array and the properties of a plain object are
    configurable; the [length] of an array and the characters and
    [length] of a string are not, and deleting them raises ([None]). *)
Definition deleteProp (container : value) (k : string) : option value :=
  match container with
  | VObj props => Some (VObj (Obj.remove k props))
  | VArr items =>
      match arrayIndex (List.length items) k with
      | Some i => Some (VArr (setNth i None items))
      | None => if String.eqb k "length" then None else Some container
      end
  | VStr s => if ownProperty container k then None else Some container
  | _ => Some container
  end.

(** The object graph after the container found along [parts] was
    mutated into [container']: the container is shared with [object],
    so the change is seen through [object]. *)
Fixpoint assignAt (parts : list string) (object container' : value) : value :=
  match parts with
  | [] => container'
  | part :: rest =>
      match object with
      | VObj props =>
          match Obj.lookup part props with
          | Some child =>
              VObj (Obj.set part (assignAt rest child container') props)
          | None => object
          end
      | VArr items =>
          match arrayIndex (List.length items) part with
          | Some i =>
              match nth_error items i with
              | Some (Some child) =>
                  VArr (setNth i (Some (assignAt rest child container')) items)
              | _ => object
              end
          | None => object
          end
      | _ => object
      end
  end.

End JS.

(* ================================================================= *)
(** ** [deleteNested] (util/misc) *)

Module Misc.

(** [deleteNested] as [docToResource] uses it, on the attributes of a
    serialized document: the result pairs the returned boolean with the
    attributes after the call.  Every exception of the [try] block is
    caught and turned into [false].  The function on any object, with
    reads through the prototype chain, is [Heap.Misc.deleteNested]; the
    copy in [util/utils.js], which logs the failure, is
    [Heap.Utils.deleteNested]. *)
Definition deleteNested (path : string) (object : value) : bool * value :=
  let pathParts := Str.split "." path in
  let lastPart := List.last pathParts "" in
  let containingParts := List.removelast pathParts in
  match JS.reduceGetProp containingParts object with
  | None => (false, object)
  | Some container =>
      match JS.hasOwnProperty container lastPart with
      | Some true =>
          match JS.deleteProp container lastPart with
          | Some container' =>
              (true, JS.assignAt containingParts object container')
          | None => (false, object)
          end
      | Some false => (false, object)
      | None => (false, object)
      end
  end.

(** When the deletion can succeed: the container is a plain object
    that has the last part as an own property and does not hide the
    method [hasOwnProperty], or an array that has an element at the index
    the last part names. *)
Definition canDelete (container : value) (lastPart : string) : Prop :=
  (exists props, container = VObj props
     /\ Obj.has lastPart props = true
     /\ Obj.has "hasOwnProperty" props = false)
  \/ (exists items i v, container = VArr items
        /\ JS.arrayIndex (List.length items) lastPart = Some i
        /\ nth_error items i = Some (Some v)).

End Misc.

(* ================================================================= *)
(** ** [pseudoTopSort] (util/misc) *)

Module TopSort.

(** The edge object: each key is a starting node, its value the set of
    end nodes, listed in the order [for ... in] enumerates them. *)
Definition Edges := list (string * list string).

(** [edges[thisRoot] || {}] *)
Definition children (edges : Edges) (node : string) : list string :=
  match Obj.lookup node edges with
  | Some cs => cs
  | None => []
  end.

(** The state of the [while] loop: the queue [roots], the (copied)
    [edges] and [sortResult]. *)
Record state : Type := mkState {
  roots : list string;
  edges : Edges;
  sortResult : list string
}.

(** The inner [for] loop deletes every child of [thisRoot] from the
    copied edge set, so that the set is left empty. *)
Definition clearChildren (node : string) (edges : Edges) : Edges :=
  if Obj.has node edges then Obj.set node [] edges else edges.

(** One iteration of the [while(roots.length)] loop; [None] when the
    loop condition is false. *)
Definition step (st : state) : option state :=
  match roots st with
  | [] => None
  | thisRoot :: rest =>
      let thisRootChildren := children (edges st) thisRoot in
      Some {| roots := rest ++ thisRootChildren;
              edges := clearChildren thisRoot (edges st);
              sortResult := sortResult st ++ [thisRoot] |}
  end.

(** The loop, bounded by [fuel] iterations; [None] when the bound is
    hit before the queue is empty. *)
Fixpoint loop (fuel : nat) (st : state) : option (list string) :=
  match step st with
  | None => Some (sortResult st)
  | Some st' =>
      match fuel with
      | O => None
      | S fuel' => loop fuel' st'
      end
  end.

Fixpoint edgeCount (edges : Edges) : nat :=
  match edges with
  | [] => 0
  | (_, cs) :: rest => List.length cs + edgeCount rest
  end.

(** Every iteration removes a node from the queue and moves the edges
    it follows out of the graph, so this measure decreases. *)
Definition measure (st : state) : nat :=
  List.length (roots st) + 2 * edgeCount (edges st).

Definition initial (edges : Edges) (roots : list string) : state :=
  {| roots := roots; edges := edges; sortResult := [] |}.

(** [nodes] is copied and not used by the algorithm. *)
Definition pseudoTopSort_opt
    (nodes : list string) (edges : Edges) (roots : list string)
  : option (list string) :=
  loop (measure (initial edges roots)) (initial edges roots).

Definition pseudoTopSort
    (nodes : list string) (edges : Edges) (roots : list string) : list string :=
  match pseudoTopSort_opt nodes edges roots with
  | Some sorted => sorted
  | None => []
  end.

(** There is an edge from [p] to [c]. *)
Definition edge (edges : Edges) (p c : string) : Prop :=
  In c (children edges p).

(** The nodes that can be reached from the roots along edges. *)
Inductive reachable (edges : Edges) (roots : list string) : string -> Prop :=
| reach_root : forall r, In r roots -> reachable edges roots r
| reach_edge : forall p c,
    reachable edges roots p -> edge edges p c -> reachable edges roots c.

(** The precondition of the sort: no node has two incoming edges (and,
    the end nodes of a node being the keys of an object, none is listed
    twice). *)
Definition singleParent (edges : Edges) : Prop :=
  (forall p1 p2 c, edge edges p1 c -> edge edges p2 c -> p1 = p2)
  /\ (forall p, NoDup (children edges p)).

(** [p] occurs in [l], and [c] occurs after the first occurrence of [p]. *)
Definition occursAfter (l : list string) (p c : string) : Prop :=
  exists l1 l2 l3, l = l1 ++ p :: l2 ++ c :: l3 /\ ~ In p l1.

(** The nodes output so far, followed by the queue. *)
Definition seen (st : state) : list string := sortResult st ++ roots st.

(** What holds of every state of the loop run on the edges [E0] from the
    roots [R0]: a node that was output has lost its edges and the others
    have theirs; the roots and the end nodes of the edges followed are
    output or queued, after the node they were reached from; nothing
    else is; and, when no node has two incoming edges, a node that is
    not a root is there once if an edge to it was followed and not at
    all otherwise. *)
Record Inv (E0 : Edges) (R0 : list string) (st : state) : Prop := mkInv {
  inv_children : forall k,
    children (edges st) k
    = if in_dec string_dec k (sortResult st) then [] else children E0 k;
  inv_roots : forall r, In r R0 -> In r (seen st);
  inv_after : forall p c,
    In p (sortResult st) -> edge E0 p c -> occursAfter (seen st) p c;
  inv_reach : forall n, In n (seen st) -> reachable E0 R0 n;
  inv_once : singleParent E0 -> forall c, ~ In c R0 ->
    ((exists p, In p (sortResult st) /\ edge E0 p c) ->
       count_occ string_dec (seen st) c = 1)
    /\ ((forall p, In p (sortResult st) -> ~ edge E0 p c) ->
       count_occ string_dec (seen st) c = 0)
}.

End TopSort.

(* ================================================================= *)
(** ** Errors, resources and documents *)

(** Modelled from the spec: the classes [APIError], [Resource],
    [Collection], [Relationship] and [Linkage] of [src/types] are not
    among the sources; they are the plain records of the data model. *)
Record APIError : Type := mkAPIError {
  status : Z;
  code : option string;
  title : string;
  detail : option string
}.

(** What an operation can fail with: an [APIError], a [TypeError] of the
    runtime, or a plain [Error] (with the [status] the adapter may give
    it). *)
Inductive error : Type :=
| EApi (e : APIError)
| ETypeError
| EError (status : option Z) (message : string).

Record ResourceIdentifier : Type := mkIdentifier {
  ri_type : string;
  ri_id : string
}.

(** The value of a linkage: a single identifier or [null]
    ([LinkSingle None]), or a list of such entries.  [LinkUndefined] is
    what [linkage[0]] would be on an empty array. *)
Inductive LinkageValue : Type :=
| LinkUndefined
| LinkSingle (entry : option ResourceIdentifier)
| LinkList (entries : list (option ResourceIdentifier)).

Record Linkage : Type := mkLinkage { lvalue : LinkageValue }.

Record Relationship : Type := mkRelationship { linkage : Linkage }.

Record Resource : Type := mkResource {
  r_type : string;
  r_id : option string;
  r_attrs : value;
  r_relationships : list (string * Relationship)
}.

(** A single [Resource], a [Collection], or [undefined] (what [docs[0]]
    would be on an empty array). *)
Inductive ResourceOrCollection : Type :=
| OneResource (r : Resource)
| Collection (resources : list Resource)
| NoResource.

(** A schema path that refers to another model: its name, whether the
    schema declares an array of references, and the referenced model.
    This is the information [util.getReferencePaths] and
    [util.getReferencedModelName] read from a Mongoose schema. *)
Record RefPath : Type := mkRefPath {
  rp_path : string;
  rp_toMany : bool;
  rp_model : string
}.

Record Schema : Type := mkSchema {
  refs : list RefPath;
  versionKey : string;
  discriminatorKey : string
}.

(** The static part of a Mongoose model ([doc.constructor]). *)
Record ModelInfo : Type := mkModelInfo {
  modelName : string;
  schema : Schema
}.

(** A Mongoose document: its model, [doc.id], the object
    [doc.toJSON({virtuals: true, getters: true})] returns, and the
    values [doc[path]] of the populated paths. *)
Inductive Doc : Type :=
| mkDoc (d_model : ModelInfo) (d_id : option string)
        (d_json : list (string * value))
        (d_populated : list (string * Populated))
with Populated : Type :=
| PopNone
| PopDoc (d : Doc)
| PopDocs (ds : list (option Doc)).

Definition d_model (d : Doc) : ModelInfo :=
  match d with mkDoc m _ _ _ => m end.
Definition d_id (d : Doc) : option string :=
  match d with mkDoc _ i _ _ => i end.
Definition d_json (d : Doc) : list (string * value) :=
  match d with mkDoc _ _ j _ => j end.
Definition d_populated (d : Doc) : list (string * Populated) :=
  match d with mkDoc _ _ _ p => p end.

(** The value a query resolves to: [null], one document, or an array of
    documents (an entry may be [null] after an update that matched
    nothing). *)
Inductive Docs : Type :=
| DNull
| DOne (d : Doc)
| DMany (ds : list (option Doc)).

(** [fields]: for each type, the names of the selected fields. *)
Definition Fields := list (string * list string).

Inductive Mode : Type := FindMode | FindOneMode.

(** [{}], [{_id: id}] and [{_id: {$in: ids}}] *)
Inductive IdQuery : Type :=
| QAll
| QId (id : string)
| QIn (ids : list string).

(** [string | string[] | undefined] *)
Inductive IdOrIds : Type :=
| IdUndefined
| IdString (id : string)
| IdArray (ids : list string).

Inductive Direction : Type := ASC | DESC.

Record Sort : Type := mkSort { s_field : string; s_direction : Direction }.

(** What has been asked of a Mongoose query when it is executed. *)
Record QueryBuilder : Type := mkQuery {
  qb_mode : Mode;
  qb_idQuery : IdQuery;
  qb_sort : option string;
  qb_where : option value;
  qb_skip : option Z;
  qb_limit : option Z;
  qb_populate : list string
}.

(** A registered model: its static part and the answers of the store.
    [find] resolves to an array and [findOne] to a document or [null];
    [hydrateSet changeSet] gives [modifiedPaths()] and [toObject()] of
    [Model.hydrate({}).set(changeSet)]. *)
Record Model : Type := mkModel {
  m_info : ModelInfo;
  m_find : QueryBuilder -> list Doc;
  m_findOne : QueryBuilder -> option Doc;
  m_count : value -> Z;
  m_hydrateSet : list (string * value) -> list string * list (string * value);
  m_findByIdAndUpdate : option string -> list (string * value) -> option Doc
}.

(** The calls that reach the store, in the order they are made. *)
Inductive StoreCall : Type :=
| CallCount (criteria : value)
| CallExec (query : QueryBuilder)
| CallRemove (d : Doc)
| CallFindByIdAndUpdate (id : option string) (update : list (string * value)).

Record FindQuery : Type := mkFindQuery {
  fq_type : string;
  fq_populates : option (list string);
  fq_select : option Fields;
  fq_sort : option (list Sort);
  fq_offset : option Z;
  fq_limit : option Z;
  fq_idOrIds : IdOrIds;
  fq_filters : list value
}.

Record DeleteQuery : Type := mkDeleteQuery {
  dq_type : string;
  dq_idOrIds : IdOrIds
}.

(** The patch of an update: a [Resource] or a [Collection]. *)
Inductive Patch : Type :=
| PatchResource (r : Resource)
| PatchCollection (rs : list Resource).

Record UpdateQuery : Type := mkUpdateQuery {
  uq_type : string;
  uq_patch : Patch
}.

Record Adapter : Type := mkAdapter {
  models : list (string * Model);
  inflector_singular : string -> string;
  inflector_plural : string -> string
}.

(* ================================================================= *)
(** ** The adapter: [MongooseAdapter] *)

Module MongooseAdapter.

(** Failing computations: [inl e] is an exception [e] or a promise
    rejected with [e]. *)
Definition Result (A : Type) : Type := (error + A)%type.

Definition bind (A B : Type) (m : Result A) (f : A -> Result B) : Result B :=
  match m with
  | inl e => inl e
  | inr a => f a
  end.

Notation "x <- m ;; k" := (bind m (fun x => k))
  (at level 61, m at next level, right associativity).

Fixpoint mapM (A B : Type) (f : A -> Result B) (l : list A) : Result (list B) :=
  match l with
  | [] => inr []
  | a :: l' => b <- f a ;; bs <- mapM f l' ;; inr (b :: bs)
  end.

(** Modelled from the spec: [arrayContains] of [util/arrays] is not among
    the sources; it tests membership. *)
Definition arrayContains (arr : list string) (v : string) : bool :=
  List.existsb (String.eqb v) arr.

(** [Array.prototype.every] over strings *)
Definition every (p : string -> bool) (l : list string) : bool :=
  List.forallb p l.

(** [typeof id === "string" && /^[0-9a-fA-F]{24}$/.test(id)] *)
Definition idIsValid (id : value) : bool :=
  match id with
  | VStr s => Nat.eqb (String.length s) 24 && Str.forallb Str.isHexDigit s
  | _ => false
  end.

Definition invalidIdError : APIError :=
  mkAPIError 400 None "Invalid ID." None.

Definition noMatchInvalidIdError : APIError :=
  mkAPIError 404 None "No matching resource found." (Some "Invalid ID.").

Definition noMatchError : APIError :=
  mkAPIError 404 None "No matching resource found." None.

(** [getIdQueryType]: the mode, the id query, and the ids to validate. *)
Definition idQueryParts (idOrIds : IdOrIds)
  : Mode * IdQuery * option (list string) :=
  match idOrIds with
  | IdArray ids => (FindMode, QIn ids, Some ids)
  | IdString id =>
      if negb (String.eqb id "")
      then (FindOneMode, QId id, Some [id])
      else (FindMode, QAll, None)
  | IdUndefined => (FindMode, QAll, None)
  end.

Definition getIdQueryType (idOrIds : IdOrIds) : Result (Mode * IdQuery) :=
  let '(mode, idQuery, idsArray) := idQueryParts idOrIds in
  match idsArray with
  | Some ids =>
      if negb (every (fun id => idIsValid (VStr id)) ids)
      then match idOrIds with
           | IdArray _ => inl (EApi invalidIdError)
           | _ => inl (EApi noMatchInvalidIdError)
           end
      else inr (mode, idQuery)
  | None => inr (mode, idQuery)
  end.

(** [!idOrIds] *)
Definition idFalsy (idOrIds : IdOrIds) : bool :=
  match idOrIds with
  | IdUndefined => true
  | IdString id => String.eqb id ""
  | IdArray _ => false
  end.

(** [modelName.replace(/([A-Z])/g, "\-$1")] *)
Fixpoint hyphenateCapitals (s : string) : string :=
  match s with
  | EmptyString => EmptyString
  | String c s' =>
      if Str.isUpper c then String "-" (String c (hyphenateCapitals s'))
      else String c (hyphenateCapitals s')
  end.

Definition getType (modelName : string) (pluralizer : string -> string) : string :=
  pluralizer (Str.toLowerCase (Str.slice1 (hyphenateCapitals modelName))).

Fixpoint mapLast (A : Type) (f : A -> A) (l : list A) : list A :=
  match l with
  | [] => []
  | [x] => [f x]
  | x :: l' => x :: mapLast f l'
  end.

Definition getModelName (type : string) (singularizer : string -> string) : string :=
  let words := mapLast singularizer (Str.split "-" type) in
  Str.join "" (List.map Str.ucFirst words).

(** The one-character string holding a double quote. *)
Definition dquote : string := String (ascii_of_nat 34) EmptyString.

Definition unregistered (modelName : string) : error :=
  EError (Some 404%Z)
    ("The model " ++ dquote ++ modelName ++ dquote
     ++ " has not been registered with the MongooseAdapter.")%string.

(** [this.models[modelName]], on the models registered; for a name
    that is a member of [Object.prototype] the engine reads the
    inherited member ([Engine.objectPrototypeMember] marks these
    names). *)
Definition getModel (adapter : Adapter) (modelName : string) : Result Model :=
  match Obj.lookup modelName (models adapter) with
  | Some m => inr m
  | None => inl (unregistered modelName)
  end.

(** Modelled from the spec: [util.getReferencePaths] of [./lib] is not
    among the sources; it gives the relationship paths the schema of the
    model declares. *)
Definition getReferencePaths (m : ModelInfo) : list string :=
  List.map rp_path (refs (schema m)).

(** Modelled from the spec: [util.getReferencedModelName] of [./lib] is
    not among the sources; it gives the model a declared relationship
    path refers to, and [undefined] for any other path. *)
Definition getReferencedModelName (m : ModelInfo) (path : string) : option string :=
  match List.find (fun rp => String.eqb path (rp_path rp)) (refs (schema m)) with
  | Some rp => Some (rp_model rp)
  | None => None
  end.

(** [fields && fields[type]] *)
Definition selectedFields (fields : option Fields) (type : string)
  : option (list string) :=
  match fields with
  | Some fs => Obj.lookup type fs
  | None => None
  end.

(** Whether a field selection lets a path through: there is no selection
    for the type, or the path is named in it. *)
Definition isSelected (selected : option (list string)) (path : string) : bool :=
  match selected with
  | Some fs => arrayContains fs path
  | None => true
  end.

(** The body of [jsonValAtPath.forEach]: the identifier of one entry, or
    [null]. *)
Definition linkageEntry (referencedType : string) (docOrIdOrNull : value)
  : option ResourceIdentifier :=
  let idOrNull : option string :=
    let underscoreId :=
      match JS.getProp docOrIdOrNull "_id" with
      | Some v => v
      | None => VUndef
      end in
    if JS.truthy docOrIdOrNull && JS.truthy underscoreId
    then Some (JS.toString underscoreId)
    else if JS.truthy docOrIdOrNull
         then Some (JS.toString docOrIdOrNull)
         else None in
  match idOrNull with
  | Some id => if negb (String.eqb id "")
               then Some (mkIdentifier referencedType id)
               else None
  | None => None
  end.

(** [forEach] skips the holes of an array. *)
Fixpoint presentItems (A : Type) (items : list (option A)) : list A :=
  match items with
  | [] => []
  | Some x :: rest => x :: presentItems rest
  | None :: rest => presentItems rest
  end.

(** The linkage built from the value found at a relationship path. *)
Definition buildLinkage (referencedType : string) (jsonValAtPath : value)
  : Linkage :=
  let '(items, isToOneRelationship) :=
    match jsonValAtPath with
    | VArr items => (items, false)
    | _ => ([Some jsonValAtPath], true)
    end in
  let linkage := List.map (linkageEntry referencedType) (presentItems items) in
  mkLinkage
    (if isToOneRelationship
     then match linkage with
          | first :: _ => LinkSingle first
          | [] => LinkUndefined
          end
     else LinkList linkage).

Section Libraries.

(** The defaults [pluralize.singular] and [pluralize.plural] of the
    [pluralize] package, [util.errorHandler] through which every
    rejection of an operation's promise chain passes, and
    [util.toMongoCriteria]. *)
Variable pluralize_singular : string -> string.
Variable pluralize_plural : string -> string.
Variable errorHandler : error -> error.
Variable toMongoCriteria : list value -> value.

(** [promise.catch(util.errorHandler)] *)
Definition catch (A : Type) (m : Result A) : Result A :=
  match m with
  | inl e => inl (errorHandler e)
  | inr a => inr a
  end.

Definition getReferencedType (m : ModelInfo) (path : string) : Result string :=
  match getReferencedModelName m path with
  | Some name => inr (getType name pluralize_plural)
  | None => inl ETypeError
  end.

(** The attributes kept by a field selection: [newAttrs].  The test
    [attrs[field]] is modelled on the fields of the document; for a
    selected name that is a member of [Object.prototype] the engine
    reads the inherited member, which the values of the model do not
    include ([Engine.objectPrototypeMember] marks these names). *)
Definition selectAttrs (attrs : list (string * value)) (selected : list string)
  : list (string * value) :=
  List.fold_left
    (fun newAttrs field =>
       match Obj.lookup field attrs with
       | Some v => if JS.truthy v then Obj.set field v newAttrs else newAttrs
       | None => newAttrs
       end)
    selected [].

(** The body of [refPaths.forEach] on the current attributes and
    relationships. *)
Definition addRelationship
    (m : ModelInfo) (selected : option (list string))
    (acc : value * list (string * Relationship)) (path : string)
  : Result (value * list (string * Relationship)) :=
  let '(attrs, relationships) := acc in
  if negb (isSelected selected path) then inr acc
  else
    let pathParts := Str.split "." path in
    match JS.reduceGetProp pathParts attrs with
    | None => inl ETypeError
    | Some jsonValAtPath =>
        referencedType <- getReferencedType m path ;;
        let attrs' := snd (Misc.deleteNested path attrs) in
        inr (attrs',
             Obj.set path
               (mkRelationship (buildLinkage referencedType jsonValAtPath))
               relationships)
    end.

Fixpoint addRelationships
    (m : ModelInfo) (selected : option (list string))
    (refPaths : list string) (acc : value * list (string * Relationship))
  : Result (value * list (string * Relationship)) :=
  match refPaths with
  | [] => inr acc
  | path :: rest =>
      acc' <- addRelationship m selected acc path ;;
      addRelationships m selected rest acc'
  end.

(** The attributes of a document before the relationships are moved
    out: the serialized document without the bookkeeping keys, cut down
    to the selected fields. *)
Definition cleanAttrs (doc : Doc) (selected : option (list string))
  : list (string * value) :=
  let schemaOptions := schema (d_model doc) in
  let attrs :=
    Obj.remove (discriminatorKey schemaOptions)
      (Obj.remove (versionKey schemaOptions)
         (Obj.remove "_id" (Obj.remove "id" (d_json doc)))) in
  match selected with
  | Some fs => selectAttrs attrs fs
  | None => attrs
  end.

Definition docToResource
    (doc : Doc) (pluralizer : string -> string) (fields : option Fields)
  : Result Resource :=
  let type := getType (modelName (d_model doc)) pluralizer in
  let refPaths := getReferencePaths (d_model doc) in
  let selected := selectedFields fields type in
  let attrs := VObj (cleanAttrs doc selected) in
  res <- addRelationships (d_model doc) selected refPaths (attrs, []) ;;
  inr (mkResource type (d_id doc) (fst res) (snd res)).

(** [docToResource] applied to an entry of an array of documents; on
    [null] the read of [doc.constructor] raises. *)
Definition entryToResource
    (pluralizer : string -> string) (fields : option Fields)
    (entry : option Doc) : Result Resource :=
  match entry with
  | Some doc => docToResource doc pluralizer fields
  | None => inl ETypeError
  end.

Definition docsToResourceOrCollection
    (docs : Docs) (makeCollection : bool)
    (pluralizer : string -> string) (fields : option Fields)
  : Result ResourceOrCollection :=
  let missing :=
    match docs with
    | DNull => true
    | DOne _ => false
    | DMany ds => negb makeCollection && Nat.eqb (List.length ds) 0
    end in
  if missing then inl (EApi noMatchError)
  else
    let docs :=
      match docs with
      | DMany ds => ds
      | DOne d => [Some d]
      | DNull => [None]
      end in
    resources <- mapM (entryToResource pluralizer fields) docs ;;
    inr (if makeCollection then Collection resources
         else match resources with
              | first :: _ => OneResource first
              | [] => NoResource
              end).

(** [forEachArrayOrVal(docs, eachFn)] visits the entries of an array, or
    the value itself. *)
Definition arrayOrVal (docs : Docs) : list (option Doc) :=
  match docs with
  | DMany ds => ds
  | DOne d => [Some d]
  | DNull => [None]
  end.

(** [queryBuilder.exec()] *)
Definition exec (model : Model) (query : QueryBuilder) : Docs :=
  match qb_mode query with
  | FindMode => DMany (List.map Some (m_find model query))
  | FindOneMode =>
      match m_findOne model query with
      | Some d => DOne d
      | None => DNull
      end
  end.

Definition invalidIncludeError (type part : string) : APIError :=
  mkAPIError 400 None "Invalid include path."
    (Some ("Resources of type " ++ dquote ++ type ++ dquote
           ++ " don't have a(n) " ++ dquote ++ part ++ dquote
           ++ " relationship.")%string).

Definition multiLevelIncludeError : APIError :=
  mkAPIError 501 None "Multi-level include paths aren't yet supported." None.

(** The body of [includePaths.map(...).forEach]: the check of one
    include path, which gives the path to populate. *)
Definition checkInclude (type : string) (refPaths : list string)
    (includePath : string) : Result string :=
  let pathParts := Str.split "." includePath in
  let first := List.hd "" pathParts in
  if negb (arrayContains refPaths first)
  then inl (EApi (invalidIncludeError type first))
  else if (1 <? List.length pathParts)%nat
       then inl (EApi multiLevelIncludeError)
       else inr first.

(** The relationship name of an include path ([pathParts[0]]), whether
    it is among the reference paths, and whether the path has more than
    one part. *)
Definition includeFirst (includePath : string) : string :=
  List.hd "" (Str.split "." includePath).

Definition declaredInclude (refPaths : list string) (includePath : string)
  : bool :=
  arrayContains refPaths (includeFirst includePath).

Definition nestedInclude (includePath : string) : bool :=
  (1 <? List.length (Str.split "." includePath))%nat.

(** An include path that passes the check. *)
Definition validInclude (refPaths : list string) (includePath : string)
  : Prop :=
  declaredInclude refPaths includePath = true
  /\ nestedInclude includePath = false.

(** The whole [forEach]: the first path that fails its check raises;
    otherwise [populatedPaths]. *)
Definition checkIncludes (type : string) (refPaths : list string)
    (includePaths : list string) : Result (list string) :=
  mapM (checkInclude type refPaths) includePaths.

(** [Array.isArray(doc[path]) ? doc[path] : [doc[path]]], without the
    entries the [if(it)] test skips. *)
Definition refDocs (doc : Doc) (path : string) : list Doc :=
  match Obj.lookup path (d_populated doc) with
  | Some (PopDoc d) => [d]
  | Some (PopDocs ds) => presentItems ds
  | Some PopNone => []
  | None => []
  end.

(** The resources to include: for every document found, the documents
    its populated paths hold. *)
Definition includedResources
    (docs : Docs) (populatedPaths : list string)
    (pluralizer : string -> string) (fields : option Fields)
  : Result (list Resource) :=
  let linked :=
    List.flat_map
      (fun doc => List.flat_map (refDocs doc) populatedPaths)
      (presentItems (arrayOrVal docs)) in
  mapM (fun it => docToResource it pluralizer fields) linked.

(** [sorts.map(it => (it.direction === 'DESC' ? '-' : '') + it.field).join(" ")] *)
Definition sortString (sorts : list Sort) : string :=
  Str.join " "
    (List.map
       (fun it => ((match s_direction it with DESC => "-" | ASC => "" end)
                   ++ s_field it)%string)
       sorts).

(** [if(n)] for an optional number *)
Definition whenTruthy (n : option Z) : option Z :=
  match n with
  | Some z => if Z.eqb z 0 then None else Some z
  | None => None
  end.

Definition isDefined (A : Type) (x : option A) : bool :=
  match x with Some _ => true | None => false end.

(** [!idOrIds || Array.isArray(idOrIds) ? true : false] *)
Definition makeCollectionFor (idOrIds : IdOrIds) : bool :=
  idFalsy idOrIds || (match idOrIds with IdArray _ => true | _ => false end).

Definition FindResult : Type :=
  (ResourceOrCollection * option (list Resource) * option Z)%type.

(** [find]: the store calls made and the triple of primary resources,
    included resources (a collection, or [null]) and collection size (or
    [null]). *)
Definition find (adapter : Adapter) (query : FindQuery)
  : list StoreCall * Result FindResult :=
  let type := fq_type query in
  let fields := fq_select query in
  let idOrIds := fq_idOrIds query in
  let isFiltering := (0 <? List.length (fq_filters query))%nat in
  let mongofiedFilters := toMongoCriteria (fq_filters query) in
  match getModel adapter (getModelName type pluralize_singular) with
  | inl e => ([], inl e)
  | inr model =>
  match getIdQueryType idOrIds with
  | inl e => ([], inl e)
  | inr (mode, idQuery) =>
      let pluralizer := inflector_plural adapter in
      let isPaginating :=
        negb (match idOrIds with IdString _ => true | _ => false end)
        && (isDefined (fq_offset query) || isDefined (fq_limit query)) in
      let countCalls :=
        if isPaginating then [CallCount mongofiedFilters] else [] in
      let collectionSize :=
        if isPaginating then Some (m_count model mongofiedFilters) else None in
      let queryBuilder (populated : list string) :=
        {| qb_mode := mode;
           qb_idQuery := idQuery;
           qb_sort := option_map sortString (fq_sort query);
           qb_where := if isFiltering then Some mongofiedFilters else None;
           qb_skip := whenTruthy (fq_offset query);
           qb_limit := whenTruthy (fq_limit query);
           qb_populate := populated |} in
      let makeCollection := makeCollectionFor idOrIds in
      match fq_populates query with
      | Some includePaths =>
          let refPaths := getReferencePaths (m_info model) in
          match checkIncludes type refPaths includePaths with
          | inl e => (countCalls, inl e)
          | inr populatedPaths =>
              let docs := exec model (queryBuilder populatedPaths) in
              (countCalls ++ [CallExec (queryBuilder populatedPaths)],
               catch (included <-
                        includedResources docs populatedPaths pluralizer fields ;;
                      primary <-
                        docsToResourceOrCollection docs makeCollection
                          pluralizer fields ;;
                      inr (primary, Some included, collectionSize)))
          end
      | None =>
          let docs := exec model (queryBuilder []) in
          (countCalls ++ [CallExec (queryBuilder [])],
           catch (primary <-
                    docsToResourceOrCollection docs makeCollection
                      pluralizer fields ;;
                  inr (primary, None, collectionSize)))
      end
  end
  end.

Definition noTargetError : APIError :=
  mkAPIError 400 None "You must specify some resources to delete" None.

(** [forEachArrayOrVal(docs, (it) => { it.remove(); })] *)
Fixpoint removeEach (ds : list (option Doc)) : list StoreCall * Result unit :=
  match ds with
  | [] => ([], inr tt)
  | Some d :: rest =>
      let (calls, res) := removeEach rest in (CallRemove d :: calls, res)
  | None :: _ => ([], inl ETypeError)
  end.

(** [delete]: the store calls made and the documents returned. *)
Definition delete (adapter : Adapter) (query : DeleteQuery)
  : list StoreCall * Result Docs :=
  let idOrIds := dq_idOrIds query in
  match getModel adapter (getModelName (dq_type query) pluralize_singular) with
  | inl e => ([], inl e)
  | inr model =>
  match getIdQueryType idOrIds with
  | inl e => ([], inl e)
  | inr (mode, idQuery) =>
      if idFalsy idOrIds then ([], inl (EApi noTargetError))
      else
        let queryBuilder :=
          {| qb_mode := mode; qb_idQuery := idQuery; qb_sort := None;
             qb_where := None; qb_skip := None; qb_limit := None;
             qb_populate := [] |} in
        let docs := exec model queryBuilder in
        match docs with
        | DNull => ([CallExec queryBuilder], inl (errorHandler (EApi noMatchError)))
        | _ =>
            let (removals, res) := removeEach (arrayOrVal docs) in
            (CallExec queryBuilder :: removals,
             catch (_ <- res ;; inr docs))
        end
  end
  end.

(** The properties of a plain object. *)
Definition propsOf (v : value) : list (string * value) :=
  match v with
  | VObj props => props
  | _ => []
  end.

Definition linkageIds (l : LinkageValue) : value :=
  let entryId (e : option ResourceIdentifier) : value :=
    match e with
    | Some ri => VStr (ri_id ri)
    | None => VNull
    end in
  match l with
  | LinkUndefined => VUndef
  | LinkSingle e => entryId e
  | LinkList es => VArr (List.map (fun e => Some (entryId e)) es)
  end.

(** Modelled from the spec: [util.resourceToDocObject] of [./lib] is not
    among the sources; it copies the attributes and the ids of the
    relationship linkage into a flat object, keyed by the same
    relationship path names. *)
Definition resourceToDocObject (r : Resource) : list (string * value) :=
  List.fold_left
    (fun res kv =>
       Obj.set (fst kv) (linkageIds (lvalue (linkage (snd kv)))) res)
    (r_relationships r) (propsOf (r_attrs r)).

(** [modifiedPaths.reduce((acc, key) => { acc[key] = updateDocObject[key];
    return acc; }, {})] *)
Definition finalUpdateOf
    (modifiedPaths : list string) (updateDocObject : list (string * value))
  : list (string * value) :=
  List.fold_left
    (fun acc key =>
       Obj.set key
         (match Obj.lookup key updateDocObject with
          | Some v => v
          | None => VUndef
          end)
         acc)
    modifiedPaths [].

(** The update object built for one resource of the patch. *)
Definition finalUpdateFor (newModel : Model) (resourceUpdate : Resource)
  : list (string * value) :=
  let changeSet := resourceToDocObject resourceUpdate in
  let (modifiedPaths, updateDocObject) := m_hydrateSet newModel changeSet in
  finalUpdateOf modifiedPaths updateDocObject.

(** The function mapped over the patch by [update]: the store call it
    makes and the document the call resolves to. *)
Definition updateOne (adapter : Adapter) (parentModel : Model)
    (resourceUpdate : Resource) : Result (StoreCall * option Doc) :=
  let newModelName :=
    getModelName (r_type resourceUpdate) (inflector_singular adapter) in
  NewModelConstructor <- getModel adapter newModelName ;;
  let finalUpdate := finalUpdateFor NewModelConstructor resourceUpdate in
  inr (CallFindByIdAndUpdate (r_id resourceUpdate) finalUpdate,
       m_findByIdAndUpdate parentModel (r_id resourceUpdate) finalUpdate).

(** [mapResources(resourceOrCollection, mapFn)] (util/type-handling),
    as the list of resources [mapFn] is applied to. *)
Definition resourcesOf (patch : Patch) : list Resource :=
  match patch with
  | PatchCollection rs => rs
  | PatchResource r => [r]
  end.

(** The calls of [mapFn] in order; an exception ends the mapping, the
    calls made before it stay made. *)
Fixpoint updateEach (adapter : Adapter) (parentModel : Model)
    (rs : list Resource) : list StoreCall * Result (list (option Doc)) :=
  match rs with
  | [] => ([], inr [])
  | r :: rest =>
      match updateOne adapter parentModel r with
      | inl e => ([], inl e)
      | inr (call, doc) =>
          let (calls, res) := updateEach adapter parentModel rest in
          (call :: calls, docs <- res ;; inr (doc :: docs))
      end
  end.

(** [update]: the store calls made and the updated resources. *)
Definition update (adapter : Adapter) (query : UpdateQuery)
  : list StoreCall * Result ResourceOrCollection :=
  let singular := inflector_singular adapter in
  let plural := inflector_plural adapter in
  match getModel adapter (getModelName (uq_type query) singular) with
  | inl e => ([], inl e)
  | inr parentModel =>
      let (calls, res) :=
        updateEach adapter parentModel (resourcesOf (uq_patch query)) in
      match res with
      | inl e => (calls, inl e)
      | inr docs =>
          let makeCollection :=
            match uq_patch query with
            | PatchCollection _ => true
            | PatchResource _ => false
            end in
          (calls,
           catch (docsToResourceOrCollection (DMany docs) makeCollection
                    plural None))
      end
  end.

End Libraries.

End MongooseAdapter.

(* ================================================================= *)
(** ** Sample data *)

Module Sample.

(** A toy inflector: the plural adds an [s], the singular drops a final
    [s]. *)
Definition plural (s : string) : string := (s ++ "s")%string.

Fixpoint singular (s : string) : string :=
  match s with
  | EmptyString => EmptyString
  | String c EmptyString =>
      if Ascii.eqb c "s" then EmptyString else String c EmptyString
  | String c s' => String c (singular s')
  end.

(** An error handler that passes errors on, and a rendering of filters. *)
Definition passOn (e : error) : error := e.

Definition criteria (filters : list value) : value :=
  VArr (List.map Some filters).

(** Posts have one author and many tags. *)
Definition postSchema : Schema :=
  mkSchema
    [mkRefPath "author" false "Person"; mkRefPath "tags" true "Tag"]
    "__v" "__t".

Definition postInfo : ModelInfo := mkModelInfo "Post" postSchema.

(** A store that holds the given posts: [find] answers with all of them,
    [findOne] with the first.  Its documents get the default [views: 0];
    a hydrated change set reports the paths of the change set as
    modified. *)
Definition postStore (posts : list Doc) : Model :=
  mkModel postInfo
    (fun _ => posts)
    (fun _ => List.hd_error posts)
    (fun _ => Z.of_nat (List.length posts))
    (fun changeSet =>
       (Obj.keys changeSet, (changeSet ++ [("views", VNum 0)])%list))
    (fun _ _ => List.hd_error posts).

Definition adapterOf (posts : list Doc) : Adapter :=
  mkAdapter [("Post", postStore posts)] singular plural.

Definition validId : string := "0123456789abcdefABCDEF01".

Definition findById (idOrIds : IdOrIds) : FindQuery :=
  mkFindQuery "posts" None None None None None idOrIds [].

Definition findIncluding (includePaths : list string) : FindQuery :=
  mkFindQuery "posts" (Some includePaths) None None None None IdUndefined [].

(** A post whose [tags] are absent and whose [author] is [null]. *)
Definition untaggedPost : Doc :=
  mkDoc postInfo (Some validId)
    [("_id", VStr validId); ("title", VStr "Hello"); ("author", VNull);
     ("__v", VNum 0)]
    [].

(** A post with an author, two tags and a count of zero. *)
Definition taggedPost : Doc :=
  mkDoc postInfo (Some validId)
    [("_id", VStr validId); ("title", VStr "Hello"); ("likes", VNum 0);
     ("author", VStr "aaaaaaaaaaaaaaaaaaaaaaaa");
     ("tags", VArr [Some (VStr "bbbbbbbbbbbbbbbbbbbbbbbb");
                    Some (VObj [("_id", VStr "cccccccccccccccccccccccc");
                                ("name", VStr "news")])]);
     ("__v", VNum 0)]
    [].

(** A patch that changes the title of a post. *)
Definition titlePatch : Resource :=
  mkResource "posts" (Some validId) (VObj [("title", VStr "New")]) [].

Definition titleUpdate : UpdateQuery :=
  mkUpdateQuery "posts" (PatchResource titlePatch).

End Sample.

(* ================================================================= *)
(** ** Array helpers (util/utils.js) *)

Module Utils.

(** [array.filter((a, b, c) => c.indexOf(a, b+1) < 0)] on an array of
    strings: an item is kept when it does not occur again after its own
    position. *)
Fixpoint arrayUnique (array : list string) : list string :=
  match array with
  | [] => []
  | a :: rest =>
      if List.existsb (String.eqb a) rest
      then arrayUnique rest
      else a :: arrayUnique rest
  end.

(** [array.sort()] on an array of strings: the default order compares
    the strings by their code units.  Which algorithm sorts is left to
    the engine; on strings every sort gives the same array, computed
    here by insertion. *)
Fixpoint insertSorted (x : string) (sorted : list string) : list string :=
  match sorted with
  | [] => [x]
  | y :: rest =>
      if String.leb x y then x :: sorted else y :: insertSorted x rest
  end.

Definition sort (array : list string) : list string :=
  List.fold_right insertSorted [] array.

(** [array1.length === array2.length &&
     array1.sort().join() === array2.sort().join()].
    [sort] works in place: the result pairs the answer with the two
    arrays after the call, which are left as they were when the lengths
    differ. *)
Definition arrayValuesMatch (array1 array2 : list string)
  : bool * (list string * list string) :=
  if Nat.eqb (List.length array1) (List.length array2)
  then (String.eqb (Str.join "," (sort array1)) (Str.join "," (sort array2)),
        (sort array1, sort array2))
  else (false, (array1, array2)).

(** [isSubsetOf] (util/misc): [potentialSubsetArr.every((it) =>
    set.has(it) === true)] for [set = new Set(setArr)], on arrays of
    strings. *)
Definition isSubsetOf (setArr potentialSubsetArr : list string) : bool :=
  List.forallb (fun it => List.existsb (String.eqb it) setArr)
    potentialSubsetArr.

(** A string without the character [sep]. *)
Definition lacks (sep : ascii) (s : string) : bool :=
  Str.forallb (fun c => negb (Ascii.eqb c sep)) s.

End Utils.

(* ================================================================= *)
(** ** More of [toFriendlyName] and [pseudoTopSort] *)

Module FriendlyNameMore.

(** The string from its first capital on. *)
Fixpoint fromFirstCapital (s : string) : string :=
  match s with
  | EmptyString => EmptyString
  | String c s' => if Str.isUpper c then s else fromFirstCapital s'
  end.

Definition startsWithCapital (s : string) : Prop :=
  exists c rest, s = String c rest /\ Str.isUpper c = true.

End FriendlyNameMore.

Module TopSortMore.

(** What also holds of every state of the loop: a node that no edge
    leads to is output or queued as often as it is among the roots, and
    each step moves the edges it follows from the graph to the queue. *)
Record Inv2 (E0 : TopSort.Edges) (R0 : list string) (st : TopSort.state)
  : Prop := mkInv2 {
  inv_children_sub : forall k c,
    In c (TopSort.children (TopSort.edges st) k) -> TopSort.edge E0 k c;
  inv_root_count : forall c,
    (forall p, ~ TopSort.edge E0 p c) ->
    count_occ string_dec (TopSort.seen st) c = count_occ string_dec R0 c;
  inv_size :
    List.length (TopSort.seen st) + TopSort.edgeCount (TopSort.edges st)
    = List.length R0 + TopSort.edgeCount E0
}.

(** The precondition of the sort in full: no node has two incoming
    edges, the roots are distinct, and no edge leads to a root. *)
Definition forest (edges : TopSort.Edges) (roots : list string) : Prop :=
  TopSort.singleParent edges
  /\ NoDup roots
  /\ (forall p r, In r roots -> ~ TopSort.edge edges p r).

End TopSortMore.

(* ================================================================= *)
(** ** The adapter: [create] and the relationship operations *)

Module MongooseAdapterMore.

Import MongooseAdapter.


(** [linkage.value.map(it => it.id)]: the value must be an array, and
    [null] has no [id]; [None] is the [TypeError]. *)
Fixpoint entryIds (entries : list (option ResourceIdentifier))
  : option (list string) :=
  match entries with
  | [] => Some []
  | Some it :: rest =>
      match entryIds rest with
      | Some ids => Some (ri_id it :: ids)
      | None => None
      end
  | None :: _ => None
  end.

Definition linkageValueIds (l : LinkageValue) : option (list string) :=
  match l with
  | LinkList entries => entryIds entries
  | LinkSingle _ => None
  | LinkUndefined => None
  end.

Definition idArray (ids : list string) : value :=
  VArr (List.map (fun id => Some (VStr id)) ids).

(** [{$addToSet: {[relationshipPath]: {$each: ids}}}] *)
Definition addToSetUpdate (relationshipPath : string) (ids : list string)
  : value :=
  VObj [("$addToSet",
         VObj [(relationshipPath, VObj [("$each", idArray ids)])])].

(** [{$pullAll: {[relationshipPath]: ids}}] *)
Definition pullAllUpdate (relationshipPath : string) (ids : list string)
  : value :=
  VObj [("$pullAll", VObj [(relationshipPath, idArray ids)])].

Record RelationshipQuery : Type := mkRelationshipQuery {
  rq_type : string;
  rq_resourceId : string;
  rq_relationshipName : string;
  rq_linkage : Linkage
}.

(** The call [model.findOneAndUpdate({"_id": id}, update, options)]. *)
Inductive RelationshipCall : Type :=
| CallFindOneAndUpdate (id : string) (update : value).


Section Store.

(** The defaults of [pluralize], [util.errorHandler], and the answers of
    the store to [findOneAndUpdate] and to [create].
    [groupResourcesByType] of [util/type-handling], of which the sources
    hold the declaration only, gives for each type, in the order its
    keys are enumerated, the resources of that type.  [idGenerator] is
    the generator the adapter was built with, if any. *)
Variable pluralize_singular : string -> string.
Variable pluralize_plural : string -> string.
Variable errorHandler : error -> error.
Variable m_findOneAndUpdate : Model -> string -> value -> option Doc.
Variable m_create : Model -> list (list (string * value)) -> list Doc.
Variable groupResourcesByType : Patch -> list (string * list Resource).
Variable idGenerator : option (list (string * value) -> value).

(** The body shared by [addToRelationship] and [removeFromRelationship]:
    the model is looked up, then the update is built, then the store is
    called. *)
Definition mutateRelationship
    (buildUpdate : string -> list string -> value)
    (adapter : Adapter) (query : RelationshipQuery)
  : list RelationshipCall * Result (option Doc) :=
  match getModel adapter (getModelName (rq_type query) pluralize_singular) with
  | inl e => ([], inl e)
  | inr model =>
      match linkageValueIds (lvalue (rq_linkage query)) with
      | None => ([], inl ETypeError)
      | Some ids =>
          let update := buildUpdate (rq_relationshipName query) ids in
          ([CallFindOneAndUpdate (rq_resourceId query) update],
           inr (m_findOneAndUpdate model (rq_resourceId query) update))
      end
  end.

Definition addToRelationship : Adapter -> RelationshipQuery ->
  list RelationshipCall * Result (option Doc) :=
  mutateRelationship addToSetUpdate.

Definition removeFromRelationship : Adapter -> RelationshipQuery ->
  list RelationshipCall * Result (option Doc) :=
  mutateRelationship pullAllUpdate.




End Store.

(** Whether [find] asks for the size of the collection:
    [typeof idOrIds !== 'string' && (typeof offset !== 'undefined' ||
    typeof limit !== 'undefined')]. *)
Definition isPaginating (query : FindQuery) : bool :=
  negb (match fq_idOrIds query with IdString _ => true | _ => false end)
  && (isDefined (fq_offset query) || isDefined (fq_limit query)).

End MongooseAdapterMore.

(* ================================================================= *)
(** ** More sample data *)

Module SampleMore.

(** A store for [findOneAndUpdate] and [create] that finds nothing and
    creates one post for each document object. *)
Definition noneFound (_ : Model) (_ : string) (_ : value) : option Doc := None.



Definition tagLinkage : Linkage :=
  mkLinkage
    (LinkList [Some (mkIdentifier "tags" "bbbbbbbbbbbbbbbbbbbbbbbb");
               Some (mkIdentifier "tags" "cccccccccccccccccccccccc")]).

Definition addTags : MongooseAdapterMore.RelationshipQuery :=
  MongooseAdapterMore.mkRelationshipQuery "posts" Sample.validId "tags"
    tagLinkage.

(** An edge object with two trees. *)
Definition twoTrees : TopSort.Edges :=
  [("A", ["B"; "C"]); ("B", ["D"]); ("E", ["F"])].

End SampleMore.

(* ================================================================= *)
(** ** The engine: inherited members and ASCII strings *)

Module Engine.

(** The names of the members of [Object.prototype] (ECMAScript, with
    its Annex B): a read of one of them on a plain object without an
    own property of that name gives the inherited member. *)
Definition objectPrototypeMember (k : string) : bool :=
  List.existsb (String.eqb k)
    ["constructor"; "__defineGetter__"; "__defineSetter__";
     "hasOwnProperty"; "__lookupGetter__"; "__lookupSetter__";
     "isPrototypeOf"; "propertyIsEnumerable"; "toString"; "valueOf";
     "__proto__"; "toLocaleString"].

(** A string of ASCII characters.  On these [toUpperCase],
    [toLowerCase], [charAt] and [slice] of the engine are the
    conversions of the model. *)
Definition isAscii (s : string) : bool :=
  Str.forallb (fun c => (nat_of_ascii c <? 128)%nat) s.

End Engine.

(* ================================================================= *)
(** ** Objects in the heap: [deleteNested] on any object

    [deleteNested] is handed any object by its caller.  Here objects
    live in a heap and are reached by reference, so that they can be
    shared, circular or frozen, and a read follows the prototype chain:
    the prototypes and the functions they hold are objects of the heap
    like any other. *)

Module Heap.

Definition loc := nat.

(** A value: a primitive, or a reference to an object.  A string is the
    list of its code units; a number is represented by an integer, and
    [deleteNested] reads no number. *)
Inductive hvalue : Type :=
| HUndef
| HNull
| HBool (b : bool)
| HNum (n : Z)
| HStr (units : list N)
| HRef (l : loc).

(** An own property: a data property with its value, or an accessor
    property, whose getter is code; both have the attribute
    [configurable]. *)
Inductive property : Type :=
| Data (v : hvalue) (configurable : bool)
| Accessor (configurable : bool).

Definition isConfigurable (p : property) : bool :=
  match p with
  | Data _ c => c
  | Accessor c => c
  end.

(** Whether an object can be called, and if so whether it is the
    built-in [Object.prototype.hasOwnProperty]. *)
Inductive callable : Type :=
| NotCallable
| HasOwnPropertyMethod
| OtherFunction.

(** An object: [o_chain] lists the objects of its prototype chain,
    nearest first.  Arrays and functions read, test and delete their
    properties as ordinary objects do: an array has its elements and
    its [length], which is not configurable, among [o_props].
    [o_exotic] marks the objects that do not (proxies, typed arrays,
    [arguments] objects, ...). *)
Record object : Type := mkObject {
  o_exotic : bool;
  o_call : callable;
  o_chain : list loc;
  o_props : list (string * property)
}.

Definition heap := loc -> option object.

(** The prototype chains searched by a read on a primitive. *)
Record realm : Type := mkRealm {
  r_string : list loc;
  r_number : list loc;
  r_boolean : list loc
}.

(** The outcome of a read: a value, a [TypeError], or a step the model
    does not follow: the call of a getter, an exotic object, a
    reference to no object. *)
Inductive Read : Type :=
| Got (v : hvalue)
| Threw
| Unmodelled.

(** The first own property named [k] among the objects of [chain]. *)
Fixpoint findInChain (H : heap) (chain : list loc) (k : string) : Read :=
  match chain with
  | [] => Got HUndef
  | l :: rest =>
      match H l with
      | None => Unmodelled
      | Some o =>
          if o_exotic o then Unmodelled
          else match Obj.lookup k (o_props o) with
               | Some (Data v _) => Got v
               | Some (Accessor _) => Unmodelled
               | None => findInChain H rest k
               end
      end
  end.

(** The own properties of a string: its code units at their indices,
    and [length]. *)
Definition stringOwn (units : list N) (k : string) : option hvalue :=
  match JS.arrayIndex (List.length units) k with
  | Some i =>
      match nth_error units i with
      | Some u => Some (HStr [u])
      | None => None
      end
  | None =>
      if String.eqb k "length"
      then Some (HNum (Z.of_nat (List.length units)))
      else None
  end.

(** [v[k]] *)
Definition get (rl : realm) (H : heap) (v : hvalue) (k : string) : Read :=
  match v with
  | HUndef | HNull => Threw
  | HBool _ => findInChain H (r_boolean rl) k
  | HNum _ => findInChain H (r_number rl) k
  | HStr units =>
      match stringOwn units k with
      | Some x => Got x
      | None => findInChain H (r_string rl) k
      end
  | HRef l =>
      match H l with
      | Some o => findInChain H (l :: o_chain o) k
      | None => Unmodelled
      end
  end.

(** [parts.reduce((obj, part) => obj[part], object)] *)
Fixpoint reduceGet (rl : realm) (H : heap) (parts : list string) (v : hvalue)
  : Read :=
  match parts with
  | [] => Got v
  | part :: rest =>
      match get rl H v part with
      | Got x => reduceGet rl H rest x
      | Threw => Threw
      | Unmodelled => Unmodelled
      end
  end.

(** The own property named [k] of [v] taken as an object. *)
Inductive Own : Type :=
| OwnProperty (p : property)
| NotOwn
| OwnUnmodelled.

Definition getOwnProperty (H : heap) (v : hvalue) (k : string) : Own :=
  match v with
  | HRef l =>
      match H l with
      | Some o =>
          if o_exotic o then OwnUnmodelled
          else match Obj.lookup k (o_props o) with
               | Some p => OwnProperty p
               | None => NotOwn
               end
      | None => OwnUnmodelled
      end
  | HStr units =>
      match stringOwn units k with
      | Some x => OwnProperty (Data x false)
      | None => NotOwn
      end
  | _ => NotOwn
  end.

(** The method call [container.hasOwnProperty(k)]: the method is read
    from the container like any property.  A value that cannot be
    called raises a [TypeError]; a function other than the built-in
    method is code the model does not follow. *)
Inductive Call : Type :=
| Answer (b : bool)
| CallThrew
| CallUnmodelled.

Definition callHasOwnProperty
    (rl : realm) (H : heap) (container : hvalue) (k : string) : Call :=
  match get rl H container "hasOwnProperty" with
  | Threw => CallThrew
  | Unmodelled => CallUnmodelled
  | Got (HRef m) =>
      match H m with
      | None => CallUnmodelled
      | Some f =>
          match o_call f with
          | HasOwnPropertyMethod =>
              match getOwnProperty H container k with
              | OwnProperty _ => Answer true
              | NotOwn => Answer false
              | OwnUnmodelled => CallUnmodelled
              end
          | OtherFunction => CallUnmodelled
          | NotCallable => CallThrew
          end
      end
  | Got _ => CallThrew
  end.

(** The heap in which the object at [l] has lost its property [k]. *)
Definition removeProperty (H : heap) (l : loc) (k : string) : heap :=
  fun l' =>
    if Nat.eqb l' l
    then match H l with
         | Some o =>
             Some (mkObject (o_exotic o) (o_call o) (o_chain o)
                     (Obj.remove k (o_props o)))
         | None => None
         end
    else H l'.

(** [delete container[k]] in strict mode: a property that is not
    configurable raises a [TypeError]. *)
Inductive Delete : Type :=
| Removed (H' : heap)
| DeleteThrew
| DeleteUnmodelled.

Definition deleteProperty (H : heap) (container : hvalue) (k : string)
  : Delete :=
  match container with
  | HRef l =>
      match getOwnProperty H container k with
      | OwnProperty p =>
          if isConfigurable p then Removed (removeProperty H l k)
          else DeleteThrew
      | NotOwn => Removed H
      | OwnUnmodelled => DeleteUnmodelled
      end
  | HStr units =>
      match stringOwn units k with
      | Some _ => DeleteThrew
      | None => Removed H
      end
  | _ => Removed H
  end.

(** The [try] block of [deleteNested]: the property was deleted, or an
    exception was raised (by a read, by the call of the method, by the
    [delete], or by the [throw] of the [else] branch). *)
Inductive Attempt : Type :=
| Deleted (H' : heap)
| Failed
| AttemptUnmodelled.

Definition attempt (rl : realm) (H : heap) (path : string) (object : hvalue)
  : Attempt :=
  let pathParts := Str.split "." path in
  let lastPart := List.last pathParts "" in
  let containingParts := List.removelast pathParts in
  match reduceGet rl H containingParts object with
  | Unmodelled => AttemptUnmodelled
  | Threw => Failed
  | Got container =>
      match callHasOwnProperty rl H container lastPart with
      | CallUnmodelled => AttemptUnmodelled
      | CallThrew => Failed
      | Answer false => Failed
      | Answer true =>
          match deleteProperty H container lastPart with
          | Removed H' => Deleted H'
          | DeleteThrew => Failed
          | DeleteUnmodelled => AttemptUnmodelled
          end
      end
  end.

(** What a call of [deleteNested] comes to: it returns a boolean and
    leaves a heap, or it raises. *)
Inductive Outcome : Type :=
| Returned (b : bool) (H' : heap)
| Raised
| NotModelled.

Module Misc.

(** [deleteNested] of [util/misc]: the [catch] block returns [false]. *)
Definition deleteNested
    (rl : realm) (H : heap) (path : string) (object : hvalue) : Outcome :=
  match attempt rl H path object with
  | Deleted H' => Returned true H'
  | Failed => Returned false H
  | AttemptUnmodelled => NotModelled
  end.

End Misc.

Module Utils.

(** [deleteNested] of [util/utils.js]: the [catch] block first logs
    [JSON.stringify(object)].  [logFailure] is that statement, which
    belongs to the engine: [None] when it raises, as [JSON.stringify]
    does on a circular structure, and otherwise the heap it leaves. *)
Definition deleteNested
    (logFailure : heap -> string -> hvalue -> option heap)
    (rl : realm) (H : heap) (path : string) (object : hvalue) : Outcome :=
  match attempt rl H path object with
  | Deleted H' => Returned true H'
  | Failed =>
      match logFailure H path object with
      | Some H' => Returned false H'
      | None => Raised
      end
  | AttemptUnmodelled => NotModelled
  end.

End Utils.

(** The code units of a string of ASCII characters. *)
Definition units (s : string) : list N :=
  List.map N_of_ascii (list_ascii_of_string s).

End Heap.

(** A heap with the built-in objects a plain object inherits from, and a
    few objects of a caller. *)
Module HeapSample.

Import Heap.

Definition objectPrototype : loc := 0.
Definition objectConstructor : loc := 1.
Definition hasOwnPropertyFunction : loc := 2.
Definition valueOfFunction : loc := 3.
Definition toStringFunction : loc := 4.
Definition functionPrototype : loc := 5.
Definition functionConstructor : loc := 6.
Definition arrayPrototype : loc := 7.
Definition stringPrototype : loc := 8.
Definition numberPrototype : loc := 9.
Definition booleanPrototype : loc := 10.
Definition emptyObject : loc := 20.
Definition shadowing : loc := 21.
Definition user : loc := 24.
Definition contact : loc := 25.

Definition builtinFunction (call : callable) (name : string) (arity : Z)
    (more : list (string * property)) : object :=
  mkObject false call [functionPrototype; objectPrototype]
    (("length", Data (HNum arity) true)
     :: ("name", Data (HStr (units name)) true) :: more).

Definition plain (props : list (string * property)) : object :=
  mkObject false NotCallable [objectPrototype] props.

Definition sampleHeap : heap :=
  fun l =>
    match l with
    | 0 => Some (mkObject false NotCallable []
                   [("constructor", Data (HRef objectConstructor) true);
                    ("hasOwnProperty", Data (HRef hasOwnPropertyFunction) true);
                    ("valueOf", Data (HRef valueOfFunction) true);
                    ("toString", Data (HRef toStringFunction) true);
                    ("__proto__", Accessor true)])
    | 1 => Some (builtinFunction OtherFunction "Object" 1
                   [("prototype", Data (HRef objectPrototype) false)])
    | 2 => Some (builtinFunction HasOwnPropertyMethod "hasOwnProperty" 1 [])
    | 3 => Some (builtinFunction OtherFunction "valueOf" 0 [])
    | 4 => Some (builtinFunction OtherFunction "toString" 0 [])
    | 5 => Some (mkObject false OtherFunction [objectPrototype]
                   [("length", Data (HNum 0) true);
                    ("name", Data (HStr []) true);
                    ("constructor", Data (HRef functionConstructor) true)])
    | 6 => Some (builtinFunction OtherFunction "Function" 1
                   [("prototype", Data (HRef functionPrototype) false)])
    | 7 => Some (mkObject false NotCallable [objectPrototype]
                   [("length", Data (HNum 0) false)])
    | 8 => Some (plain [])
    | 9 => Some (plain [])
    | 10 => Some (plain [])
    | 20 => Some (plain [])
    | 21 => Some (plain [("toString", Data (HNum 1) true)])
    | 22 => Some (mkObject false NotCallable [arrayPrototype; objectPrototype]
                    [("0", Data (HStr (units "a")) true);
                     ("length", Data (HNum 1) false)])
    | 23 => Some (plain [("phone", Data (HStr (units "1")) false)])
    | 24 => Some (plain [("contact", Data (HRef contact) true);
                         ("self", Data (HRef user) true)])
    | 25 => Some (plain [("phone", Data (HStr (units "1")) true)])
    | _ => None
    end.

Definition sampleRealm : realm :=
  mkRealm [stringPrototype; objectPrototype]
          [numberPrototype; objectPrototype]
          [booleanPrototype; objectPrototype].


End HeapSample.
(* ================================================================= *)
(** * Properties *)

(** *** Facts about association lists *)

Lemma lookup_set_same (A : Type) (k : string) (v : A) props :
  Obj.lookup k (Obj.set k v props) = Some v.
Proof.
  induction props as [|[k' v'] rest IH]; simpl.
  - now rewrite String.eqb_refl.
  - destruct (String.eqb k k') eqn:E; simpl.
    + now rewrite String.eqb_refl.
    + now rewrite E.
Qed.

Lemma lookup_set_other (A : Type) (k k' : string) (v : A) props :
  k' <> k -> Obj.lookup k' (Obj.set k v props) = Obj.lookup k' props.
Proof.
  intros Hne. induction props as [|[k0 v0] rest IH]; simpl.
  - destruct (String.eqb_spec k' k); [contradiction | reflexivity].
  - destruct (String.eqb_spec k k0) as [->|Hk]; simpl.
    + destruct (String.eqb_spec k' k0); [contradiction | reflexivity].
    + destruct (String.eqb k' k0); [reflexivity | exact IH].
Qed.

Lemma lookup_remove_same (A : Type) (k : string) (props : list (string * A)) :
  Obj.lookup k (Obj.remove k props) = None.
Proof.
  induction props as [|[k' v'] rest IH]; simpl; [reflexivity|].
  destruct (String.eqb k k') eqn:E; simpl; [exact IH | now rewrite E].
Qed.

Lemma lookup_remove_other (A : Type) (k k' : string) (props : list (string * A)) :
  k' <> k -> Obj.lookup k' (Obj.remove k props) = Obj.lookup k' props.
Proof.
  intros Hne. induction props as [|[k0 v0] rest IH]; simpl; [reflexivity|].
  destruct (String.eqb_spec k k0) as [->|Hk]; simpl.
  - destruct (String.eqb_spec k' k0); [contradiction | exact IH].
  - destruct (String.eqb k' k0); [reflexivity | exact IH].
Qed.

(** *** The restricted topological sort *)

Section TopSortFacts.
Import TopSort.

Lemma edgeCount_clearChildren node es :
  edgeCount (clearChildren node es) + List.length (children es node)
  = edgeCount es.
Proof.
  unfold clearChildren, children, Obj.has.
  induction es as [|[k cs] rest IH]; simpl; [reflexivity|].
  destruct (String.eqb node k) eqn:E; simpl.
  - rewrite ?E. simpl. lia.
  - destruct (Obj.lookup node rest) eqn:L; simpl.
    + rewrite ?E. simpl. simpl in IH. lia.
    + lia.
Qed.

Lemma step_decreases st st' :
  step st = Some st' -> measure st' < measure st.
Proof.
  unfold step, measure. destruct (roots st) as [|r rest] eqn:R; [discriminate|].
  intros [= <-]. simpl. rewrite length_app.
  pose proof (edgeCount_clearChildren r (edges st)). lia.
Qed.

Lemma loop_terminates fuel : forall st,
  measure st <= fuel -> exists sorted, loop fuel st = Some sorted.
Proof.
  induction fuel as [|fuel IH]; intros st Hm; simpl.
  - destruct (step st) as [st'|] eqn:S; [|eauto].
    apply step_decreases in S. lia.
  - destruct (step st) as [st'|] eqn:S; [|eauto].
    apply IH. apply step_decreases in S. lia.
Qed.

Variable E0 : Edges.
Variable R0 : list string.

Lemma Inv_initial : Inv E0 R0 (initial E0 R0).
Proof.
  constructor; unfold seen; simpl.
  - reflexivity.
  - auto.
  - contradiction.
  - intros n Hn. now apply reach_root.
  - intros _ c Hc. split.
    + intros [p [[] _]].
    + intros _. now apply count_occ_not_In.
Qed.

Lemma children_clearChildren node es k :
  children (clearChildren node es) k
  = if String.eqb k node then [] else children es k.
Proof.
  unfold clearChildren, children, Obj.has.
  destruct (String.eqb_spec k node) as [->|Hne].
  - destruct (Obj.lookup node es) eqn:L.
    + now rewrite lookup_set_same.
    + now rewrite L.
  - destruct (Obj.lookup node es) eqn:L; [|reflexivity].
    now rewrite lookup_set_other.
Qed.

Lemma occursAfter_app l l' p c :
  occursAfter l p c -> occursAfter (l ++ l') p c.
Proof.
  intros (l1 & l2 & l3 & -> & Hn).
  exists l1, l2, (l3 ++ l'). split; [|exact Hn].
  rewrite <- !app_assoc. simpl. rewrite <- !app_assoc. reflexivity.
Qed.

Lemma count_occ_NoDup_In (l : list string) c :
  NoDup l -> In c l -> count_occ string_dec l c = 1.
Proof.
  intros Hnd Hin. apply (proj1 (NoDup_count_occ' string_dec l)); assumption.
Qed.

Lemma Inv_step st st' :
  Inv E0 R0 st -> step st = Some st' -> Inv E0 R0 st'.
Proof.
  intros [Hch Hro Haf Hre Hon]. unfold step.
  destruct (roots st) as [|r rest] eqn:R; [discriminate|].
  intros [= <-].
  assert (Hseen : forall cs,
            (sortResult st ++ [r]) ++ rest ++ cs = seen st ++ cs).
  { intros cs. unfold seen. rewrite R, <- !app_assoc. reflexivity. }
  constructor; unfold seen; simpl; try rewrite Hseen.
  - intros k. rewrite children_clearChildren, Hch.
    destruct (String.eqb_spec k r) as [->|Hne].
    + destruct (in_dec string_dec r (sortResult st ++ [r])) as [|n];
        [reflexivity|]. exfalso; apply n, in_or_app; right; now left.
    + destruct (in_dec string_dec k (sortResult st)) as [i|n];
        destruct (in_dec string_dec k (sortResult st ++ [r])) as [i'|n'];
        try reflexivity.
      * exfalso; apply n', in_or_app; now left.
      * apply in_app_or in i'. destruct i' as [|[->|[]]]; contradiction.
  - intros x Hx. apply in_or_app; left. now apply Hro.
  - intros p c Hp He. apply in_app_or in Hp.
    destruct (in_dec string_dec p (sortResult st)) as [Hin|Hnin].
    + apply occursAfter_app. now apply Haf.
    + destruct Hp as [Hp|[<-|[]]]; [contradiction|].
      rewrite Hch. destruct (in_dec string_dec r (sortResult st));
        [contradiction|].
      apply in_split in He. destruct He as (a & b & Hab).
      exists (sortResult st), (rest ++ a), b. split; [|exact Hnin].
      unfold seen. rewrite R, Hab, <- !app_assoc. simpl.
      rewrite <- ?app_assoc. reflexivity.
  - intros n Hn. apply in_app_or in Hn. destruct Hn as [Hn|Hn]; [auto|].
    rewrite Hch in Hn.
    destruct (in_dec string_dec r (sortResult st)); [contradiction|].
    apply reach_edge with (p := r); [|exact Hn].
    apply Hre. unfold seen. rewrite R. apply in_or_app. right. now left.
  - intros Hsp c Hc. specialize (Hon Hsp c Hc). destruct Hon as [H1 H0].
    rewrite count_occ_app, Hch.
    destruct (in_dec string_dec r (sortResult st)) as [Hin|Hnin]; simpl.
    + rewrite Nat.add_0_r. split.
      * intros (p & Hp & He). apply H1. exists p. split; [|exact He].
        apply in_app_or in Hp. destruct Hp as [|[<-|[]]]; assumption.
      * intros Hall. apply H0. intros p Hp. apply Hall, in_or_app. now left.
    + destruct (in_dec string_dec c (children E0 r)) as [Hed|Hned].
      * split; [|intros Hall; exfalso; apply (Hall r);
                   [apply in_or_app; right; now left | exact Hed]].
        intros _. rewrite H0.
        -- simpl. apply count_occ_NoDup_In; [apply Hsp | exact Hed].
        -- intros p Hp He. assert (p = r) by (eapply (proj1 Hsp); eauto).
           subst p. contradiction.
      * rewrite (proj1 (count_occ_not_In string_dec _ c) Hned), Nat.add_0_r.
        split.
        -- intros (p & Hp & He). apply H1. exists p. split; [|exact He].
           apply in_app_or in Hp. destruct Hp as [|[<-|[]]];
             [assumption | contradiction].
        -- intros Hall. apply H0. intros p Hp. apply Hall, in_or_app.
           now left.
Qed.

Lemma loop_Inv fuel : forall st sorted,
  Inv E0 R0 st -> loop fuel st = Some sorted ->
  exists final,
    Inv E0 R0 final /\ roots final = [] /\ sortResult final = sorted.
Proof.
  assert (Hstop : forall st, step st = None -> roots st = []).
  { intros st. unfold step. destruct (roots st); [reflexivity|discriminate]. }
  induction fuel as [|fuel IH]; intros st sorted HI; simpl;
    destruct (step st) as [st'|] eqn:S; try discriminate.
  - intros [= <-]. exists st. auto.
  - intros H. eapply IH; [|exact H]. eapply Inv_step; eauto.
  - intros [= <-]. exists st. auto.
Qed.

End TopSortFacts.

Section TopSortResults.
Import TopSort.

Lemma pseudoTopSort_opt_total nodes es rs :
  pseudoTopSort_opt nodes es rs = Some (pseudoTopSort nodes es rs).
Proof.
  unfold pseudoTopSort.
  destruct (@loop_terminates _ (initial es rs) (le_n _)) as [sorted H].
  unfold pseudoTopSort_opt. now rewrite H.
Qed.

Lemma pseudoTopSort_final nodes es rs :
  exists final,
    Inv es rs final /\ roots final = []
    /\ sortResult final = pseudoTopSort nodes es rs.
Proof.
  pose proof (pseudoTopSort_opt_total nodes es rs) as H.
  unfold pseudoTopSort_opt in H.
  eapply loop_Inv; [apply Inv_initial | exact H].
Qed.

Lemma pseudoTopSort_reachable nodes es rs n :
  In n (pseudoTopSort nodes es rs) <-> reachable es rs n.
Proof.
  destruct (pseudoTopSort_final nodes es rs) as (final & HI & Hr & Hs).
  assert (Hseen : seen final = pseudoTopSort nodes es rs).
  { unfold seen. rewrite Hr, Hs. apply app_nil_r. }
  split.
  - intros Hn. apply (inv_reach HI). now rewrite Hseen.
  - intros Hn. induction Hn as [r Hr0|p c _ IH He].
    + rewrite <- Hseen. now apply (inv_roots HI).
    + rewrite <- Hs in IH.
      destruct (inv_after HI _ _ IH He) as (l1 & l2 & l3 & Heq & _).
      rewrite <- Hseen, Heq. apply in_or_app. right. right.
      apply in_or_app. right. now left.
Qed.

Lemma pseudoTopSort_after nodes es rs p c :
  reachable es rs p -> edge es p c ->
  occursAfter (pseudoTopSort nodes es rs) p c.
Proof.
  intros Hp He. apply (pseudoTopSort_reachable nodes) in Hp.
  destruct (pseudoTopSort_final nodes es rs) as (final & HI & Hr & Hs).
  assert (Hseen : seen final = pseudoTopSort nodes es rs).
  { unfold seen. rewrite Hr, Hs. apply app_nil_r. }
  rewrite <- Hseen. apply (inv_after HI); [now rewrite Hs | exact He].
Qed.

Lemma pseudoTopSort_once nodes es rs p c :
  singleParent es -> reachable es rs p -> edge es p c -> ~ In c rs ->
  count_occ string_dec (pseudoTopSort nodes es rs) c = 1.
Proof.
  intros Hsp Hp He Hc. apply (pseudoTopSort_reachable nodes) in Hp.
  destruct (pseudoTopSort_final nodes es rs) as (final & HI & Hr & Hs).
  assert (Hseen : seen final = pseudoTopSort nodes es rs).
  { unfold seen. rewrite Hr, Hs. apply app_nil_r. }
  rewrite <- Hseen. apply (inv_once HI Hsp c Hc).
  exists p. split; [now rewrite Hs | exact He].
Qed.

End TopSortResults.

(** C9: on the nodes [A], [B], [C] with edges from [A] to [B] and [C]
    and the root [A], [pseudoTopSort] returns three nodes, [A] first and
    [B] and [C] after it, whichever of the two the edge object
    enumerates first.  In general, when no node has two incoming edges,
    the sort terminates, its output is made of the nodes reachable from
    the roots, and the end node of every edge leaving a reachable node
    occurs after that node, exactly once if it is not itself a root. *)
Theorem pseudoTopSort_children_after_parent :
  (let sorted := TopSort.pseudoTopSort ["A"; "B"; "C"] [("A", ["B"; "C"])] ["A"] in
   List.length sorted = 3 /\ List.hd_error sorted = Some "A"
   /\ TopSort.occursAfter sorted "A" "B" /\ TopSort.occursAfter sorted "A" "C")
  /\ (let sorted := TopSort.pseudoTopSort ["A"; "B"; "C"] [("A", ["C"; "B"])] ["A"] in
      List.length sorted = 3 /\ List.hd_error sorted = Some "A"
      /\ TopSort.occursAfter sorted "A" "B" /\ TopSort.occursAfter sorted "A" "C")
  /\ forall nodes edges roots,
      TopSort.singleParent edges ->
      TopSort.pseudoTopSort_opt nodes edges roots
      = Some (TopSort.pseudoTopSort nodes edges roots)
      /\ (forall n, In n (TopSort.pseudoTopSort nodes edges roots)
                    <-> TopSort.reachable edges roots n)
      /\ forall p c,
          TopSort.reachable edges roots p -> TopSort.edge edges p c ->
          TopSort.occursAfter (TopSort.pseudoTopSort nodes edges roots) p c
          /\ (~ In c roots ->
              count_occ string_dec (TopSort.pseudoTopSort nodes edges roots) c = 1).
Proof.
  split; [|split].
  - vm_compute. repeat split.
    + exists [], [], ["C"]. split; [reflexivity | intros []].
    + exists [], ["B"], []. split; [reflexivity | intros []].
  - vm_compute. repeat split.
    + exists [], ["C"], []. split; [reflexivity | intros []].
    + exists [], [], ["B"]. split; [reflexivity | intros []].
  - intros nodes es rs Hsp. split; [apply pseudoTopSort_opt_total|].
    split; [intros n; apply pseudoTopSort_reachable|].
    intros p c Hp He. split.
    + now apply pseudoTopSort_after.
    + intros Hc. now apply pseudoTopSort_once with (p := p).
Qed.

Lemma singleParent_sample : TopSort.singleParent [("A", ["B"; "C"])].
Proof.
  assert (Hch : forall p c, TopSort.edge [("A", ["B"; "C"])] p c -> p = "A").
  { intros p c. unfold TopSort.edge, TopSort.children. simpl.
    destruct (String.eqb_spec p "A"); [auto | intros []]. }
  split.
  - intros p1 p2 c H1 H2. apply Hch in H1, H2. congruence.
  - intros p. unfold TopSort.children. simpl.
    destruct (String.eqb p "A").
    + repeat constructor; simpl; intuition discriminate.
    + constructor.
Qed.

Lemma pseudoTopSort_children_after_parent_witness :
  TopSort.singleParent [("A", ["B"; "C"])]
  /\ TopSort.occursAfter
       (TopSort.pseudoTopSort ["A"; "B"; "C"] [("A", ["B"; "C"])] ["A"]) "A" "C"
  /\ count_occ string_dec
       (TopSort.pseudoTopSort ["A"; "B"; "C"] [("A", ["B"; "C"])] ["A"]) "C" = 1.
Proof.
  split; [exact singleParent_sample|].
  destruct (proj2 (proj2 pseudoTopSort_children_after_parent)
              ["A"; "B"; "C"] [("A", ["B"; "C"])] ["A"] singleParent_sample)
    as (_ & _ & H).
  destruct (H "A" "C") as [Hafter Honce].
  - apply TopSort.reach_root. now left.
  - unfold TopSort.edge. simpl. right. now left.
  - split; [exact Hafter|]. apply Honce.
    simpl. intros [H0|[]]. discriminate.
Defined.

(** *** Friendly names *)

Section FriendlyNameFacts.
Import FriendlyName.

Lemma capitalRun_length s m rest :
  capitalRun s = Some (m, rest) -> String.length rest <= String.length s.
Proof.
  revert m rest. induction s as [|c s IH]; simpl; intros m rest.
  - intros [= <- <-]. simpl. lia.
  - destruct (Str.isUpper c); [|discriminate].
    destruct (capitalRun s) as [[m' rest']|].
    + intros [= <- <-]. specialize (IH _ _ eq_refl). lia.
    + intros [= <- <-]. simpl. lia.
Qed.

Lemma nonCapitalRun_length s :
  String.length (snd (nonCapitalRun s)) <= String.length s.
Proof.
  induction s as [|c s IH]; simpl; [lia|].
  destruct (Str.isUpper c); simpl; [lia|].
  destruct (nonCapitalRun s); simpl in *. lia.
Qed.

Lemma wordAt_length s w rest :
  wordAt s = Some (w, rest) -> String.length rest < String.length s.
Proof.
  destruct s as [|c s]; simpl; [discriminate|].
  destruct (Str.isUpper c); [|discriminate].
  destruct (capitalRun s) as [[m r]|] eqn:Hc.
  - intros [= <- <-]. apply capitalRun_length in Hc. lia.
  - pose proof (nonCapitalRun_length s) as Hn.
    destruct (nonCapitalRun s). intros [= <- <-]. simpl in Hn. lia.
Qed.

(** The bound on the number of iterations is never hit: more fuel than
    the length of the string gives the same words. *)
Lemma wordsFrom_fuel_enough fuel : forall fuel' s,
  String.length s <= fuel -> String.length s <= fuel' ->
  wordsFrom fuel s = wordsFrom fuel' s.
Proof.
  induction fuel as [|fuel IH]; intros fuel' s H H'.
  - destruct s; [|simpl in H; lia]. destruct fuel'; reflexivity.
  - destruct fuel' as [|fuel'].
    + destruct s; [reflexivity | simpl in H'; lia].
    + simpl. destruct s as [|c s]; [reflexivity|].
      destruct (wordAt (String c s)) as [[w rest]|] eqn:Hw.
      * apply wordAt_length in Hw. f_equal. simpl in *. apply IH; lia.
      * simpl in *. apply IH; lia.
Qed.

End FriendlyNameFacts.

(** C8: [toFriendlyName "inMLBTeam"] is ["In MLB Team"] (the run of
    capitals [MLB] stays one word) and [toFriendlyName "created.at"] is
    ["Created At"] (the segments are capitalised, concatenated and cut
    into words again). *)
Theorem toFriendlyName_examples :
  FriendlyName.toFriendlyName "inMLBTeam" = "In MLB Team"
  /\ FriendlyName.toFriendlyName "created.at" = "Created At"
  /\ FriendlyName.words "InMLBTeam" = ["In"; "MLB"; "Team"]
  /\ FriendlyName.words "CreatedAt" = ["Created"; "At"].
Proof. repeat split; vm_compute; reflexivity. Qed.

(** *** Property access and [deleteNested] *)

Section ValueFacts.
Import JS.

Lemma arrayIndex_spec len k i :
  arrayIndex len k = Some i -> i < len /\ k = indexString i.
Proof.
  unfold arrayIndex. intros H. apply find_some in H. destruct H as [Hin Heq].
  apply in_seq in Hin. apply String.eqb_eq in Heq. split; [lia | exact Heq].
Qed.

Lemma arrayIndex_inj len len' k k' i :
  arrayIndex len k = Some i -> arrayIndex len' k' = Some i -> k = k'.
Proof.
  intros H H'. apply arrayIndex_spec in H, H'.
  destruct H as [_ ->], H' as [_ ->]. reflexivity.
Qed.

Lemma length_setNth (A : Type) i (x : A) l :
  List.length (setNth i x l) = List.length l.
Proof.
  revert i. induction l as [|y l IH]; intros [|i]; simpl; auto.
Qed.

Lemma nth_error_setNth_same (A : Type) i (x : A) l :
  i < List.length l -> nth_error (setNth i x l) i = Some x.
Proof.
  revert i. induction l as [|y l IH]; intros [|i]; simpl; intros H;
    try lia; auto. apply IH. lia.
Qed.

Lemma nth_error_setNth_other (A : Type) i j (x : A) l :
  i <> j -> nth_error (setNth i x l) j = nth_error l j.
Proof.
  revert i j. induction l as [|y l IH]; intros [|i] [|j] H; simpl; auto.
  - contradiction.
Qed.

Lemma getProp_primitive v k w :
  isContainer v = false -> getProp v k = Some w -> isContainer w = false.
Proof.
  destruct v; simpl; try discriminate; intros _.
  - intros [= <-]. reflexivity.
  - intros [= <-]. reflexivity.
  - destruct (arrayIndex (String.length s) k).
    + destruct (charAt s n); intros [= <-]; reflexivity.
    + destruct (String.eqb k "length"); intros [= <-]; reflexivity.
Qed.

Lemma reduceGetProp_primitive parts : forall v w,
  isContainer v = false -> reduceGetProp parts v = Some w ->
  isContainer w = false.
Proof.
  induction parts as [|k rest IH]; simpl; intros v w Hv.
  - intros [= <-]. exact Hv.
  - destruct (getProp v k) as [u|] eqn:G; [|discriminate].
    apply IH. eapply getProp_primitive; eauto.
Qed.

(** A property read that gives a container reads an own property of a
    container. *)
Lemma getProp_container v k w :
  getProp v k = Some w -> isContainer w = true ->
  (exists props, v = VObj props /\ Obj.lookup k props = Some w)
  \/ (exists items i, v = VArr items
        /\ arrayIndex (List.length items) k = Some i
        /\ nth_error items i = Some (Some w)).
Proof.
  intros G Hw. destruct v; simpl in G.
  - discriminate.
  - discriminate.
  - injection G as <-. discriminate.
  - injection G as <-. discriminate.
  - assert (isContainer w = false)
      by (eapply (@getProp_primitive (VStr s)); [reflexivity | exact G]).
    congruence.
  - right. destruct (arrayIndex (List.length items) k) as [i|] eqn:Hi.
    + destruct (nth_error items i) as [[u|]|] eqn:Hn;
        injection G as <-; try discriminate. eauto.
    + destruct (String.eqb k "length"); injection G as <-; discriminate.
  - left. destruct (Obj.lookup k props) as [u|] eqn:L;
      injection G as <-; try discriminate. eauto.
Qed.

Lemma reduceGetProp_assignAt parts : forall object c c',
  reduceGetProp parts object = Some c -> isContainer c = true ->
  reduceGetProp parts (assignAt parts object c') = Some c'.
Proof.
  induction parts as [|k rest IH]; simpl; intros object c c' H Hc.
  - reflexivity.
  - destruct (getProp object k) as [child|] eqn:G; [|discriminate].
    assert (Hchild : isContainer child = true).
    { destruct (isContainer child) eqn:E; [reflexivity|].
      rewrite (@reduceGetProp_primitive rest child c E H) in Hc. discriminate. }
    destruct (getProp_container _ _ G Hchild)
      as [(props & -> & L)|(items & i & -> & Hi & Hn)].
    + rewrite L. simpl. rewrite lookup_set_same. eapply IH; eauto.
    + rewrite Hi, Hn. simpl. rewrite length_setNth, Hi.
      rewrite nth_error_setNth_same by (apply arrayIndex_spec in Hi; tauto).
      eapply IH; eauto.
Qed.

Lemma has_remove_same (A : Type) k (props : list (string * A)) :
  Obj.has k (Obj.remove k props) = false.
Proof. unfold Obj.has. now rewrite lookup_remove_same. Qed.

End ValueFacts.

Section DeleteNestedFacts.
Import JS Misc.

Lemma canDelete_spec container lastPart :
  canDelete container lastPart <->
  hasOwnProperty container lastPart = Some true
  /\ exists container', deleteProp container lastPart = Some container'.
Proof.
  split.
  - intros [(props & -> & Hk & Hh)|(items & i & v & -> & Hi & Hn)]; simpl.
    + rewrite Hh, Hk. eauto.
    + rewrite Hi, Hn. eauto.
  - intros [Hown [c' Hdel]]. destruct container; simpl in *; try discriminate.
    + destruct (arrayIndex (String.length s) lastPart);
        [discriminate|]. destruct (String.eqb lastPart "length"); discriminate.
    + right. destruct (arrayIndex (List.length items) lastPart) as [i|] eqn:Hi.
      * destruct (nth_error items i) as [[v|]|] eqn:Hn; try discriminate.
        eauto 6.
      * destruct (String.eqb lastPart "length"); discriminate.
    + left. destruct (Obj.has "hasOwnProperty" props) eqn:Hh; [discriminate|].
      injection Hown as Hown. eauto.
Qed.

Lemma ownProperty_deleteProp container lastPart container' :
  canDelete container lastPart ->
  deleteProp container lastPart = Some container' ->
  ownProperty container' lastPart = false /\ isContainer container = true.
Proof.
  intros [(props & -> & Hk & Hh)|(items & i & v & -> & Hi & Hn)]; simpl.
  - intros [= <-]. simpl. split; [apply has_remove_same | reflexivity].
  - rewrite Hi. intros [= <-]. simpl. rewrite length_setNth, Hi.
    rewrite nth_error_setNth_same by (apply arrayIndex_spec in Hi; tauto).
    split; reflexivity.
Qed.


(** The three ways [deleteNested] can end. *)
Lemma deleteNested_true_iff_parts : forall path object,
  let pathParts := Str.split "." path in
  let lastPart := List.last pathParts "" in
  let containingParts := List.removelast pathParts in
  (fst (deleteNested path object) = true <->
     exists container,
       reduceGetProp containingParts object = Some container
       /\ canDelete container lastPart)
  /\ (fst (deleteNested path object) = true ->
      exists container container',
        reduceGetProp containingParts object = Some container
        /\ deleteProp container lastPart = Some container'
        /\ snd (deleteNested path object)
           = assignAt containingParts object container'
        /\ reduceGetProp containingParts (snd (deleteNested path object))
           = Some container'
        /\ ownProperty container' lastPart = false)
  /\ (fst (deleteNested path object) = false ->
      snd (deleteNested path object) = object).
Proof.
  intros path object pathParts lastPart containingParts.
  unfold deleteNested.
  fold pathParts. fold lastPart. fold containingParts.
  destruct (reduceGetProp containingParts object) as [container|] eqn:Hnav.
  - destruct (hasOwnProperty container lastPart) as [[|]|] eqn:Hown.
    + destruct (deleteProp container lastPart) as [container'|] eqn:Hdel.
      * assert (Hcan : canDelete container lastPart)
          by (apply canDelete_spec; eauto).
        destruct (ownProperty_deleteProp Hcan Hdel) as [Hgone Hcont].
        simpl. split; [split; eauto|]. split; [|discriminate].
        intros _. exists container, container'.
        repeat split; auto. eapply reduceGetProp_assignAt; eauto.
      * simpl. split; [|split; [discriminate | reflexivity]].
        split; [discriminate|]. intros (c & [= <-] & Hcan).
        apply canDelete_spec in Hcan. destruct Hcan as [_ [c' Hc']].
        congruence.
    + simpl. split; [|split; [discriminate | reflexivity]].
      split; [discriminate|]. intros (c & [= <-] & Hcan).
      apply canDelete_spec in Hcan. destruct Hcan as [Hc _]. congruence.
    + simpl. split; [|split; [discriminate | reflexivity]].
      split; [discriminate|]. intros (c & [= <-] & Hcan).
      apply canDelete_spec in Hcan. destruct Hcan as [Hc _]. congruence.
  - simpl. split; [|split; [discriminate | reflexivity]].
    split; [discriminate|]. intros (c & [=] & _).
Qed.

End DeleteNestedFacts.

(* ----------------------------------------------------------------- *)
(** *** [deleteNested] on the objects of a heap *)

Section HeapFacts.
Import Heap.

Variable rl : realm.

Lemma removeProperty_same H l k o :
  H l = Some o ->
  removeProperty H l k l
  = Some (mkObject (o_exotic o) (o_call o) (o_chain o)
            (Obj.remove k (o_props o))).
Proof. intros Hl. unfold removeProperty. now rewrite Nat.eqb_refl, Hl. Qed.

Lemma removeProperty_other H l k l' :
  l' <> l -> removeProperty H l k l' = H l'.
Proof.
  intros Hne. unfold removeProperty.
  destruct (Nat.eqb_spec l' l); [contradiction | reflexivity].
Qed.

Lemma removeProperty_absent H l k l' :
  H l' = None -> removeProperty H l k l' = None.
Proof.
  intros Hl. unfold removeProperty.
  destruct (Nat.eqb_spec l' l) as [->|]; [now rewrite Hl | exact Hl].
Qed.

(** What is left of an object when the property [k] of the object at
    [l] is removed. *)
Lemma removeProperty_object H l k l' o :
  H l' = Some o ->
  exists o',
    removeProperty H l k l' = Some o'
    /\ o_exotic o' = o_exotic o /\ o_call o' = o_call o
    /\ o_chain o' = o_chain o
    /\ forall k',
         Obj.lookup k' (o_props o')
         = if Nat.eqb l' l && String.eqb k' k then None
           else Obj.lookup k' (o_props o).
Proof.
  intros Hl. destruct (Nat.eqb_spec l' l) as [->|Hne].
  - rewrite (@removeProperty_same H l k o Hl). eexists. split; [reflexivity|].
    cbn [o_exotic o_call o_chain o_props]. repeat split. intros k'.
    destruct (String.eqb_spec k' k) as [->|Hk]; simpl.
    + apply lookup_remove_same.
    + now apply lookup_remove_other.
  - rewrite (@removeProperty_other H l k l' Hne). exists o. repeat split; auto.
Qed.

Lemma findInChain_removeProperty H l k chain k' :
  k' <> k ->
  findInChain (removeProperty H l k) chain k' = findInChain H chain k'.
Proof.
  intros Hne. induction chain as [|l' rest IH]; simpl; [reflexivity|].
  destruct (H l') as [o|] eqn:Hl.
  - destruct (@removeProperty_object H l k l' o Hl) as (o' & -> & He & _ & _ & Hp).
    rewrite He, Hp.
    destruct (String.eqb_spec k' k); [contradiction|].
    rewrite andb_false_r. now rewrite IH.
  - now rewrite (@removeProperty_absent H l k l' Hl).
Qed.

Lemma get_removeProperty H l k v k' :
  k' <> k -> get rl (removeProperty H l k) v k' = get rl H v k'.
Proof.
  intros Hne. destruct v as [| | | |units|l']; cbn [get]; try reflexivity;
    try (now apply findInChain_removeProperty).
  - destruct (stringOwn units k'); [reflexivity|].
    now apply findInChain_removeProperty.
  - destruct (H l') as [o|] eqn:Hl.
    + destruct (@removeProperty_object H l k l' o Hl) as (o' & -> & _ & _ & -> & _).
      now apply findInChain_removeProperty.
    + now rewrite (@removeProperty_absent H l k l' Hl).
Qed.

Lemma reduceGet_removeProperty H l k parts : forall v,
  ~ In k parts ->
  reduceGet rl (removeProperty H l k) parts v = reduceGet rl H parts v.
Proof.
  induction parts as [|part rest IH]; intros v Hnot; simpl; [reflexivity|].
  rewrite get_removeProperty by (intros ->; apply Hnot; now left).
  destruct (get rl H v part); try reflexivity.
  apply IH. intros Hin. apply Hnot. now right.
Qed.

Lemma reduceGet_app H a : forall b v,
  reduceGet rl H (a ++ b) v
  = match reduceGet rl H a v with
    | Got c => reduceGet rl H b c
    | Threw => Threw
    | Unmodelled => Unmodelled
    end.
Proof.
  induction a as [|k a IH]; simpl; intros b v; [reflexivity|].
  destruct (get rl H v k); [apply IH | reflexivity | reflexivity].
Qed.

(** The own properties after the removal: the removed one is gone, the
    others are as before. *)
Lemma getOwnProperty_removeProperty H l k o l' k' :
  H l = Some o -> o_exotic o = false ->
  getOwnProperty (removeProperty H l k) (HRef l') k'
  = if Nat.eqb l' l && String.eqb k' k then NotOwn
    else getOwnProperty H (HRef l') k'.
Proof.
  intros Hl He. simpl.
  destruct (H l') as [o1|] eqn:Hl'.
  - destruct (@removeProperty_object H l k l' o1 Hl') as (o' & -> & He' & _ & _ & Hp).
    rewrite He', Hp.
    destruct (Nat.eqb_spec l' l) as [->|Hne]; simpl.
    + rewrite Hl in Hl'. injection Hl' as <-. rewrite He.
      destruct (String.eqb k' k); reflexivity.
    + reflexivity.
  - rewrite (@removeProperty_absent H l k l' Hl').
    destruct (Nat.eqb_spec l' l) as [->|Hne]; [congruence | reflexivity].
Qed.

(** When the call of the method answers [true]. *)
Lemma callHasOwnProperty_true H container k :
  callHasOwnProperty rl H container k = Answer true <->
  exists m f p,
    get rl H container "hasOwnProperty" = Got (HRef m)
    /\ H m = Some f /\ o_call f = HasOwnPropertyMethod
    /\ getOwnProperty H container k = OwnProperty p.
Proof.
  unfold callHasOwnProperty. split.
  - destruct (get rl H container "hasOwnProperty") as [[| | | | |m]| |];
      try discriminate.
    destruct (H m) as [f|] eqn:Hm; [|discriminate].
    destruct (o_call f) eqn:Hc; try discriminate.
    destruct (getOwnProperty H container k) as [p| |] eqn:Ho;
      try discriminate.
    intros _. exists m, f, p. auto.
  - intros (m & f & p & -> & -> & -> & ->). reflexivity.
Qed.

(** When the [try] block deletes: the container is an object, not
    exotic, whose own property is configurable, and the method it
    inherits or owns is the built-in one. *)
Lemma attempt_Deleted H path object H' :
  attempt rl H path object = Deleted H' <->
  exists l o p m f,
    reduceGet rl H (List.removelast (Str.split "." path)) object
    = Got (HRef l)
    /\ H l = Some o /\ o_exotic o = false
    /\ Obj.lookup (List.last (Str.split "." path) "") (o_props o) = Some p
    /\ isConfigurable p = true
    /\ get rl H (HRef l) "hasOwnProperty" = Got (HRef m)
    /\ H m = Some f /\ o_call f = HasOwnPropertyMethod
    /\ H' = removeProperty H l (List.last (Str.split "." path) "").
Proof.
  unfold attempt.
  set (lastPart := List.last (Str.split "." path) "").
  set (containingParts := List.removelast (Str.split "." path)).
  split.
  - destruct (reduceGet rl H containingParts object) as [container| |];
      try discriminate.
    destruct (callHasOwnProperty rl H container lastPart) as [[|]| |] eqn:Hc;
      try discriminate.
    apply callHasOwnProperty_true in Hc.
    destruct Hc as (m & f & p & Hget & Hm & Hf & Hown).
    destruct container as [| | | |units|l]; simpl in Hown; try discriminate.
    + unfold deleteProperty.
      destruct (stringOwn units lastPart); discriminate.
    + unfold deleteProperty. simpl.
      destruct (H l) as [o|] eqn:Hl; [|discriminate].
      destruct (o_exotic o) eqn:He; [discriminate|].
      destruct (Obj.lookup lastPart (o_props o)) as [p'|] eqn:Hp;
        [|discriminate].
      injection Hown as ->.
      destruct (isConfigurable p) eqn:Hconf; [|discriminate].
      intros [= <-]. exists l, o, p, m, f. repeat split; auto.
  - intros (l & o & p & m & f & -> & Hl & He & Hp & Hconf & Hget & Hm & Hf
            & ->).
    assert (Hown : getOwnProperty H (HRef l) lastPart = OwnProperty p)
      by (simpl; now rewrite Hl, He, Hp).
    rewrite (proj2 (callHasOwnProperty_true H (HRef l) lastPart))
      by (exists m, f, p; auto).
    unfold deleteProperty. now rewrite Hown, Hconf.
Qed.

Lemma deleteNested_Returned_true H path object H' :
  Misc.deleteNested rl H path object = Returned true H' <->
  attempt rl H path object = Deleted H'.
Proof.
  unfold Misc.deleteNested.
  destruct (attempt rl H path object); split; try discriminate; congruence.
Qed.

Lemma deleteNested_Returned_false H path object H' :
  Misc.deleteNested rl H path object = Returned false H' ->
  H' = H /\ attempt rl H path object = Failed.
Proof.
  unfold Misc.deleteNested.
  destruct (attempt rl H path object); try discriminate.
  intros [= <-]. auto.
Qed.

(** A second run cannot delete: the container has lost the property. *)
Lemma attempt_after_removal H path object l o :
  ~ In (List.last (Str.split "." path) "")
       (List.removelast (Str.split "." path)) ->
  reduceGet rl H (List.removelast (Str.split "." path)) object
  = Got (HRef l) ->
  H l = Some o -> o_exotic o = false ->
  (forall H'',
      attempt rl (removeProperty H l (List.last (Str.split "." path) ""))
        path object <> Deleted H'')
  /\ (forall m f,
        List.last (Str.split "." path) "" <> "hasOwnProperty" ->
        get rl H (HRef l) "hasOwnProperty" = Got (HRef m) ->
        H m = Some f -> o_call f = HasOwnPropertyMethod ->
        attempt rl (removeProperty H l (List.last (Str.split "." path) ""))
          path object = Failed).
Proof.
  set (lastPart := List.last (Str.split "." path) "").
  set (containingParts := List.removelast (Str.split "." path)).
  intros Hnot Hnav Hl He.
  assert (Hown : getOwnProperty (removeProperty H l lastPart) (HRef l) lastPart
                 = NotOwn).
  { rewrite (@getOwnProperty_removeProperty H l lastPart o l lastPart Hl He).
    now rewrite Nat.eqb_refl, String.eqb_refl. }
  split.
  - intros H'' Hdel. apply attempt_Deleted in Hdel.
    destruct Hdel as (l' & o' & p & m & f & Hnav' & Hl' & He' & Hp & _).
    fold lastPart in Hp. fold containingParts in Hnav'.
    rewrite reduceGet_removeProperty in Hnav' by exact Hnot.
    fold containingParts in Hnav. rewrite Hnav in Hnav'.
    injection Hnav' as <-.
    simpl in Hown. rewrite Hl', He', Hp in Hown. discriminate.
  - intros m f Hlast Hget Hm Hf. unfold attempt.
    fold lastPart. fold containingParts.
    rewrite reduceGet_removeProperty by exact Hnot.
    fold containingParts in Hnav. rewrite Hnav.
    unfold callHasOwnProperty.
    rewrite get_removeProperty by (intros E; apply Hlast; now rewrite E).
    rewrite Hget.
    destruct (@removeProperty_object H l lastPart m f Hm)
      as (f' & -> & _ & -> & _ & _).
    now rewrite Hf, Hown.
Qed.

End HeapFacts.




(** *** The adapter *)

Section AdapterFacts.
Import MongooseAdapter.


Lemma getIdQueryType_array ids :
  getIdQueryType (IdArray ids)
  = if every (fun id => idIsValid (VStr id)) ids
    then inr (FindMode, QIn ids) else inl (EApi invalidIdError).
Proof.
  unfold getIdQueryType, idQueryParts.
  destruct (every (fun id => idIsValid (VStr id)) ids); reflexivity.
Qed.

Lemma getIdQueryType_string id :
  id <> "" ->
  getIdQueryType (IdString id)
  = if idIsValid (VStr id)
    then inr (FindOneMode, QId id) else inl (EApi noMatchInvalidIdError).
Proof.
  intros Hne. unfold getIdQueryType, idQueryParts.
  destruct (String.eqb_spec id ""); [contradiction|].
  unfold every, negb, forallb.
  destruct (idIsValid (VStr id)); reflexivity.
Qed.

Lemma getIdQueryType_falsy idOrIds :
  idFalsy idOrIds = true -> getIdQueryType idOrIds = inr (FindMode, QAll).
Proof.
  destruct idOrIds as [|id|ids]; simpl; try discriminate; [reflexivity|].
  intros H. unfold getIdQueryType, idQueryParts. now rewrite H.
Qed.

Variable pluralize_singular : string -> string.
Variable pluralize_plural : string -> string.
Variable errorHandler : error -> error.
Variable toMongoCriteria : list value -> value.

Lemma find_invalid_id adapter query e :
  getIdQueryType (fq_idOrIds query) = inl e ->
  (exists e',
      find pluralize_singular pluralize_plural errorHandler toMongoCriteria
        adapter query = ([], inl e'))
  /\ (forall model,
        getModel adapter (getModelName (fq_type query) pluralize_singular)
        = inr model ->
        find pluralize_singular pluralize_plural errorHandler toMongoCriteria
          adapter query = ([], inl e)).
Proof.
  intros H. unfold find. rewrite H.
  destruct (getModel adapter _) as [e'|m]; split; eauto; intros model [=];
    reflexivity.
Qed.

End AdapterFacts.

(** C2, as the code has it: an array of ids with an element that is not
    a 24-character hexadecimal string fails with the [APIError] 400
    [Invalid ID.]; a single non-empty id that is not such a string fails
    with the [APIError] 404 [No matching resource found.]; the empty
    string is taken for no id filter and is not rejected.  [find] on a
    registered type fails with these errors before any store call. *)
Theorem find_id_validation :
  forall pluralize_singular pluralize_plural errorHandler toMongoCriteria
         adapter query model,
    MongooseAdapter.getModel adapter
      (MongooseAdapter.getModelName (fq_type query) pluralize_singular)
    = inr model ->
    (forall ids,
        fq_idOrIds query = IdArray ids ->
        MongooseAdapter.every
          (fun id => MongooseAdapter.idIsValid (VStr id)) ids = false ->
        MongooseAdapter.getIdQueryType (IdArray ids)
        = inl (EApi MongooseAdapter.invalidIdError)
        /\ MongooseAdapter.find pluralize_singular pluralize_plural
             errorHandler toMongoCriteria adapter query
           = ([], inl (EApi MongooseAdapter.invalidIdError)))
    /\ (forall id,
           fq_idOrIds query = IdString id ->
           id <> "" ->
           MongooseAdapter.idIsValid (VStr id) = false ->
           MongooseAdapter.getIdQueryType (IdString id)
           = inl (EApi MongooseAdapter.noMatchInvalidIdError)
           /\ MongooseAdapter.find pluralize_singular pluralize_plural
                errorHandler toMongoCriteria adapter query
              = ([], inl (EApi MongooseAdapter.noMatchInvalidIdError)))
    /\ MongooseAdapter.getIdQueryType (IdString "")
       = inr (FindMode, QAll)
    /\ status MongooseAdapter.invalidIdError = 400%Z
    /\ title MongooseAdapter.invalidIdError = "Invalid ID."
    /\ status MongooseAdapter.noMatchInvalidIdError = 404%Z
    /\ title MongooseAdapter.noMatchInvalidIdError
       = "No matching resource found.".
Proof.
  intros ps pp eh tmc adapter query model Hm.
  split; [|split; [|repeat split]].
  - intros ids Hq Hbad.
    assert (He : MongooseAdapter.getIdQueryType (IdArray ids)
                 = inl (EApi MongooseAdapter.invalidIdError)).
    { rewrite getIdQueryType_array, Hbad. reflexivity. }
    split; [exact He|]. rewrite <- Hq in He.
    exact (proj2 (find_invalid_id ps pp eh tmc adapter query He) model Hm).
  - intros id Hq Hne Hbad.
    assert (He : MongooseAdapter.getIdQueryType (IdString id)
                 = inl (EApi MongooseAdapter.noMatchInvalidIdError)).
    { rewrite getIdQueryType_string by exact Hne. rewrite Hbad. reflexivity. }
    split; [exact He|]. rewrite <- Hq in He.
    exact (proj2 (find_invalid_id ps pp eh tmc adapter query He) model Hm).
Qed.

Lemma find_id_validation_witness :
  MongooseAdapter.find Sample.singular Sample.plural Sample.passOn
    Sample.criteria (Sample.adapterOf [])
    (Sample.findById (IdArray [Sample.validId; "42"]))
  = ([], inl (EApi MongooseAdapter.invalidIdError))
  /\ MongooseAdapter.find Sample.singular Sample.plural Sample.passOn
       Sample.criteria (Sample.adapterOf []) (Sample.findById (IdString "42"))
     = ([], inl (EApi MongooseAdapter.noMatchInvalidIdError)).
Proof.
  split.
  - refine (proj2 (proj1 (find_id_validation Sample.singular Sample.plural
                     Sample.passOn Sample.criteria (Sample.adapterOf [])
                     (Sample.findById (IdArray [Sample.validId; "42"]))
                     (model := Sample.postStore []) _) _ _ _));
      reflexivity.
  - refine (proj2 (proj1 (proj2 (find_id_validation Sample.singular
                     Sample.plural Sample.passOn Sample.criteria
                     (Sample.adapterOf [])
                     (Sample.findById (IdString "42"))
                     (model := Sample.postStore []) _)) _ _ _ _));
      try reflexivity. discriminate.
Defined.

(** The statement of C2 fails on the empty string: it is a single id
    that is not a 24-character hexadecimal string, and it is not
    rejected but taken for no id filter. *)
Lemma empty_single_id_not_rejected :
  MongooseAdapter.idIsValid (VStr "") = false
  /\ MongooseAdapter.getIdQueryType (IdString "") = inr (FindMode, QAll)
  /\ ~ (forall id,
          MongooseAdapter.idIsValid (VStr id) = false ->
          exists e,
            MongooseAdapter.getIdQueryType (IdString id) = inl (EApi e)
            /\ status e = 404%Z).
Proof.
  repeat split. intros H. destruct (H "" eq_refl) as (e & He & _).
  discriminate He.
Qed.

Section FindFacts.
Import MongooseAdapter.

Lemma makeCollectionFor_spec idOrIds :
  makeCollectionFor idOrIds = true <->
  idOrIds = IdUndefined \/ idOrIds = IdString ""
  \/ exists ids, idOrIds = IdArray ids.
Proof.
  destruct idOrIds as [|id|ids]; unfold makeCollectionFor, idFalsy.
  - simpl. tauto.
  - rewrite orb_false_r. split.
    + intros H. apply String.eqb_eq in H. subst. tauto.
    + intros [H|[H|[ids H]]]; try discriminate.
      injection H as ->. reflexivity.
  - split; [eauto | reflexivity].
Qed.

Lemma getIdQueryType_mode idOrIds mode idQuery :
  getIdQueryType idOrIds = inr (mode, idQuery) ->
  mode = if makeCollectionFor idOrIds then FindMode else FindOneMode.
Proof.
  destruct idOrIds as [|id|ids].
  - intros [= <- _]. reflexivity.
  - destruct (String.eqb_spec id "") as [->|Hne].
    + intros [= <- _]. reflexivity.
    + rewrite getIdQueryType_string by exact Hne.
      unfold makeCollectionFor, idFalsy.
      destruct (String.eqb_spec id ""); [contradiction|].
      destruct (idIsValid (VStr id)); [|discriminate].
      intros [= <- _]. reflexivity.
  - rewrite getIdQueryType_array.
    destruct (every _ ids); [|discriminate]. intros [= <- _]. reflexivity.
Qed.

Variable pluralize_plural : string -> string.

Lemma docsToResourceOrCollection_shape docs makeCollection pluralizer fields primary :
  docsToResourceOrCollection pluralize_plural docs makeCollection pluralizer fields
  = inr primary ->
  if makeCollection then exists rs, primary = Collection rs
  else exists r, primary = OneResource r.
Proof.
  unfold docsToResourceOrCollection.
  destruct docs as [|d|ds]; [discriminate| |].
  - simpl. destruct (docToResource pluralize_plural d pluralizer fields);
      simpl; [discriminate|].
    intros [= <-]. destruct makeCollection; eauto.
  - destruct makeCollection; simpl.
    + destruct (mapM _ ds); simpl; [discriminate|]. intros [= <-]. eauto.
    + destruct ds as [|d ds]; [discriminate|]. simpl.
      destruct (entryToResource pluralize_plural pluralizer fields d);
        simpl; [discriminate|].
      destruct (mapM _ ds); simpl; [discriminate|]. intros [= <-]. eauto.
Qed.

Lemma in_calls_exec (b : bool) criteria query query' :
  In (CallExec query')
     ((if b then [CallCount criteria] else []) ++ [CallExec query]) ->
  query' = query.
Proof.
  intros H. apply in_app_or in H. destruct H as [H|[H|[]]].
  - destruct b; [destruct H as [H|[]]; discriminate | destruct H].
  - now injection H.
Qed.

Lemma not_in_calls_count (b : bool) criteria query :
  ~ In (CallExec query) (if b then [CallCount criteria] else []).
Proof. destruct b; simpl; [intros [H|[]]; discriminate | tauto]. Qed.

End FindFacts.

(** C3, as the code has it: the primary result of [find] is a
    [Collection] exactly when the id filter is absent, the empty string
    or an array ([makeCollection] is true), and a single [Resource]
    otherwise.  With a single non-empty id for which the store finds no
    document the operation fails with the [APIError] 404; with
    [makeCollection] true and no document found it returns an empty
    [Collection]. *)
Theorem find_result_shape :
  forall pluralize_singular pluralize_plural errorHandler toMongoCriteria
         adapter query model calls res,
    MongooseAdapter.getModel adapter
      (MongooseAdapter.getModelName (fq_type query) pluralize_singular)
    = inr model ->
    MongooseAdapter.find pluralize_singular pluralize_plural errorHandler
      toMongoCriteria adapter query = (calls, res) ->
    (forall primary included size,
        res = inr (primary, included, size) ->
        if MongooseAdapter.makeCollectionFor (fq_idOrIds query)
        then exists rs, primary = Collection rs
        else exists r, primary = OneResource r)
    /\ (MongooseAdapter.makeCollectionFor (fq_idOrIds query) = true <->
        fq_idOrIds query = IdUndefined \/ fq_idOrIds query = IdString ""
        \/ exists ids, fq_idOrIds query = IdArray ids)
    /\ (forall id queryBuilder,
           fq_idOrIds query = IdString id -> id <> "" ->
           In (CallExec queryBuilder) calls ->
           m_findOne model queryBuilder = None ->
           res = inl (errorHandler (EApi MongooseAdapter.noMatchError)))
    /\ (forall queryBuilder,
           MongooseAdapter.makeCollectionFor (fq_idOrIds query) = true ->
           In (CallExec queryBuilder) calls ->
           m_find model queryBuilder = [] ->
           exists included size, res = inr (Collection [], included, size))
    /\ status MongooseAdapter.noMatchError = 404%Z.
Proof.
  intros ps pp eh tmc adapter query model calls res Hm H.
  unfold MongooseAdapter.find in H. rewrite Hm in H.
  split; [|split; [apply makeCollectionFor_spec|]].
  - (* the shape of the primary result *)
    revert H.
    destruct (MongooseAdapter.getIdQueryType (fq_idOrIds query))
      as [e|[mode idQuery]] eqn:Hid.
    { intros [= <- <-] primary included size [=]. }
    destruct (fq_populates query) as [includePaths|].
    + destruct (MongooseAdapter.checkIncludes _ _ includePaths) as [e|paths].
      { intros [= <- <-] primary included size [=]. }
      intros [= <- <-] primary included size.
      destruct (MongooseAdapter.includedResources _ _ _ _ _) as [e|inc];
        simpl; [discriminate|].
      destruct (MongooseAdapter.docsToResourceOrCollection _ _ _ _ _)
        as [e|prim] eqn:Hd; simpl; [discriminate|].
      intros [= <- _ _].
      exact (docsToResourceOrCollection_shape _ _ _ _ _ Hd).
    + intros [= <- <-] primary included size.
      destruct (MongooseAdapter.docsToResourceOrCollection _ _ _ _ _)
        as [e|prim] eqn:Hd; simpl; [discriminate|].
      intros [= <- _ _].
      exact (docsToResourceOrCollection_shape _ _ _ _ _ Hd).
  - split; [|split; [|reflexivity]].
    + (* a single id that matches nothing *)
      intros id queryBuilder Hq Hne Hin Hnone. revert H Hin.
      destruct (MongooseAdapter.getIdQueryType (fq_idOrIds query))
        as [e|[mode idQuery]] eqn:Hid.
      { intros [= <- <-] []. }
      apply getIdQueryType_mode in Hid. rewrite Hq in Hid.
      unfold MongooseAdapter.makeCollectionFor, MongooseAdapter.idFalsy in Hid.
      destruct (String.eqb_spec id ""); [contradiction|].
      simpl in Hid. subst mode.
      destruct (fq_populates query) as [includePaths|].
      * destruct (MongooseAdapter.checkIncludes _ _ includePaths) as [e|paths].
        { intros [= <- <-] Hin. now apply not_in_calls_count in Hin. }
        intros [= <- <-] Hin. apply in_calls_exec in Hin. subst queryBuilder.
        unfold MongooseAdapter.exec. cbn [qb_mode]. rewrite Hnone.
        reflexivity.
      * intros [= <- <-] Hin. apply in_calls_exec in Hin. subst queryBuilder.
        unfold MongooseAdapter.exec. cbn [qb_mode]. rewrite Hnone.
        reflexivity.
    + (* a collection that matches nothing *)
      intros queryBuilder Hmk Hin Hnone. revert H Hin.
      destruct (MongooseAdapter.getIdQueryType (fq_idOrIds query))
        as [e|[mode idQuery]] eqn:Hid.
      { intros [= <- <-] []. }
      apply getIdQueryType_mode in Hid. rewrite Hmk in Hid. subst mode.
      destruct (fq_populates query) as [includePaths|].
      * destruct (MongooseAdapter.checkIncludes _ _ includePaths) as [e|paths].
        { intros [= <- <-] Hin. now apply not_in_calls_count in Hin. }
        intros [= <- <-] Hin. apply in_calls_exec in Hin. subst queryBuilder.
        unfold MongooseAdapter.exec. cbn [qb_mode]. rewrite Hnone, Hmk.
        simpl. eauto.
      * intros [= <- <-] Hin. apply in_calls_exec in Hin. subst queryBuilder.
        unfold MongooseAdapter.exec. cbn [qb_mode]. rewrite Hnone, Hmk.
        simpl. eauto.
Qed.

Lemma find_result_shape_witness :
  (exists included size,
      snd (MongooseAdapter.find Sample.singular Sample.plural Sample.passOn
             Sample.criteria (Sample.adapterOf [])
             (Sample.findById (IdArray [Sample.validId])))
      = inr (Collection [], included, size))
  /\ snd (MongooseAdapter.find Sample.singular Sample.plural Sample.passOn
            Sample.criteria (Sample.adapterOf [])
            (Sample.findById (IdString Sample.validId)))
     = inl (Sample.passOn (EApi MongooseAdapter.noMatchError)).
Proof.
  split.
  - pose proof (find_result_shape Sample.singular Sample.plural Sample.passOn
                  Sample.criteria (Sample.adapterOf [])
                  (Sample.findById (IdArray [Sample.validId]))
                  (model := Sample.postStore []) eq_refl
                  (surjective_pairing _)) as (_ & _ & _ & H & _).
    eapply H; [reflexivity | left; reflexivity | reflexivity].
  - pose proof (find_result_shape Sample.singular Sample.plural Sample.passOn
                  Sample.criteria (Sample.adapterOf [])
                  (Sample.findById (IdString Sample.validId))
                  (model := Sample.postStore []) eq_refl
                  (surjective_pairing _)) as (_ & _ & H & _).
    eapply H; [reflexivity | discriminate | left; reflexivity | reflexivity].
Defined.

(** The statement of C3 fails on the empty string: the id filter is a
    single id, neither absent nor an array, yet [find] treats it as no
    filter, and with no document in the store it returns an empty
    [Collection] instead of failing with a 404. *)
Lemma find_empty_string_id_gives_collection :
  fq_idOrIds (Sample.findById (IdString "")) = IdString ""
  /\ MongooseAdapter.makeCollectionFor (IdString "") = true
  /\ m_find (Sample.postStore [])
       (mkQuery FindMode QAll None None None None []) = []
  /\ MongooseAdapter.find Sample.singular Sample.plural Sample.passOn
       Sample.criteria (Sample.adapterOf []) (Sample.findById (IdString ""))
     = ([CallExec (mkQuery FindMode QAll None None None None [])],
        inr (Collection [], None, None)).
Proof.
  repeat split.
Qed.

Section DeleteFacts.
Import MongooseAdapter.

Lemma removeEach_present docs :
  removeEach (List.map Some docs) = (List.map CallRemove docs, inr tt).
Proof.
  induction docs as [|d docs IH]; simpl; [reflexivity|]. now rewrite IH.
Qed.

End DeleteFacts.

(** C5, as the code has it, for a delete on a registered type.  With no
    target id (the id is absent or the empty string) the operation is
    rejected with the [APIError] 400 and no store call is made.  With a
    single id for which the store finds no document it fails with the
    [APIError] 404; with one found, that document is removed and
    returned.  With an array of ids every document found is removed and
    the documents are returned, also when none is found. *)
Theorem delete_outcomes :
  forall pluralize_singular errorHandler adapter query model,
    MongooseAdapter.getModel adapter
      (MongooseAdapter.getModelName (dq_type query) pluralize_singular)
    = inr model ->
    (MongooseAdapter.idFalsy (dq_idOrIds query) = true ->
     MongooseAdapter.delete pluralize_singular errorHandler adapter query
     = ([], inl (EApi MongooseAdapter.noTargetError)))
    /\ (forall id,
           dq_idOrIds query = IdString id -> id <> "" ->
           MongooseAdapter.idIsValid (VStr id) = true ->
           let queryBuilder :=
             mkQuery FindOneMode (QId id) None None None None [] in
           MongooseAdapter.delete pluralize_singular errorHandler adapter query
           = match m_findOne model queryBuilder with
             | None =>
                 ([CallExec queryBuilder],
                  inl (errorHandler (EApi MongooseAdapter.noMatchError)))
             | Some d =>
                 ([CallExec queryBuilder; CallRemove d], inr (DOne d))
             end)
    /\ (forall ids,
           dq_idOrIds query = IdArray ids ->
           MongooseAdapter.every
             (fun id => MongooseAdapter.idIsValid (VStr id)) ids = true ->
           let queryBuilder :=
             mkQuery FindMode (QIn ids) None None None None [] in
           MongooseAdapter.delete pluralize_singular errorHandler adapter query
           = (CallExec queryBuilder
                :: List.map CallRemove (m_find model queryBuilder),
              inr (DMany (List.map Some (m_find model queryBuilder)))))
    /\ status MongooseAdapter.noTargetError = 400%Z
    /\ status MongooseAdapter.noMatchError = 404%Z.
Proof.
  intros ps eh adapter query model Hm.
  unfold MongooseAdapter.delete. rewrite Hm.
  split; [|split; [|split; [|split; reflexivity]]].
  - intros Hf. rewrite (getIdQueryType_falsy _ Hf), Hf. reflexivity.
  - intros id Hq Hne Hv. rewrite Hq.
    rewrite getIdQueryType_string by exact Hne. rewrite Hv.
    unfold MongooseAdapter.idFalsy.
    destruct (String.eqb_spec id ""); [contradiction|].
    unfold MongooseAdapter.exec. cbn [qb_mode].
    destruct (m_findOne model _) as [d|]; reflexivity.
  - intros ids Hq Hv. rewrite Hq, getIdQueryType_array, Hv.
    unfold MongooseAdapter.exec. cbn [qb_mode MongooseAdapter.idFalsy
      MongooseAdapter.arrayOrVal].
    rewrite removeEach_present. reflexivity.
Qed.

Lemma delete_outcomes_witness :
  MongooseAdapter.delete Sample.singular Sample.passOn
    (Sample.adapterOf [Sample.untaggedPost])
    (mkDeleteQuery "posts" (IdString Sample.validId))
  = ([CallExec (mkQuery FindOneMode (QId Sample.validId)
                  None None None None []);
      CallRemove Sample.untaggedPost],
     inr (DOne Sample.untaggedPost))
  /\ MongooseAdapter.delete Sample.singular Sample.passOn
       (Sample.adapterOf [Sample.untaggedPost])
       (mkDeleteQuery "posts" IdUndefined)
     = ([], inl (EApi MongooseAdapter.noTargetError)).
Proof.
  split.
  - refine (proj1 (proj2 (delete_outcomes Sample.singular Sample.passOn
              (Sample.adapterOf [Sample.untaggedPost])
              (mkDeleteQuery "posts" (IdString Sample.validId))
              (model := Sample.postStore [Sample.untaggedPost]) _))
              Sample.validId _ _ _); try reflexivity. discriminate.
  - refine (proj1 (delete_outcomes Sample.singular Sample.passOn
              (Sample.adapterOf [Sample.untaggedPost])
              (mkDeleteQuery "posts" IdUndefined)
              (model := Sample.postStore [Sample.untaggedPost]) _) _);
      reflexivity.
Defined.

(** The statement of C5 fails on an array of ids that matches no
    document: the query resolves to an empty array, which is not
    [null], and [delete] returns it instead of failing with a 404. *)
Lemma delete_array_without_match_succeeds :
  m_find (Sample.postStore [])
    (mkQuery FindMode (QIn [Sample.validId]) None None None None []) = []
  /\ MongooseAdapter.delete Sample.singular Sample.passOn
       (Sample.adapterOf [])
       (mkDeleteQuery "posts" (IdArray [Sample.validId]))
     = ([CallExec (mkQuery FindMode (QIn [Sample.validId])
                     None None None None [])],
        inr (DMany []))
  /\ ~ (exists e,
          snd (MongooseAdapter.delete Sample.singular Sample.passOn
                 (Sample.adapterOf [])
                 (mkDeleteQuery "posts" (IdArray [Sample.validId])))
          = inl e).
Proof.
  repeat split. intros [e H]. discriminate H.
Qed.

Section IncludeFacts.
Import MongooseAdapter.

Lemma split_nonempty sep s : Str.split sep s <> [].
Proof.
  destruct s as [|c s]; simpl; [discriminate|].
  destruct (Ascii.eqb c sep); [discriminate|].
  destruct (Str.split sep s); discriminate.
Qed.

Lemma split_single sep s :
  List.length (Str.split sep s) <= 1 -> Str.split sep s = [s].
Proof.
  induction s as [|c s IH]; simpl; [reflexivity|].
  destruct (Ascii.eqb c sep).
  - pose proof (split_nonempty sep s).
    destruct (Str.split sep s); [contradiction | simpl; lia].
  - destruct (Str.split sep s) as [|p ps] eqn:E.
    + now apply split_nonempty in E.
    + simpl. intros H. destruct ps; [|simpl in H; lia].
      specialize (IH (le_n _)). now injection IH as ->.
Qed.

Lemma checkInclude_inr type refPaths q first :
  checkInclude type refPaths q = inr first <->
  validInclude refPaths q /\ first = q.
Proof.
  unfold checkInclude, validInclude, declaredInclude, nestedInclude,
    includeFirst.
  destruct (arrayContains refPaths (List.hd "" (Str.split "." q))); simpl.
  - destruct (1 <? List.length (Str.split "." q))%nat eqn:L.
    + split; [discriminate | intros [[_ H] _]; discriminate].
    + apply Nat.ltb_ge in L. rewrite (split_single _ _ L). simpl.
      split; [intros [= <-]; auto | intros [_ ->]; reflexivity].
  - split; [discriminate | intros [[H _] _]; discriminate].
Qed.

Lemma checkInclude_inl type refPaths q :
  (declaredInclude refPaths q = false ->
   checkInclude type refPaths q
   = inl (EApi (invalidIncludeError type (includeFirst q))))
  /\ (declaredInclude refPaths q = true -> nestedInclude q = true ->
      checkInclude type refPaths q = inl (EApi multiLevelIncludeError)).
Proof.
  unfold checkInclude, declaredInclude, nestedInclude, includeFirst.
  split.
  - intros ->. reflexivity.
  - intros -> ->. reflexivity.
Qed.

Lemma checkIncludes_inr type refPaths paths : forall populated,
  checkIncludes type refPaths paths = inr populated <->
  (forall q, In q paths -> validInclude refPaths q) /\ populated = paths.
Proof.
  unfold checkIncludes.
  induction paths as [|q paths IH]; simpl; intros populated.
  - split; [intros [= <-]; split; [intros q []|reflexivity]
           | intros [_ ->]; reflexivity].
  - destruct (checkInclude type refPaths q) as [e|first] eqn:Hq; simpl.
    + split; [discriminate|]. intros [Hall _].
      assert (Hv : validInclude refPaths q) by (apply Hall; now left).
      assert (checkInclude type refPaths q = inr q)
        by (apply checkInclude_inr; auto).
      congruence.
    + apply checkInclude_inr in Hq. destruct Hq as [Hv ->].
      destruct (mapM (checkInclude type refPaths) paths) as [e|rest] eqn:Hr;
        simpl.
      * split; [discriminate|]. intros [Hall _].
        assert (inl e = inr paths :> Result (list string)); [|discriminate].
        apply IH. split; [|reflexivity]. intros q' Hq'. apply Hall. now right.
      * destruct (proj1 (IH rest) eq_refl) as [Hall ->].
        split.
        -- intros [= <-]. split; [|reflexivity].
           intros q' [<-|Hq']; auto.
        -- intros [_ ->]. reflexivity.
Qed.

Lemma checkIncludes_first_failure type refPaths before q after e :
  (forall p, In p before -> validInclude refPaths p) ->
  checkInclude type refPaths q = inl e ->
  checkIncludes type refPaths (before ++ q :: after) = inl e.
Proof.
  unfold checkIncludes. intros Hall Hq.
  induction before as [|p before IH]; simpl.
  - now rewrite Hq.
  - assert (Hp : checkInclude type refPaths p = inr p).
    { apply checkInclude_inr. split; [|reflexivity]. apply Hall. now left. }
    rewrite Hp. simpl. rewrite IH; [reflexivity|].
    intros p' Hp'. apply Hall. now right.
Qed.

End IncludeFacts.

(** C6, as the code has it, for a [find] on a registered type whose id
    filter is accepted.  The include paths are checked in order, and the
    first path that fails its check decides: if its relationship name
    (its first part) is not among the reference paths of the model the
    operation fails with the [APIError] 400 [Invalid include path.],
    whether or not the path is nested; if the name is declared and the
    path has more than one part it fails with the [APIError] 501.  In
    both cases the query is not executed.  A query that is executed
    populates exactly the include paths, all of them declared and one
    level deep. *)
Theorem find_include_paths :
  forall pluralize_singular pluralize_plural errorHandler toMongoCriteria
         adapter query model mode idQuery includePaths,
    MongooseAdapter.getModel adapter
      (MongooseAdapter.getModelName (fq_type query) pluralize_singular)
    = inr model ->
    MongooseAdapter.getIdQueryType (fq_idOrIds query) = inr (mode, idQuery) ->
    fq_populates query = Some includePaths ->
    let refPaths := MongooseAdapter.getReferencePaths (m_info model) in
    let run := MongooseAdapter.find pluralize_singular pluralize_plural
                 errorHandler toMongoCriteria adapter query in
    (forall before path after,
        includePaths = before ++ path :: after ->
        (forall q, In q before ->
                   MongooseAdapter.declaredInclude refPaths q = true
                   /\ MongooseAdapter.nestedInclude q = false) ->
        (MongooseAdapter.declaredInclude refPaths path = false ->
         snd run
         = inl (EApi (MongooseAdapter.invalidIncludeError (fq_type query)
                        (MongooseAdapter.includeFirst path)))
         /\ forall queryBuilder, ~ In (CallExec queryBuilder) (fst run))
        /\ (MongooseAdapter.declaredInclude refPaths path = true ->
            MongooseAdapter.nestedInclude path = true ->
            snd run = inl (EApi MongooseAdapter.multiLevelIncludeError)
            /\ forall queryBuilder, ~ In (CallExec queryBuilder) (fst run)))
    /\ (forall queryBuilder,
           In (CallExec queryBuilder) (fst run) ->
           qb_populate queryBuilder = includePaths
           /\ forall q, In q includePaths ->
                        MongooseAdapter.declaredInclude refPaths q = true
                        /\ MongooseAdapter.nestedInclude q = false)
    /\ ((forall q, In q includePaths ->
                   MongooseAdapter.declaredInclude refPaths q = true
                   /\ MongooseAdapter.nestedInclude q = false) ->
        exists queryBuilder,
          In (CallExec queryBuilder) (fst run)
          /\ qb_populate queryBuilder = includePaths)
    /\ (forall type part,
           status (MongooseAdapter.invalidIncludeError type part) = 400%Z
           /\ title (MongooseAdapter.invalidIncludeError type part)
              = "Invalid include path.")
    /\ status MongooseAdapter.multiLevelIncludeError = 501%Z
    /\ title MongooseAdapter.multiLevelIncludeError
       = "Multi-level include paths aren't yet supported.".
Proof.
  intros ps pp eh tmc adapter query model mode idQuery includePaths
    Hm Hid Hinc refPaths run.
  assert (Hfail : forall e,
    MongooseAdapter.checkIncludes (fq_type query) refPaths includePaths
    = inl e ->
    snd run = inl e /\ forall queryBuilder, ~ In (CallExec queryBuilder) (fst run)).
  { intros e He. unfold run, MongooseAdapter.find.
    rewrite Hm, Hid, Hinc. fold refPaths. rewrite He.
    split; [reflexivity|]. intros queryBuilder. apply not_in_calls_count. }
  split; [|split; [|split; [|repeat split]]].
  - intros before path after -> Hbefore. split.
    + intros Hd. apply Hfail.
      apply checkIncludes_first_failure; [exact Hbefore|].
      now apply checkInclude_inl.
    + intros Hd Hn. apply Hfail.
      apply checkIncludes_first_failure; [exact Hbefore|].
      now apply checkInclude_inl.
  - intros queryBuilder. unfold run, MongooseAdapter.find.
    rewrite Hm, Hid, Hinc. fold refPaths.
    destruct (MongooseAdapter.checkIncludes _ refPaths includePaths)
      as [e|populated] eqn:Hc.
    + intros Hin. now apply not_in_calls_count in Hin.
    + apply checkIncludes_inr in Hc. destruct Hc as [Hall ->].
      intros Hin. apply in_calls_exec in Hin. subst queryBuilder.
      split; [reflexivity | exact Hall].
  - intros Hall. unfold run, MongooseAdapter.find.
    rewrite Hm, Hid, Hinc. fold refPaths.
    rewrite (proj2 (checkIncludes_inr (fq_type query) refPaths includePaths
                      includePaths) (conj Hall eq_refl)).
    eexists. split; [apply in_or_app; right; left; reflexivity|].
    reflexivity.
Qed.

Lemma find_include_paths_witness :
  snd (MongooseAdapter.find Sample.singular Sample.plural Sample.passOn
         Sample.criteria (Sample.adapterOf [])
         (Sample.findIncluding ["author"; "tags.name"; "editor"]))
  = inl (EApi MongooseAdapter.multiLevelIncludeError)
  /\ exists queryBuilder,
      In (CallExec queryBuilder)
         (fst (MongooseAdapter.find Sample.singular Sample.plural
                 Sample.passOn Sample.criteria (Sample.adapterOf [])
                 (Sample.findIncluding ["tags"; "author"])))
      /\ qb_populate queryBuilder = ["tags"; "author"].
Proof.
  split.
  - pose proof (find_include_paths Sample.singular Sample.plural
                  Sample.passOn Sample.criteria (Sample.adapterOf [])
                  (Sample.findIncluding ["author"; "tags.name"; "editor"])
                  (model := Sample.postStore []) eq_refl eq_refl eq_refl)
      as (H & _).
    apply (H ["author"] "tags.name" ["editor"] eq_refl).
    + intros q [<-|[]]. split; reflexivity.
    + reflexivity.
    + reflexivity.
  - pose proof (find_include_paths Sample.singular Sample.plural
                  Sample.passOn Sample.criteria (Sample.adapterOf [])
                  (Sample.findIncluding ["tags"; "author"])
                  (model := Sample.postStore []) eq_refl eq_refl eq_refl)
      as (_ & _ & H & _).
    apply H. intros q [<-|[<-|[]]]; split; reflexivity.
Defined.

(** The statement of C6 fails on a nested include path whose first part
    is not a relationship of the type: it is a multi-segment path, and
    the operation fails with the 400 of an invalid path, not with the
    501 of a nested one. *)
Lemma find_nested_undeclared_include_is_400 :
  MongooseAdapter.nestedInclude "editor.name" = true
  /\ MongooseAdapter.find Sample.singular Sample.plural Sample.passOn
       Sample.criteria (Sample.adapterOf [])
       (Sample.findIncluding ["editor.name"])
     = ([], inl (EApi (MongooseAdapter.invalidIncludeError "posts" "editor")))
  /\ status (MongooseAdapter.invalidIncludeError "posts" "editor") = 400%Z
  /\ MongooseAdapter.invalidIncludeError "posts" "editor"
     <> MongooseAdapter.multiLevelIncludeError.
Proof.
  repeat split. discriminate.
Qed.

Section UpdateFacts.
Import MongooseAdapter.

Lemma has_set (A : Type) k k' (v : A) props :
  Obj.has k' (Obj.set k v props) = String.eqb k' k || Obj.has k' props.
Proof.
  unfold Obj.has. destruct (String.eqb_spec k' k) as [->|Hne]; simpl.
  - now rewrite lookup_set_same.
  - now rewrite lookup_set_other.
Qed.

Lemma has_keys (A : Type) k (props : list (string * A)) :
  Obj.has k props = true <-> In k (Obj.keys props).
Proof.
  unfold Obj.has, Obj.keys.
  induction props as [|[k' v] rest IH]; simpl.
  - split; [discriminate | tauto].
  - destruct (String.eqb_spec k k') as [->|Hne].
    + split; auto.
    + rewrite IH. split; [auto | intros [H|H]; [congruence | exact H]].
Qed.

Lemma has_finalUpdateOf modifiedPaths updateDocObject key :
  Obj.has key (finalUpdateOf modifiedPaths updateDocObject) = true
  <-> In key modifiedPaths.
Proof.
  unfold finalUpdateOf.
  assert (H : forall acc,
    Obj.has key
      (fold_left
         (fun acc k =>
            Obj.set k match Obj.lookup k updateDocObject with
                      | Some v => v
                      | None => VUndef
                      end acc)
         modifiedPaths acc) = true
    <-> In key modifiedPaths \/ Obj.has key acc = true).
  { induction modifiedPaths as [|k ks IH]; simpl; intros acc.
    - tauto.
    - rewrite IH, has_set, orb_true_iff, String.eqb_eq.
      split; intros [H|H]; auto; destruct H; auto. }
  rewrite H. unfold Obj.has. simpl. split; [intros [|]; [auto|discriminate]|auto].
Qed.

Lemma has_resourceToDocObject r key :
  Obj.has key (resourceToDocObject r) = true
  <-> Obj.has key (propsOf (r_attrs r)) = true
      \/ Obj.has key (r_relationships r) = true.
Proof.
  unfold resourceToDocObject.
  generalize (propsOf (r_attrs r)) as acc.
  induction (r_relationships r) as [|[k rel] rels IH]; simpl; intros acc.
  - unfold Obj.has at 3. simpl. split; [auto | intros [|]; [auto|discriminate]].
  - rewrite IH, has_set, orb_true_iff, String.eqb_eq.
    unfold Obj.has at 4. simpl.
    destruct (String.eqb_spec key k) as [->|Hne].
    + tauto.
    + fold (Obj.has key rels). split; intros [H|H]; auto.
      destruct H; [contradiction | auto].
Qed.

Lemma updateEach_calls adapter parentModel rs id upd :
  In (CallFindByIdAndUpdate id upd) (fst (updateEach adapter parentModel rs)) ->
  exists r newModel,
    In r rs
    /\ getModel adapter (getModelName (r_type r) (inflector_singular adapter))
       = inr newModel
    /\ id = r_id r
    /\ upd = finalUpdateFor newModel r.
Proof.
  induction rs as [|r rs IH]; simpl; [intros []|].
  unfold updateOne.
  destruct (getModel adapter _) as [e|newModel] eqn:Hm; simpl; [intros []|].
  destruct (updateEach adapter parentModel rs) as [calls res]. simpl.
  intros [H|H].
  - injection H as <- <-. exists r, newModel. auto.
  - destruct (IH H) as (r' & m' & Hin & Hm' & Hid & Hupd).
    exists r', m'. auto.
Qed.

Lemma updateEach_all_registered adapter parentModel rs :
  (forall r, In r rs ->
     exists newModel,
       getModel adapter (getModelName (r_type r) (inflector_singular adapter))
       = inr newModel) ->
  Forall2
    (fun r call =>
       exists newModel,
         getModel adapter (getModelName (r_type r) (inflector_singular adapter))
         = inr newModel
         /\ call = CallFindByIdAndUpdate (r_id r) (finalUpdateFor newModel r))
    rs (fst (updateEach adapter parentModel rs))
  /\ exists docs, snd (updateEach adapter parentModel rs) = inr docs.
Proof.
  induction rs as [|r rs IH]; intros Hreg; cbn [updateEach].
  - split; [constructor | exists []; reflexivity].
  - destruct (Hreg r (or_introl eq_refl)) as [newModel Hm].
    unfold updateOne. rewrite Hm. cbn [bind].
    destruct (IH (fun r' H => Hreg r' (or_intror H))) as [Hall [docs Hdocs]].
    destruct (updateEach adapter parentModel rs) as [calls res].
    simpl in Hall, Hdocs. subst res. simpl. split; [|eauto].
    constructor; [eauto | exact Hall].
Qed.

End UpdateFacts.

(** C4: every update that [update] applies to the store, for a single
    [Resource] or for the resources of a [Collection], is built for a
    resource of the patch and contains exactly the paths that the
    document constructed from the partial attributes reports as
    modified.  Hence, when the store reports as modified only paths of
    the change set, a key of the stored update is an attribute or a
    relationship of the patch: a schema default is not in the update
    unless the patch names it.  When the types of the query and of the
    resources of the patch are registered, one such update is applied
    for each resource of the patch, in order. *)
Theorem update_applies_only_modified_paths :
  forall pluralize_plural errorHandler adapter query,
    (forall id finalUpdate,
    In (CallFindByIdAndUpdate id finalUpdate)
       (fst (MongooseAdapter.update pluralize_plural errorHandler
               adapter query)) ->
    exists resourceUpdate newModel,
      In resourceUpdate (MongooseAdapter.resourcesOf (uq_patch query))
      /\ MongooseAdapter.getModel adapter
           (MongooseAdapter.getModelName (r_type resourceUpdate)
              (inflector_singular adapter))
         = inr newModel
      /\ id = r_id resourceUpdate
      /\ (forall key,
             Obj.has key finalUpdate = true <->
             In key (fst (m_hydrateSet newModel
                            (MongooseAdapter.resourceToDocObject
                               resourceUpdate))))
      /\ ((forall key,
              In key (fst (m_hydrateSet newModel
                             (MongooseAdapter.resourceToDocObject
                                resourceUpdate))) ->
              Obj.has key
                (MongooseAdapter.resourceToDocObject resourceUpdate) = true) ->
          forall key,
            Obj.has key finalUpdate = true ->
            Obj.has key (MongooseAdapter.propsOf (r_attrs resourceUpdate))
            = true
            \/ Obj.has key (r_relationships resourceUpdate) = true))
    /\ ((exists parentModel,
            MongooseAdapter.getModel adapter
              (MongooseAdapter.getModelName (uq_type query)
                 (inflector_singular adapter)) = inr parentModel) ->
        (forall r, In r (MongooseAdapter.resourcesOf (uq_patch query)) ->
           exists newModel,
             MongooseAdapter.getModel adapter
               (MongooseAdapter.getModelName (r_type r)
                  (inflector_singular adapter)) = inr newModel) ->
        Forall2
          (fun r call =>
             exists newModel,
               MongooseAdapter.getModel adapter
                 (MongooseAdapter.getModelName (r_type r)
                    (inflector_singular adapter)) = inr newModel
               /\ call = CallFindByIdAndUpdate (r_id r)
                           (MongooseAdapter.finalUpdateFor newModel r))
          (MongooseAdapter.resourcesOf (uq_patch query))
          (fst (MongooseAdapter.update pluralize_plural errorHandler
                  adapter query))).
Proof.
  intros pp eh adapter query. split.
  2:{ intros [parentModel Hp] Hreg. unfold MongooseAdapter.update.
      rewrite Hp.
      destruct (updateEach_all_registered adapter parentModel _ Hreg)
        as [Hall [docs Hdocs]].
      destruct (MongooseAdapter.updateEach adapter parentModel _)
        as [calls res]. simpl in Hall, Hdocs. subst res. exact Hall. }
  intros id finalUpdate Hin.
  unfold MongooseAdapter.update in Hin.
  destruct (MongooseAdapter.getModel adapter
              (MongooseAdapter.getModelName (uq_type query)
                 (inflector_singular adapter))) as [e|parentModel];
    [destruct Hin|].
  assert (Hcalls : In (CallFindByIdAndUpdate id finalUpdate)
            (fst (MongooseAdapter.updateEach adapter parentModel
                    (MongooseAdapter.resourcesOf (uq_patch query))))).
  { destruct (MongooseAdapter.updateEach adapter parentModel _)
      as [calls [e|docs]]; exact Hin. }
  destruct (updateEach_calls _ _ _ _ _ Hcalls)
    as (r & newModel & Hr & Hm & Hid & Hupd).
  exists r, newModel. repeat split; auto.
  - subst finalUpdate. unfold MongooseAdapter.finalUpdateFor.
    destruct (m_hydrateSet newModel _) as [paths obj]. simpl.
    apply has_finalUpdateOf.
  - subst finalUpdate. unfold MongooseAdapter.finalUpdateFor.
    destruct (m_hydrateSet newModel _) as [paths obj]. simpl.
    apply has_finalUpdateOf.
  - intros Hstore key Hkey. apply has_resourceToDocObject, Hstore.
    subst finalUpdate. unfold MongooseAdapter.finalUpdateFor in Hkey.
    destruct (m_hydrateSet newModel _) as [paths obj]. simpl.
    now apply has_finalUpdateOf in Hkey.
Qed.

Lemma update_applies_only_modified_paths_witness :
  fst (MongooseAdapter.update Sample.plural Sample.passOn
         (Sample.adapterOf [Sample.untaggedPost]) Sample.titleUpdate)
  = [CallFindByIdAndUpdate (Some Sample.validId) [("title", VStr "New")]]
  /\ exists resourceUpdate newModel,
      In resourceUpdate [Sample.titlePatch]
      /\ MongooseAdapter.getModel (Sample.adapterOf [Sample.untaggedPost])
           (MongooseAdapter.getModelName (r_type resourceUpdate)
              Sample.singular)
         = inr newModel
      /\ Some Sample.validId = r_id resourceUpdate
      /\ (forall key,
             Obj.has key [("title", VStr "New")] = true <->
             In key (fst (m_hydrateSet newModel
                            (MongooseAdapter.resourceToDocObject
                               resourceUpdate))))
      /\ ((forall key,
              In key (fst (m_hydrateSet newModel
                             (MongooseAdapter.resourceToDocObject
                                resourceUpdate))) ->
              Obj.has key
                (MongooseAdapter.resourceToDocObject resourceUpdate) = true) ->
          forall key,
            Obj.has key [("title", VStr "New")] = true ->
            Obj.has key (MongooseAdapter.propsOf (r_attrs resourceUpdate))
            = true
            \/ Obj.has key (r_relationships resourceUpdate) = true).
Proof.
  split; [reflexivity|].
  apply (proj1 (update_applies_only_modified_paths Sample.plural Sample.passOn
                  (Sample.adapterOf [Sample.untaggedPost]) Sample.titleUpdate)).
  left. reflexivity.
Defined.

Section LinkageFacts.
Import JS MongooseAdapter.

Lemma sameKind_refl v : sameKind v v.
Proof. destruct v; simpl; auto. Qed.

Lemma sameKind_trans u v w : sameKind u v -> sameKind v w -> sameKind u w.
Proof.
  destruct u, v; simpl; try discriminate; try (intros <-; auto; fail);
    destruct w; simpl; try discriminate; try congruence; auto.
Qed.

Lemma sameKind_isArray v v' : sameKind v v' -> isArray v = isArray v'.
Proof.
  destruct v, v'; simpl; try discriminate; try reflexivity;
    try (intros H; discriminate H).
Qed.

Lemma sameKind_truthy v v' : sameKind v v' -> truthy v = truthy v'.
Proof.
  destruct v, v'; simpl; try discriminate; try reflexivity;
    try (intros H; discriminate H); intros [= ->]; reflexivity.
Qed.

Lemma sameKind_empty_array v' : sameKind (VArr []) v' -> v' = VArr [].
Proof.
  destruct v'; simpl; try discriminate. destruct items; [reflexivity|].
  discriminate.
Qed.

Lemma buildLinkage_list referencedType raw :
  (exists entries, lvalue (buildLinkage referencedType raw) = LinkList entries)
  <-> isArray raw = true.
Proof.
  unfold buildLinkage.
  destruct raw; simpl; split; try discriminate; eauto;
    intros [entries H]; discriminate H.
Qed.

Lemma buildLinkage_single referencedType raw :
  isArray raw = false ->
  lvalue (buildLinkage referencedType raw)
  = LinkSingle (linkageEntry referencedType raw).
Proof. destruct raw; simpl; try discriminate; reflexivity. Qed.

Lemma linkageEntry_falsy referencedType raw :
  truthy raw = false -> linkageEntry referencedType raw = None.
Proof. unfold linkageEntry. intros ->. reflexivity. Qed.

End LinkageFacts.

Section PathFacts.
Import JS Misc.

Lemma reduceGetProp_app a : forall b o,
  reduceGetProp (a ++ b) o
  = match reduceGetProp a o with
    | Some c => reduceGetProp b c
    | None => None
    end.
Proof.
  induction a as [|k a IH]; simpl; intros b o; [reflexivity|].
  destruct (getProp o k); [apply IH | reflexivity].
Qed.

Lemma reduceGetProp_cons k ps o :
  reduceGetProp (k :: ps) o
  = match getProp o k with
    | Some v => reduceGetProp ps v
    | None => None
    end.
Proof. reflexivity. Qed.

Lemma getProp_set_same k x props :
  getProp (VObj (Obj.set k x props)) k = Some x.
Proof. simpl. now rewrite lookup_set_same. Qed.

Lemma getProp_set_other k k' x props :
  k' <> k -> getProp (VObj (Obj.set k x props)) k' = getProp (VObj props) k'.
Proof. intros H. simpl. now rewrite lookup_set_other. Qed.

Lemma getProp_setNth_same k i x items :
  arrayIndex (List.length items) k = Some i ->
  getProp (VArr (setNth i x items)) k
  = Some match x with Some v => v | None => VUndef end.
Proof.
  intros Hi. simpl. rewrite length_setNth, Hi.
  rewrite nth_error_setNth_same by (apply arrayIndex_spec in Hi; tauto).
  destruct x; reflexivity.
Qed.

Lemma getProp_setNth_other k k' i x items :
  arrayIndex (List.length items) k = Some i -> k' <> k ->
  getProp (VArr (setNth i x items)) k' = getProp (VArr items) k'.
Proof.
  intros Hi Hne. simpl. rewrite length_setNth.
  destruct (arrayIndex (List.length items) k') as [j|] eqn:Hj; [|reflexivity].
  rewrite nth_error_setNth_other; [reflexivity|].
  intros ->. apply Hne. eapply arrayIndex_inj; eauto.
Qed.

Lemma sameKind_assignAt k cs o child x :
  getProp o k = Some child -> isContainer child = true ->
  sameKind o (assignAt (k :: cs) o x).
Proof.
  intros G Hc.
  destruct (getProp_container _ _ G Hc)
    as [(props & -> & L)|(items & i & -> & Hi & Hn)]; simpl.
  - rewrite L. exact I.
  - rewrite Hi, Hn. simpl. now rewrite length_setNth.
Qed.

(** Reading a path after the container at [cparts] was replaced: either
    the path goes through the container, or it reads what it read
    before, up to deletions inside the value. *)
Lemma reduceGetProp_after_assignAt cparts : forall ps o c c' v',
  reduceGetProp cparts o = Some c -> isContainer c = true ->
  reduceGetProp ps (assignAt cparts o c') = Some v' ->
  (exists rest, ps = cparts ++ rest /\ reduceGetProp rest c' = Some v')
  \/ (exists v, reduceGetProp ps o = Some v /\ sameKind v v').
Proof.
  induction cparts as [|k cs IH]; intros ps o c c' v' Hnav Hc Hread.
  - left. exists ps. auto.
  - simpl in Hnav.
    destruct (getProp o k) as [child|] eqn:G; [|discriminate].
    assert (Hchild : isContainer child = true).
    { destruct (isContainer child) eqn:E; [reflexivity|].
      rewrite (@reduceGetProp_primitive cs child c E Hnav) in Hc.
      discriminate. }
    destruct ps as [|k' ps].
    + right. exists o. simpl in Hread. injection Hread as <-.
      split; [reflexivity|]. eapply sameKind_assignAt; eauto.
    + destruct (string_dec k' k) as [->|Hne].
      * assert (Hget : getProp (assignAt (k :: cs) o c') k
                       = Some (assignAt cs child c')).
        { destruct (getProp_container _ _ G Hchild)
            as [(props & -> & L)|(items & i & -> & Hi & Hn)]; simpl assignAt.
          - rewrite L. apply getProp_set_same.
          - rewrite Hi, Hn.
            now rewrite (getProp_setNth_same _ (Some _) _ Hi). }
        rewrite reduceGetProp_cons, Hget in Hread.
        destruct (IH ps child c c' v' Hnav Hc Hread)
          as [(rest & -> & Hr)|(v & Hv & Hk)].
        -- left. exists rest. auto.
        -- right. exists v. rewrite reduceGetProp_cons, G. auto.
      * assert (Hget : getProp (assignAt (k :: cs) o c') k' = getProp o k').
        { destruct (getProp_container _ _ G Hchild)
            as [(props & -> & L)|(items & i & -> & Hi & Hn)]; simpl assignAt.
          - rewrite L. now apply getProp_set_other.
          - rewrite Hi, Hn. now apply getProp_setNth_other with (k := k). }
        right. exists v'. split; [|apply sameKind_refl].
        rewrite reduceGetProp_cons in Hread |- *. now rewrite <- Hget.
Qed.

Lemma deleteProp_effect c lastPart c' :
  canDelete c lastPart -> deleteProp c lastPart = Some c' ->
  getProp c' lastPart = Some VUndef
  /\ (forall k, k <> lastPart -> getProp c' k = getProp c k)
  /\ sameKind c c' /\ isContainer c = true.
Proof.
  intros [(props & -> & Hk & Hh)|(items & i & v & -> & Hi & Hn)]; simpl deleteProp.
  - intros [= <-]. repeat split.
    + simpl. now rewrite lookup_remove_same.
    + intros k Hne. simpl. now rewrite lookup_remove_other.
  - rewrite Hi. intros [= <-]. repeat split.
    + now rewrite (getProp_setNth_same _ None _ Hi).
    + intros k Hne. now apply getProp_setNth_other with (k := lastPart).
    + simpl. now rewrite length_setNth.
Qed.

(** [deleteNested] on one path leaves the values at the other paths of
    the same kind. *)
Lemma deleteNested_other_path q ps o v' :
  Str.split "." q <> ps ->
  reduceGetProp ps (snd (deleteNested q o)) = Some v' ->
  exists v, reduceGetProp ps o = Some v /\ sameKind v v'.
Proof.
  intros Hne Hread.
  destruct (deleteNested_true_iff_parts q o) as (Hiff & Hdel & Hsame).
  destruct (fst (deleteNested q o)) eqn:Hres.
  - destruct (Hdel eq_refl) as (c & c' & Hnav & Hd & Hobj & _ & _).
    assert (Hcan : canDelete c (List.last (Str.split "." q) ""))
      by (apply canDelete_spec; split;
          [|eauto]; destruct (proj1 Hiff eq_refl) as (c0 & Hc0 & Hcan0);
          rewrite Hnav in Hc0; injection Hc0 as <-;
          now apply canDelete_spec in Hcan0).
    destruct (deleteProp_effect Hcan Hd) as (Hlast & Hother & Hkind & Hcont).
    rewrite Hobj in Hread.
    destruct (reduceGetProp_after_assignAt _ _ _ c' Hnav Hcont Hread)
      as [(rest & Hps & Hr)|Hold]; [|exact Hold].
    destruct rest as [|k rest].
    + exists c. simpl in Hr. injection Hr as <-.
      rewrite Hps, app_nil_r. auto.
    + simpl in Hr. destruct (string_dec k (List.last (Str.split "." q) ""))
        as [->|Hk].
      * rewrite Hlast in Hr. destruct rest as [|k' rest]; [|discriminate].
        exfalso. apply Hne. rewrite Hps.
        apply app_removelast_last, split_nonempty.
      * exists v'. split; [|apply sameKind_refl].
        rewrite Hps, reduceGetProp_app, Hnav. simpl.
        now rewrite <- (Hother k Hk).
  - rewrite (Hsame eq_refl) in Hread. exists v'.
    split; [exact Hread | apply sameKind_refl].
Qed.

Lemma join_cons_char c p ps :
  Str.join "." (String c p :: ps) = String c (Str.join "." (p :: ps)).
Proof. destruct ps; reflexivity. Qed.

Lemma join_split s : Str.join "." (Str.split "." s) = s.
Proof.
  induction s as [|c s IH]; [reflexivity|]. simpl Str.split.
  pose proof (split_nonempty "." s) as Hne.
  destruct (Str.split "." s) as [|p ps] eqn:E; [contradiction|].
  destruct (Ascii.eqb_spec c ".") as [->|Hc].
  - change (Str.join "." ("" :: p :: ps))
      with (String "." (Str.join "." (p :: ps))).
    now rewrite IH.
  - rewrite join_cons_char. now rewrite IH.
Qed.

Lemma split_inj p q : Str.split "." p = Str.split "." q -> p = q.
Proof.
  intros H. rewrite <- (join_split p), <- (join_split q). now rewrite H.
Qed.

End PathFacts.

Section SelectionFacts.
Import JS MongooseAdapter.

(** What a field selection keeps of an attribute: its value, if it is
    truthy. *)
Lemma lookup_selectAttrs attrs selected k :
  Obj.lookup k (selectAttrs attrs selected)
  = if arrayContains selected k
    then match Obj.lookup k attrs with
         | Some v => if truthy v then Some v else None
         | None => None
         end
    else None.
Proof.
  unfold selectAttrs, arrayContains.
  set (kept := match Obj.lookup k attrs with
               | Some v => if truthy v then Some v else None
               | None => None
               end).
  assert (H : forall acc,
    Obj.lookup k
      (fold_left
         (fun newAttrs field =>
            match Obj.lookup field attrs with
            | Some v => if truthy v then Obj.set field v newAttrs else newAttrs
            | None => newAttrs
            end) selected acc)
    = match (if existsb (String.eqb k) selected then kept else None) with
      | Some v => Some v
      | None => Obj.lookup k acc
      end).
  { induction selected as [|f fs IH]; intros acc; simpl; [reflexivity|].
    rewrite IH. destruct (String.eqb_spec k f) as [<-|Hne]; simpl.
    - unfold kept. destruct (Obj.lookup k attrs) as [v|] eqn:L.
      + destruct (truthy v).
        * destruct (existsb (String.eqb k) fs); [reflexivity|].
          apply lookup_set_same.
        * destruct (existsb (String.eqb k) fs); reflexivity.
      + destruct (existsb (String.eqb k) fs); reflexivity.
    - destruct (if existsb (String.eqb k) fs then kept else None);
        [reflexivity|].
      destruct (Obj.lookup f attrs) as [v|]; [|reflexivity].
      destruct (truthy v); [|reflexivity]. now apply lookup_set_other. }
  rewrite H. simpl.
  destruct (existsb (String.eqb k) selected); [|reflexivity].
  destruct kept; reflexivity.
Qed.

End SelectionFacts.

Section TotalityFacts.
Import JS Misc MongooseAdapter.

Variable pluralize_plural : string -> string.

Lemma getReferencedType_declared m p :
  In p (getReferencePaths m) ->
  exists t, getReferencedType pluralize_plural m p = inr t.
Proof.
  unfold getReferencePaths, getReferencedType, getReferencedModelName.
  intros Hin. apply in_map_iff in Hin. destruct Hin as (rp & <- & Hrp).
  destruct (List.find _ (refs (schema m))) as [rp'|] eqn:F; [eauto|].
  apply (find_none _ _ F) in Hrp. now rewrite String.eqb_refl in Hrp.
Qed.

Lemma deleteNested_top_level p props :
  Str.split "." p = [p] ->
  exists props', snd (deleteNested p (VObj props)) = VObj props'.
Proof.
  intros Hp. unfold deleteNested. rewrite Hp.
  cbn [List.last List.removelast reduceGetProp hasOwnProperty].
  destruct (Obj.has "hasOwnProperty" props); [simpl; eauto|].
  destruct (Obj.has p props); simpl; eauto.
Qed.

Lemma addRelationships_total m selected paths : forall props rels,
  (forall p, In p paths -> In p (getReferencePaths m)) ->
  (forall p, In p paths -> Str.split "." p = [p]) ->
  exists attrs' rels',
    addRelationships pluralize_plural m selected paths (VObj props, rels)
    = inr (attrs', rels').
Proof.
  induction paths as [|p paths IH]; intros props rels Hdecl Htop;
    cbn [addRelationships]; [eauto|].
  unfold addRelationship.
  destruct (isSelected selected p); cbn [negb bind].
  - rewrite (Htop p (or_introl eq_refl)).
    destruct (@getReferencedType_declared m p (Hdecl p (or_introl eq_refl)))
      as [t Ht].
    cbn [reduceGetProp getProp].
    destruct (Obj.lookup p props) as [v|]; rewrite Ht; cbn [bind];
      destruct (@deleteNested_top_level p props (Htop p (or_introl eq_refl)))
        as [props' ->];
      apply IH; auto using in_cons.
  - apply IH; auto using in_cons.
Qed.

(** A document whose relationship paths are top-level fields is always
    mapped to a resource. *)
Lemma docToResource_total doc pluralizer fields :
  (forall p, In p (getReferencePaths (d_model doc)) -> Str.split "." p = [p]) ->
  exists resource,
    docToResource pluralize_plural doc pluralizer fields = inr resource.
Proof.
  intros Htop. unfold docToResource.
  destruct (@addRelationships_total (d_model doc)
              (selectedFields fields
                 (getType (modelName (d_model doc)) pluralizer))
              (getReferencePaths (d_model doc))
              (cleanAttrs doc
                 (selectedFields fields
                    (getType (modelName (d_model doc)) pluralizer)))
              [] (fun p H => H) Htop) as (attrs' & rels' & ->).
  cbn [bind]. eauto.
Qed.

End TotalityFacts.

Section RelationshipFacts.
Import JS Misc MongooseAdapter.

Variable pluralize_plural : string -> string.
Variable m : ModelInfo.
Variable selected : option (list string).

Lemma addRelationship_inr attrs rels q attrs' rels' :
  addRelationship pluralize_plural m selected (attrs, rels) q
  = inr (attrs', rels') ->
  (isSelected selected q = false /\ attrs' = attrs /\ rels' = rels)
  \/ (isSelected selected q = true
      /\ exists raw t,
          reduceGetProp (Str.split "." q) attrs = Some raw
          /\ attrs' = snd (deleteNested q attrs)
          /\ rels' = Obj.set q (mkRelationship (buildLinkage t raw)) rels).
Proof.
  unfold addRelationship.
  destruct (isSelected selected q); simpl.
  - destruct (reduceGetProp (Str.split "." q) attrs) as [raw|]; [|discriminate].
    destruct (getReferencedType pluralize_plural m q) as [e|t]; simpl;
      [discriminate|].
    intros [= <- <-]. right. split; [reflexivity|]. eauto.
  - intros [= <- <-]. auto.
Qed.

Lemma addRelationships_spec paths : forall attrs rels attrs' rels',
  addRelationships pluralize_plural m selected paths (attrs, rels)
  = inr (attrs', rels') ->
  (forall ps,
      (forall q, In q paths -> Str.split "." q <> ps) ->
      forall v', reduceGetProp ps attrs' = Some v' ->
                 exists v, reduceGetProp ps attrs = Some v /\ sameKind v v')
  /\ (forall p,
         ~ In p paths \/ isSelected selected p = false ->
         Obj.lookup p rels' = Obj.lookup p rels)
  /\ (NoDup paths ->
      forall p,
        In p paths -> isSelected selected p = true ->
        exists raw0 raw t,
          reduceGetProp (Str.split "." p) attrs = Some raw0
          /\ sameKind raw0 raw
          /\ Obj.lookup p rels'
             = Some (mkRelationship (buildLinkage t raw))).
Proof.
  induction paths as [|q paths IH]; intros attrs rels attrs' rels';
    cbn [addRelationships].
  - intros [= <- <-]. repeat split.
    + intros ps _ v' Hv'. exists v'. split; [exact Hv' | apply sameKind_refl].
    + intros _ p [].
  - destruct (addRelationship pluralize_plural m selected (attrs, rels) q)
      as [e|[attrs1 rels1]] eqn:Hstep; cbn [bind]; [discriminate|].
    intros Hrest. destruct (IH _ _ _ _ Hrest) as (IHkind & IHother & IHsel).
    apply addRelationship_inr in Hstep.
    assert (Hkind1 : forall ps, Str.split "." q <> ps ->
              forall v1, reduceGetProp ps attrs1 = Some v1 ->
              exists v, reduceGetProp ps attrs = Some v /\ sameKind v v1).
    { intros ps Hne v1 Hv1.
      destruct Hstep as [(_ & -> & _)|(_ & raw & t & _ & -> & _)].
      - exists v1. split; [exact Hv1 | apply sameKind_refl].
      - eapply deleteNested_other_path; eauto. }
    repeat split.
    + intros ps Hall v' Hv'.
      destruct (IHkind ps (fun q' H => Hall q' (or_intror H)) v' Hv')
        as (v1 & Hv1 & Hk1).
      destruct (Hkind1 ps (Hall q (or_introl eq_refl)) v1 Hv1) as (v & Hv & Hk).
      exists v. split; [exact Hv | eapply sameKind_trans; eauto].
    + intros p Hp.
      rewrite IHother
        by (destruct Hp as [Hp|Hp];
            [left; intros H; apply Hp; now right | now right]).
      destruct Hstep as [(_ & _ & ->)|(Hsel & raw & t & _ & _ & ->)];
        [reflexivity|].
      apply lookup_set_other. intros ->. destruct Hp as [Hp|Hp].
      * apply Hp. now left.
      * congruence.
    + intros Hnd p Hp Hsel. inversion Hnd as [|? ? Hnotin Hnd']; subst.
      destruct Hp as [<-|Hp].
      * destruct Hstep as [(Hno & _)|(_ & raw & t & Hraw & _ & ->)];
          [congruence|].
        exists raw, raw, t. split; [exact Hraw|].
        split; [apply sameKind_refl|].
        rewrite IHother by (now left). apply lookup_set_same.
      * destruct (IHsel Hnd' p Hp Hsel) as (raw1 & raw & t & Hraw1 & Hk & Hl).
        assert (Hne : Str.split "." q <> Str.split "." p).
        { intros H. apply split_inj in H. subst. contradiction. }
        destruct (Hkind1 _ Hne raw1 Hraw1) as (raw0 & Hraw0 & Hk0).
        exists raw0, raw, t. split; [exact Hraw0|].
        split; [eapply sameKind_trans; eauto | exact Hl].
Qed.

End RelationshipFacts.

(** C1, as the code has it: [docToResource] does not consult the
    cardinality the schema declares.  For a document it maps to a
    resource, and a relationship path of the schema that the field
    selection lets through, the linkage of the relationship is a list
    exactly when the raw value at the path in the serialized document is
    an array.  So a path whose raw value is not an array, as for a
    to-one relationship, never yields a list, and yields [Linkage(null)]
    when the value is absent or [null]; a path whose raw value is an
    array, as for a to-many relationship, yields a list, the empty list
    for the empty array; and a path the schema declares to-many whose
    raw value is absent or [null] yields [Linkage(null)]. *)
Theorem docToResource_linkage_follows_raw_value :
  forall pluralize_plural doc pluralizer fields resource rp,
    let model := d_model doc in
    let selected :=
      MongooseAdapter.selectedFields fields
        (MongooseAdapter.getType (modelName model) pluralizer) in
    NoDup (MongooseAdapter.getReferencePaths model) ->
    MongooseAdapter.docToResource pluralize_plural doc pluralizer fields
    = inr resource ->
    In rp (refs (schema model)) ->
    MongooseAdapter.isSelected selected (rp_path rp) = true ->
    exists raw value,
      JS.reduceGetProp (Str.split "." (rp_path rp))
        (VObj (MongooseAdapter.cleanAttrs doc selected)) = Some raw
      /\ Obj.lookup (rp_path rp) (r_relationships resource)
         = Some (mkRelationship (mkLinkage value))
      /\ ((exists entries, value = LinkList entries) <-> JS.isArray raw = true)
      /\ (JS.isArray raw = false -> exists entry, value = LinkSingle entry)
      /\ (JS.truthy raw = false -> value = LinkSingle None)
      /\ (raw = VArr [] -> value = LinkList []).
Proof.
  intros pp doc pluralizer fields resource rp model selected Hnd Hdoc Hin Hsel.
  unfold MongooseAdapter.docToResource in Hdoc.
  fold model in Hdoc. fold selected in Hdoc.
  destruct (MongooseAdapter.addRelationships pp model selected _ _)
    as [e|[attrs' rels']] eqn:Hfold; simpl in Hdoc; [discriminate|].
  injection Hdoc as <-. simpl.
  destruct (addRelationships_spec _ _ _ _ _ _ Hfold) as (_ & _ & Hspec).
  destruct (Hspec Hnd (rp_path rp)) as (raw0 & raw & t & Hraw0 & Hkind & Hl).
  { unfold MongooseAdapter.getReferencePaths. now apply in_map. }
  { exact Hsel. }
  exists raw0, (lvalue (MongooseAdapter.buildLinkage t raw)).
  rewrite (sameKind_isArray _ _ Hkind), (sameKind_truthy _ _ Hkind).
  split; [exact Hraw0|]. split; [destruct (MongooseAdapter.buildLinkage t raw);
                                  exact Hl|].
  split; [apply buildLinkage_list|]. split; [|split].
  - intros Ha. rewrite buildLinkage_single by exact Ha. eauto.
  - intros Hf. assert (Ha : JS.isArray raw = false)
      by (destruct raw; simpl in *; try reflexivity; discriminate).
    rewrite buildLinkage_single by exact Ha.
    now rewrite linkageEntry_falsy.
  - intros ->. apply sameKind_empty_array in Hkind. subst raw. reflexivity.
Qed.

Lemma docToResource_linkage_follows_raw_value_witness :
  exists raw value,
    JS.reduceGetProp (Str.split "." "tags")
      (VObj (MongooseAdapter.cleanAttrs Sample.taggedPost None)) = Some raw
    /\ Obj.lookup "tags"
         [("author",
           mkRelationship
             (mkLinkage
                (LinkSingle
                   (Some (mkIdentifier "persons" "aaaaaaaaaaaaaaaaaaaaaaaa")))));
          ("tags",
           mkRelationship
             (mkLinkage
                (LinkList
                   [Some (mkIdentifier "tags" "bbbbbbbbbbbbbbbbbbbbbbbb");
                    Some (mkIdentifier "tags" "cccccccccccccccccccccccc")])))]
       = Some (mkRelationship (mkLinkage value))
    /\ ((exists entries, value = LinkList entries) <-> JS.isArray raw = true)
    /\ (JS.isArray raw = false -> exists entry, value = LinkSingle entry)
    /\ (JS.truthy raw = false -> value = LinkSingle None)
    /\ (raw = VArr [] -> value = LinkList []).
Proof.
  refine (@docToResource_linkage_follows_raw_value Sample.plural
            Sample.taggedPost Sample.plural None _
            (mkRefPath "tags" true "Tag") _ eq_refl _ eq_refl).
  - repeat constructor; simpl; intuition discriminate.
  - right. left. reflexivity.
Defined.

(** The statement of C1 fails on a post whose [tags], declared to-many
    by the schema, are absent from the serialized document: the linkage
    of [tags] is [Linkage(null)], not a list. *)
Lemma docToResource_absent_to_many_is_null :
  In (mkRefPath "tags" true "Tag") (refs (schema (d_model Sample.untaggedPost)))
  /\ Obj.lookup "tags" (d_json Sample.untaggedPost) = None
  /\ MongooseAdapter.docToResource Sample.plural Sample.untaggedPost
       Sample.plural None
     = inr (mkResource "posts" (Some Sample.validId)
              (VObj [("title", VStr "Hello")])
              [("author", mkRelationship (mkLinkage (LinkSingle None)));
               ("tags", mkRelationship (mkLinkage (LinkSingle None)))]).
Proof.
  split; [right; left; reflexivity|]. split; reflexivity.
Qed.

(** C7 at a failing input: the field selection names [likes], the post
    has the attribute [likes] with value [0], and the resource lacks
    it: the selection keeps an attribute only if its value is truthy. *)
Theorem docToResource_drops_falsy_selected_attribute :
  Obj.lookup "likes" (d_json Sample.taggedPost) = Some (VNum 0)
  /\ MongooseAdapter.docToResource Sample.plural Sample.taggedPost
       Sample.plural (Some [("posts", ["title"; "likes"; "tags"])])
     = inr (mkResource "posts" (Some Sample.validId)
              (VObj [("title", VStr "Hello")])
              [("tags",
                mkRelationship
                  (mkLinkage
                     (LinkList
                        [Some (mkIdentifier "tags" "bbbbbbbbbbbbbbbbbbbbbbbb");
                         Some (mkIdentifier "tags"
                                 "cccccccccccccccccccccccc")])))]).
Proof. split; reflexivity. Qed.

(* ================================================================= *)
(** * Further properties *)

(** *** Array helpers *)

Section ArrayFacts.
Import Utils.

Lemma existsb_eqb_In a (l : list string) :
  List.existsb (String.eqb a) l = true <-> In a l.
Proof.
  rewrite existsb_exists. split.
  - intros (x & Hx & He). apply String.eqb_eq in He. now subst.
  - intros H. exists a. split; [exact H | apply String.eqb_refl].
Qed.

Lemma arrayUnique_In array x : In x (arrayUnique array) <-> In x array.
Proof.
  induction array as [|a rest IH]; simpl; [tauto|].
  destruct (List.existsb (String.eqb a) rest) eqn:E.
  - apply existsb_eqb_In in E. rewrite IH. split; [auto|].
    intros [<-|H]; assumption.
  - simpl. rewrite IH. tauto.
Qed.

Lemma arrayUnique_NoDup array : NoDup (arrayUnique array).
Proof.
  induction array as [|a rest IH]; simpl; [constructor|].
  destruct (List.existsb (String.eqb a) rest) eqn:E; [exact IH|].
  constructor; [|exact IH]. rewrite arrayUnique_In.
  intros H. apply existsb_eqb_In in H. congruence.
Qed.

Lemma arrayUnique_fixed array : NoDup array -> arrayUnique array = array.
Proof.
  induction 1 as [|a rest Hnotin _ IH]; simpl; [reflexivity|].
  destruct (List.existsb (String.eqb a) rest) eqn:E.
  - apply existsb_eqb_In in E. contradiction.
  - now rewrite IH.
Qed.

(** The order on strings is transitive. *)
Lemma ascii_compare_trans a b c o :
  Ascii.compare a b = o -> Ascii.compare b c = o -> Ascii.compare a c = o.
Proof.
  unfold Ascii.compare. destruct o; intros H1 H2.
  - apply N.compare_eq_iff in H1, H2. apply N.compare_eq_iff. congruence.
  - apply N.compare_lt_iff in H1, H2. apply N.compare_lt_iff.
    eapply N.lt_trans; eauto.
  - apply N.compare_gt_iff in H1, H2. apply N.compare_gt_iff.
    eapply N.lt_trans; eauto.
Qed.

Lemma string_compare_lt_trans x : forall y z,
  String.compare x y = Lt -> String.compare y z = Lt ->
  String.compare x z = Lt.
Proof.
  induction x as [|a x IH]; intros [|b y] [|c z]; simpl; try discriminate;
    auto.
  destruct (Ascii.compare a b) eqn:Hab; try discriminate;
    destruct (Ascii.compare b c) eqn:Hbc; try discriminate; intros H1 H2.
  - rewrite (ascii_compare_trans _ _ _ Hab Hbc). eauto.
  - apply Ascii.compare_eq_iff in Hab. subst. now rewrite Hbc.
  - apply Ascii.compare_eq_iff in Hbc. subst. now rewrite Hab.
  - now rewrite (ascii_compare_trans _ _ _ Hab Hbc).
Qed.

Lemma leb_trans x y z :
  String.leb x y = true -> String.leb y z = true -> String.leb x z = true.
Proof.
  unfold String.leb.
  destruct (String.compare x y) eqn:Hxy; try discriminate;
    destruct (String.compare y z) eqn:Hyz; try discriminate; intros _ _.
  - apply String.compare_eq_iff in Hxy. subst. now rewrite Hyz.
  - apply String.compare_eq_iff in Hxy. subst. now rewrite Hyz.
  - apply String.compare_eq_iff in Hyz. subst. now rewrite Hxy.
  - now rewrite (string_compare_lt_trans _ _ _ Hxy Hyz).
Qed.

Lemma insertSorted_comm a b l :
  insertSorted a (insertSorted b l) = insertSorted b (insertSorted a l).
Proof.
  induction l as [|x l IH]; simpl.
  - destruct (String.leb a b) eqn:Hab, (String.leb b a) eqn:Hba;
      try reflexivity.
    + now rewrite (String.leb_antisym _ _ Hab Hba).
    + destruct (String.leb_total a b); congruence.
  - destruct (String.leb b x) eqn:Hbx, (String.leb a x) eqn:Hax; simpl;
      rewrite ?Hbx, ?Hax.
    + destruct (String.leb a b) eqn:Hab, (String.leb b a) eqn:Hba;
        try reflexivity.
      * now rewrite (String.leb_antisym _ _ Hab Hba).
      * destruct (String.leb_total a b); congruence.
    + destruct (String.leb a b) eqn:Hab; [|reflexivity].
      rewrite (leb_trans _ _ _ Hab Hbx) in Hax. discriminate.
    + destruct (String.leb b a) eqn:Hba; [|reflexivity].
      rewrite (leb_trans _ _ _ Hba Hax) in Hbx. discriminate.
    + now rewrite IH.
Qed.

Lemma insertSorted_perm a l : Permutation (insertSorted a l) (a :: l).
Proof.
  induction l as [|x l IH]; simpl; [reflexivity|].
  destruct (String.leb a x); [reflexivity|].
  rewrite IH. apply perm_swap.
Qed.

Lemma sort_perm l : Permutation (sort l) l.
Proof.
  induction l as [|a l IH]; simpl; [constructor|].
  rewrite insertSorted_perm. now constructor.
Qed.

Lemma sort_permutation_eq l l' : Permutation l l' -> sort l = sort l'.
Proof.
  induction 1 as [|x l l' _ IH|x y l|l l' l'' _ IH1 _ IH2]; simpl.
  - reflexivity.
  - now rewrite IH.
  - apply insertSorted_comm.
  - congruence.
Qed.

Lemma sort_length l : List.length (sort l) = List.length l.
Proof. apply Permutation_length, sort_perm. Qed.

(** Joining with a separator that the items lack loses nothing. *)
Lemma split_lacks sep s : lacks sep s = true -> Str.split sep s = [s].
Proof.
  unfold lacks. induction s as [|c s IH]; [reflexivity|].
  cbn [Str.forallb Str.split].
  destruct (Ascii.eqb c sep); cbn [negb andb]; [discriminate|].
  intros H. now rewrite (IH H).
Qed.

Lemma split_app_sep sep s t :
  lacks sep s = true ->
  Str.split sep (s ++ String sep t) = s :: Str.split sep t.
Proof.
  unfold lacks. induction s as [|c s IH].
  - intros _. simpl. now rewrite Ascii.eqb_refl.
  - cbn [Str.forallb]. change (String c s ++ String sep t)%string
      with (String c (s ++ String sep t)). cbn [Str.split].
    destruct (Ascii.eqb c sep); cbn [negb andb]; [discriminate|].
    intros H. now rewrite (IH H).
Qed.

Lemma split_join sep l :
  l <> [] -> Forall (fun s => lacks sep s = true) l ->
  Str.split sep (Str.join (String sep EmptyString) l) = l.
Proof.
  induction l as [|s l IH]; [congruence|]. intros _ Hall.
  inversion Hall as [|? ? Hs Hl]; subst.
  destruct l as [|t l].
  - simpl. now apply split_lacks.
  - change (Str.join (String sep "") (s :: t :: l))
      with (s ++ String sep (Str.join (String sep "") (t :: l)))%string.
    rewrite split_app_sep by exact Hs. f_equal. apply IH; [discriminate|exact Hl].
Qed.

End ArrayFacts.

(** X1: [arrayUnique] returns the items of the array without repetition:
    the result has no duplicate, holds exactly the items of the array,
    and is the array itself when that has no duplicate. *)
Theorem arrayUnique_spec : forall array,
  NoDup (Utils.arrayUnique array)
  /\ (forall x, In x (Utils.arrayUnique array) <-> In x array)
  /\ (NoDup array -> Utils.arrayUnique array = array)
  /\ Utils.arrayUnique (Utils.arrayUnique array) = Utils.arrayUnique array.
Proof.
  intros array. split; [apply arrayUnique_NoDup|].
  split; [intros x; apply arrayUnique_In|].
  split; [apply arrayUnique_fixed|].
  apply arrayUnique_fixed, arrayUnique_NoDup.
Qed.

Lemma arrayUnique_spec_witness :
  Utils.arrayUnique ["a"; "b"; "c"] = ["a"; "b"; "c"].
Proof.
  refine (proj1 (proj2 (proj2 (arrayUnique_spec ["a"; "b"; "c"]))) _).
  repeat constructor; simpl; intuition discriminate.
Defined.

(** X2: [arrayValuesMatch] answers [true] for two arrays that hold the
    same values as often, in whatever order; when no value contains a
    comma it answers [true] only for such arrays.  Values with commas
    can make it answer [true] for arrays of different values.  When the
    lengths are equal both arrays are left sorted. *)
Theorem arrayValuesMatch_spec : forall array1 array2,
  (Permutation array1 array2 ->
   fst (Utils.arrayValuesMatch array1 array2) = true)
  /\ (Forall (fun s => Utils.lacks "," s = true) (array1 ++ array2) ->
      fst (Utils.arrayValuesMatch array1 array2) = true ->
      Permutation array1 array2)
  /\ (List.length array1 = List.length array2 ->
      snd (Utils.arrayValuesMatch array1 array2)
      = (Utils.sort array1, Utils.sort array2))
  /\ (List.length array1 <> List.length array2 ->
      Utils.arrayValuesMatch array1 array2 = (false, (array1, array2)))
  /\ fst (Utils.arrayValuesMatch ["a,b"; "c"] ["a"; "b,c"]) = true.
Proof.
  intros array1 array2. unfold Utils.arrayValuesMatch.
  split; [|split; [|split; [|split; [|reflexivity]]]].
  - intros Hp. rewrite (Permutation_length Hp), Nat.eqb_refl. simpl.
    rewrite (sort_permutation_eq Hp). apply String.eqb_refl.
  - intros Hall.
    destruct (Nat.eqb_spec (List.length array1) (List.length array2))
      as [Hlen|]; [|discriminate].
    cbn [fst]. intros Hjoin. apply String.eqb_eq in Hjoin.
    apply Forall_app in Hall. destruct Hall as [H1 H2].
    assert (Hs : forall l, Forall (fun s => Utils.lacks "," s = true) l ->
                 Forall (fun s => Utils.lacks "," s = true) (Utils.sort l)).
    { intros l Hl. rewrite Forall_forall in *. intros x Hx. apply Hl.
      eapply Permutation_in; [apply sort_perm | exact Hx]. }
    destruct array1 as [|a1 r1].
    + destruct array2; [constructor | discriminate].
    + destruct array2 as [|a2 r2]; [discriminate|].
      assert (Hne : forall l : list string, l <> [] -> Utils.sort l <> []).
      { intros l Hl Hnil. apply Hl, length_zero_iff_nil.
        rewrite <- sort_length, Hnil. reflexivity. }
      assert (Hn1 : a1 :: r1 <> []) by discriminate.
      assert (Hn2 : a2 :: r2 <> []) by discriminate.
      assert (Heq : Utils.sort (a1 :: r1) = Utils.sort (a2 :: r2)).
      { rewrite <- (@split_join "," _ (Hne _ Hn1) (Hs _ H1)).
        rewrite <- (@split_join "," _ (Hne _ Hn2) (Hs _ H2)).
        now rewrite Hjoin. }
      rewrite <- (sort_perm (a1 :: r1)), Heq. apply sort_perm.
  - intros Hlen. rewrite Hlen, Nat.eqb_refl. reflexivity.
  - intros Hlen. destruct (Nat.eqb_spec (List.length array1) (List.length array2));
      [contradiction | reflexivity].
Qed.

Lemma arrayValuesMatch_spec_witness :
  fst (Utils.arrayValuesMatch ["name"; "age"] ["age"; "name"]) = true
  /\ Permutation ["name"; "age"] ["age"; "name"].
Proof.
  assert (Hp : Permutation ["name"; "age"] ["age"; "name"])
    by apply perm_swap.
  split; [|exact Hp].
  exact (proj1 (arrayValuesMatch_spec ["name"; "age"] ["age"; "name"]) Hp).
Defined.

(** *** Words of a friendly name *)

Section WordFacts.
Import FriendlyName FriendlyNameMore.

Lemma capitalRun_app s : forall m rest,
  capitalRun s = Some (m, rest) ->
  s = (m ++ rest)%string /\ fromFirstCapital rest = rest.
Proof.
  induction s as [|c s IH]; simpl; intros m rest.
  - intros [= <- <-]. auto.
  - destruct (Str.isUpper c) eqn:Hc; [|discriminate].
    destruct (capitalRun s) as [[m' rest']|].
    + intros [= <- <-]. destruct (IH _ _ eq_refl) as [-> Hr]. auto.
    + intros [= <- <-]. simpl. rewrite Hc. auto.
Qed.

Lemma nonCapitalRun_app s :
  s = (fst (nonCapitalRun s) ++ snd (nonCapitalRun s))%string
  /\ fromFirstCapital (snd (nonCapitalRun s)) = snd (nonCapitalRun s).
Proof.
  induction s as [|c s IH]; simpl; [auto|].
  destruct (Str.isUpper c) eqn:Hc; simpl.
  - rewrite Hc. auto.
  - destruct (nonCapitalRun s) as [m rest]. simpl in *.
    destruct IH as [IH1 IH2]. split; [now rewrite <- IH1 | exact IH2].
Qed.

Lemma wordAt_app s w rest :
  wordAt s = Some (w, rest) ->
  s = (w ++ rest)%string /\ startsWithCapital w
  /\ fromFirstCapital rest = rest.
Proof.
  destruct s as [|c s]; simpl; [discriminate|].
  destruct (Str.isUpper c) eqn:Hc; [|discriminate].
  destruct (capitalRun s) as [[m r]|] eqn:Hrun.
  - intros [= <- <-]. destruct (capitalRun_app _ Hrun) as [-> Hr].
    repeat split; [|exact Hr]. exists c, m. auto.
  - pose proof (nonCapitalRun_app s) as [H1 H2].
    destruct (nonCapitalRun s) as [m r]. simpl in *. intros [= <- <-].
    repeat split; [simpl; congruence | | exact H2]. exists c, m. auto.
Qed.

Lemma wordAt_none s :
  wordAt s = None -> fromFirstCapital s = fromFirstCapital (Str.slice1 s).
Proof.
  destruct s as [|c s]; simpl; [reflexivity|].
  destruct (Str.isUpper c); [|reflexivity].
  destruct (capitalRun s) as [[m r]|]; [discriminate|].
  destruct (nonCapitalRun s); discriminate.
Qed.

Lemma join_empty_cons w l :
  Str.join "" (w :: l) = (w ++ Str.join "" l)%string.
Proof.
  destruct l as [|x l]; simpl; [|reflexivity].
  induction w as [|c w IH]; simpl; [reflexivity|]. now rewrite <- IH.
Qed.

Lemma wordsFrom_spec fuel : forall s,
  String.length s <= fuel ->
  Str.join "" (wordsFrom fuel s) = fromFirstCapital s
  /\ Forall startsWithCapital (wordsFrom fuel s).
Proof.
  induction fuel as [|fuel IH]; intros s Hlen.
  - destruct s; [simpl; auto | simpl in Hlen; lia].
  - destruct s as [|c s]; [simpl; auto|].
    cbn [wordsFrom].
    destruct (wordAt (String c s)) as [[w rest]|] eqn:Hw.
    + pose proof (wordAt_length _ Hw) as Hl.
      destruct (wordAt_app _ Hw) as (Hs & Hcap & Hrest).
      destruct (IH rest) as [IH1 IH2]; [simpl in *; lia|].
      split; [|constructor; assumption].
      rewrite join_empty_cons, IH1, Hrest, <- Hs.
      destruct Hcap as (c' & m & -> & Hc'). simpl in Hs.
      injection Hs as -> _. simpl. now rewrite Hc'.
    + destruct (IH s) as [IH1 IH2]; [simpl in *; lia|].
      split; [|exact IH2]. rewrite IH1.
      apply wordAt_none in Hw. now rewrite Hw.
Qed.

Lemma fromFirstCapital_none s :
  Str.forallb (fun c => negb (Str.isUpper c)) s = true ->
  fromFirstCapital s = EmptyString.
Proof.
  induction s as [|c s IH]; simpl; [reflexivity|].
  destruct (Str.isUpper c); simpl; [discriminate | exact IH].
Qed.

End WordFacts.

(** X3: the words of [toFriendlyName] are cut out of the Pascal-cased
    string without losing or changing a character from its first capital
    on: each word starts with a capital, and joined without separator
    they give the string from its first capital on.  What comes before
    the first capital is dropped; a string without a capital has no
    word, and its friendly name is empty. *)
Theorem words_concat : forall s,
  Str.join "" (FriendlyName.words s) = FriendlyNameMore.fromFirstCapital s
  /\ Forall FriendlyNameMore.startsWithCapital (FriendlyName.words s)
  /\ (Str.forallb (fun c => negb (Str.isUpper c)) s = true ->
      FriendlyName.words s = []).
Proof.
  intros s. destruct (@wordsFrom_spec (String.length s) s (le_n _)) as [H1 H2].
  change (FriendlyName.wordsFrom (String.length s) s)
    with (FriendlyName.words s) in H1, H2.
  split; [exact H1|]. split; [exact H2|].
  intros Hnone. rewrite (fromFirstCapital_none _ Hnone) in H1.
  destruct (FriendlyName.words s) as [|w l]; [reflexivity|].
  inversion H2 as [|? ? (c & m & -> & _) _]; subst.
  rewrite join_empty_cons in H1. simpl in H1. discriminate.
Qed.

Lemma words_concat_witness : FriendlyName.words "_id" = [].
Proof.
  exact (proj2 (proj2 (words_concat "_id")) eq_refl).
Defined.

(** *** Model names and types *)

Section NameFacts.
Import MongooseAdapter.

Lemma upper_lower_upper c :
  Str.isUpper c = true -> Str.toUpperChar (Str.toLowerChar c) = c.
Proof.
  destruct c as [[] [] [] [] [] [] [] []]; try discriminate; reflexivity.
Qed.

Lemma lower_not_upper c :
  Str.isUpper c = false -> Str.toLowerChar c = c.
Proof. unfold Str.toLowerChar. now intros ->. Qed.

Lemma lacks_app sep s t :
  Utils.lacks sep (s ++ t) = Utils.lacks sep s && Utils.lacks sep t.
Proof.
  unfold Utils.lacks. induction s as [|c s IH]; simpl; [reflexivity|].
  now rewrite IH, andb_assoc.
Qed.

Lemma ucFirst_app w t :
  w <> EmptyString -> Str.ucFirst (w ++ t) = (Str.ucFirst w ++ t)%string.
Proof. destruct w; [congruence | reflexivity]. Qed.

Lemma append_assoc (a b c : string) :
  ((a ++ b) ++ c = a ++ (b ++ c))%string.
Proof. induction a as [|x a IH]; simpl; [reflexivity | now rewrite IH]. Qed.

(** The words of a hyphenated, lower-cased name, capitalised and put
    together again, give the name. *)
Lemma unhyphenate r : forall w,
  Utils.lacks "-" r = true -> Utils.lacks "-" w = true -> w <> EmptyString ->
  Str.join ""
    (List.map Str.ucFirst
       (Str.split "-" (w ++ Str.toLowerCase (hyphenateCapitals r))))
  = (Str.ucFirst w ++ r)%string.
Proof.
  induction r as [|d r IH]; intros w Hr Hw Hne.
  - change (Str.toLowerCase (hyphenateCapitals "")) with "".
    rewrite (split_lacks "-" (w ++ "")).
    + simpl. destruct w; [congruence|]. simpl. reflexivity.
    + now rewrite lacks_app, Hw.
  - unfold Utils.lacks in Hr. cbn [Str.forallb] in Hr.
    apply andb_prop in Hr. destruct Hr as [Hd Hr].
    cbn [hyphenateCapitals]. destruct (Str.isUpper d) eqn:Hup.
    + cbn [Str.toLowerCase Str.map].
      change (Str.toLowerChar "-") with "-"%char.
      rewrite split_app_sep by exact Hw.
      cbn [List.map]. rewrite join_empty_cons.
      change (String (Str.toLowerChar d)
                (Str.toLowerCase (hyphenateCapitals r)))
        with (String (Str.toLowerChar d) "" ++
              Str.toLowerCase (hyphenateCapitals r))%string.
      rewrite (IH (String (Str.toLowerChar d) "") Hr).
      * simpl. now rewrite (upper_lower_upper _ Hup).
      * unfold Utils.lacks. simpl.
        destruct d as [[] [] [] [] [] [] [] []]; try discriminate; reflexivity.
      * discriminate.
    + cbn [Str.toLowerCase Str.map]. rewrite (lower_not_upper _ Hup).
      change (w ++ String d (Str.toLowerCase (hyphenateCapitals r)))%string
        with (w ++ (String d "" ++ Str.toLowerCase (hyphenateCapitals r)))%string.
      rewrite <- append_assoc.
      rewrite (IH (w ++ String d "")%string Hr).
      * rewrite ucFirst_app by exact Hne. now rewrite append_assoc.
      * rewrite lacks_app, Hw. unfold Utils.lacks. simpl. now rewrite Hd.
      * destruct w; [congruence | discriminate].
Qed.

End NameFacts.

(** X4: for a model name of ASCII characters, [getModelName] undoes
    [getType] when the name starts with a capital and has no hyphen, and
    singularizing the last word of the pluralized type gives back its
    words: the type of [SchoolTeacher] leads back to [SchoolTeacher].  A
    model name that does not start with a capital loses its first
    character in its type. *)
Theorem getModelName_getType : forall pluralizer singularizer c rest,
  Engine.isAscii (String c rest) = true ->
  (Str.isUpper c = true ->
   Utils.lacks "-" rest = true ->
   MongooseAdapter.mapLast singularizer
     (Str.split "-" (MongooseAdapter.getType (String c rest) pluralizer))
   = Str.split "-"
       (Str.toLowerCase
          (Str.slice1 (MongooseAdapter.hyphenateCapitals (String c rest)))) ->
   MongooseAdapter.getModelName
     (MongooseAdapter.getType (String c rest) pluralizer) singularizer
   = String c rest)
  /\ (Str.isUpper c = false ->
      MongooseAdapter.getType (String c rest) pluralizer
      = pluralizer
          (Str.toLowerCase (MongooseAdapter.hyphenateCapitals rest))).
Proof.
  intros pl sg c rest _. split.
  - intros Hc Hrest Hinv. unfold MongooseAdapter.getModelName. rewrite Hinv.
    cbn [MongooseAdapter.hyphenateCapitals]. rewrite Hc.
    cbn [Str.slice1 Str.toLowerCase Str.map].
    change (String (Str.toLowerChar c)
              (Str.toLowerCase (MongooseAdapter.hyphenateCapitals rest)))
      with (String (Str.toLowerChar c) "" ++
            Str.toLowerCase (MongooseAdapter.hyphenateCapitals rest))%string.
    rewrite unhyphenate.
    + simpl. now rewrite (upper_lower_upper _ Hc).
    + exact Hrest.
    + unfold Utils.lacks. simpl.
      destruct c as [[] [] [] [] [] [] [] []]; try discriminate; reflexivity.
    + discriminate.
  - intros Hc. unfold MongooseAdapter.getType.
    cbn [MongooseAdapter.hyphenateCapitals]. now rewrite Hc.
Qed.

Lemma getModelName_getType_witness :
  MongooseAdapter.getType "SchoolTeacher" Sample.plural = "school-teachers"
  /\ MongooseAdapter.getModelName
       (MongooseAdapter.getType "SchoolTeacher" Sample.plural) Sample.singular
     = "SchoolTeacher".
Proof.
  split; [reflexivity|].
  refine (proj1 (getModelName_getType Sample.plural Sample.singular
                   "S" "choolTeacher" eq_refl) _ _ _); reflexivity.
Defined.

(* ================================================================= *)
(** ** More on [pseudoTopSort] *)

Section TopSortMoreFacts.
Import TopSort TopSortMore.

Variable E0 : Edges.
Variable R0 : list string.

Lemma Inv2_initial : Inv2 E0 R0 (initial E0 R0).
Proof.
  constructor; unfold seen; simpl.
  - auto.
  - reflexivity.
  - reflexivity.
Qed.

Lemma Inv2_step st st' :
  Inv2 E0 R0 st -> step st = Some st' -> Inv2 E0 R0 st'.
Proof.
  intros [Hsub Hcnt Hsz]. unfold step.
  destruct (roots st) as [|r rest] eqn:R; [discriminate|].
  intros [= <-].
  assert (Hseen : forall cs,
            (sortResult st ++ [r]) ++ rest ++ cs = seen st ++ cs).
  { intros cs. unfold seen. rewrite R, <- !app_assoc. reflexivity. }
  constructor; unfold seen; simpl; try rewrite Hseen.
  - intros k c. rewrite children_clearChildren.
    destruct (String.eqb k r); [intros [] | apply Hsub].
  - intros c Hc. rewrite count_occ_app, (Hcnt c Hc).
    rewrite (proj1 (count_occ_not_In string_dec
                      (children (edges st) r) c)); [lia|].
    intros Hin. apply (Hc r). now apply Hsub.
  - rewrite length_app.
    pose proof (edgeCount_clearChildren r (edges st)). lia.
Qed.

Lemma loop_Inv2 fuel : forall st sorted,
  Inv2 E0 R0 st -> loop fuel st = Some sorted ->
  exists final,
    Inv2 E0 R0 final /\ roots final = [] /\ sortResult final = sorted.
Proof.
  assert (Hstop : forall st, step st = None -> roots st = []).
  { intros st. unfold step. destruct (roots st); [reflexivity|discriminate]. }
  induction fuel as [|fuel IH]; intros st sorted HI; simpl;
    destruct (step st) as [st'|] eqn:S; try discriminate.
  - intros [= <-]. exists st. auto.
  - intros H. eapply IH; [|exact H]. eapply Inv2_step; eauto.
  - intros [= <-]. exists st. auto.
Qed.

(** The queue only grows at its end: what was output or queued stays in
    front. *)
Lemma loop_prefix fuel : forall st sorted,
  loop fuel st = Some sorted -> exists tail, sorted = seen st ++ tail.
Proof.
  assert (Hstep : forall st st', step st = Some st' ->
            exists cs, seen st' = seen st ++ cs).
  { intros st st'. unfold step.
    destruct (roots st) as [|r rest] eqn:R; [discriminate|].
    intros [= <-]. exists (children (edges st) r).
    unfold seen. simpl. rewrite R, <- !app_assoc. reflexivity. }
  assert (Hstop : forall st, step st = None -> seen st = sortResult st).
  { intros st. unfold step, seen.
    destruct (roots st); [now rewrite app_nil_r | discriminate]. }
  induction fuel as [|fuel IH]; intros st sorted; simpl;
    destruct (step st) as [st'|] eqn:S; try discriminate.
  - intros [= <-]. exists []. now rewrite app_nil_r, Hstop.
  - intros H. destruct (IH _ _ H) as [tail ->].
    destruct (Hstep _ _ S) as [cs ->].
    exists (cs ++ tail). now rewrite app_assoc.
  - intros [= <-]. exists []. now rewrite app_nil_r, Hstop.
Qed.

End TopSortMoreFacts.

Section TopSortMoreResults.
Import TopSort TopSortMore.

Lemma pseudoTopSort_final2 nodes es rs :
  exists final,
    Inv2 es rs final /\ roots final = []
    /\ sortResult final = pseudoTopSort nodes es rs.
Proof.
  pose proof (pseudoTopSort_opt_total nodes es rs) as H.
  unfold pseudoTopSort_opt in H.
  eapply loop_Inv2; [apply Inv2_initial | exact H].
Qed.

Lemma singleParent_twoTrees : singleParent SampleMore.twoTrees.
Proof.
  assert (Hch : forall p c, edge SampleMore.twoTrees p c ->
            (p = "A" /\ (c = "B" \/ c = "C")) \/ (p = "B" /\ c = "D")
            \/ (p = "E" /\ c = "F")).
  { intros p c. unfold edge, children. simpl.
    destruct (String.eqb_spec p "A") as [->|_];
      [simpl; intuition congruence|].
    destruct (String.eqb_spec p "B") as [->|_];
      [simpl; intuition congruence|].
    destruct (String.eqb_spec p "E") as [->|_];
      [simpl; intuition congruence|].
    intros []. }
  split.
  - intros p1 p2 c H1 H2. apply Hch in H1, H2.
    destruct H1 as [[-> [->| ->]]|[[-> ->]|[-> ->]]];
      destruct H2 as [[-> [H| H]]|[[-> H]|[-> H]]];
      try reflexivity; discriminate.
  - intros p. unfold children. simpl.
    destruct (String.eqb p "A");
      [repeat constructor; simpl; intuition discriminate|].
    destruct (String.eqb p "B");
      [repeat constructor; simpl; intuition discriminate|].
    destruct (String.eqb p "E");
      [repeat constructor; simpl; intuition discriminate|].
    constructor.
Qed.

Lemma forest_twoTrees : forest SampleMore.twoTrees ["A"; "E"].
Proof.
  split; [exact singleParent_twoTrees|]. split.
  - repeat constructor; simpl; intuition discriminate.
  - intros p r Hr. unfold edge, children. simpl.
    destruct (String.eqb p "A");
      [destruct Hr as [<-|[<-|[]]]; simpl; intuition discriminate|].
    destruct (String.eqb p "B");
      [destruct Hr as [<-|[<-|[]]]; simpl; intuition discriminate|].
    destruct (String.eqb p "E");
      [destruct Hr as [<-|[<-|[]]]; simpl; intuition discriminate|].
    intros [].
Qed.

End TopSortMoreResults.

(** X5: whatever the edges, cycles and shared end nodes included, the
    output of [pseudoTopSort] starts with the roots in the order given,
    and what follows them is no longer than the number of edges: every
    edge is followed at most once. *)
Theorem pseudoTopSort_roots_first : forall nodes edges roots,
  exists tail,
    TopSort.pseudoTopSort nodes edges roots = roots ++ tail
    /\ List.length tail <= TopSort.edgeCount edges.
Proof.
  intros nodes es rs.
  pose proof (pseudoTopSort_opt_total nodes es rs) as H.
  unfold TopSort.pseudoTopSort_opt in H.
  destruct (loop_prefix _ _ H) as [tail Ht]. exists tail.
  split; [exact Ht|].
  destruct (pseudoTopSort_final2 nodes es rs) as (final & HI & Hr & Hs).
  pose proof (TopSortMore.inv_size HI) as Hsz.
  unfold TopSort.seen in Hsz. rewrite Hr, Hs, app_nil_r, Ht in Hsz.
  unfold TopSort.seen in Hsz. simpl in Hsz.
  rewrite length_app in Hsz. lia.
Qed.

(** X6: when no node has two incoming edges, the roots are distinct and
    no edge leads to a root, the output of [pseudoTopSort] lists the
    nodes reachable from the roots, each of them once. *)
Theorem pseudoTopSort_forest_no_duplicates : forall nodes edges roots,
  TopSortMore.forest edges roots ->
  NoDup (TopSort.pseudoTopSort nodes edges roots)
  /\ forall n, In n (TopSort.pseudoTopSort nodes edges roots)
               <-> TopSort.reachable edges roots n.
Proof.
  intros nodes es rs (Hsp & Hnd & Hroot).
  split; [|intros n; apply pseudoTopSort_reachable].
  destruct (pseudoTopSort_final nodes es rs) as (final & HI & Hr & Hs).
  destruct (pseudoTopSort_final2 nodes es rs) as (final2 & HI2 & Hr2 & Hs2).
  assert (Hseen : TopSort.seen final = TopSort.pseudoTopSort nodes es rs).
  { unfold TopSort.seen. rewrite Hr, Hs. apply app_nil_r. }
  assert (Hseen2 : TopSort.seen final2 = TopSort.pseudoTopSort nodes es rs).
  { unfold TopSort.seen. rewrite Hr2, Hs2. apply app_nil_r. }
  apply (NoDup_count_occ string_dec). intros c.
  destruct (in_dec string_dec c rs) as [Hin|Hnin].
  - rewrite <- Hseen2, (TopSortMore.inv_root_count HI2).
    + now apply (NoDup_count_occ string_dec).
    + intros p. now apply Hroot.
  - rewrite <- Hseen.
    destruct (Exists_dec (fun p => In c (TopSort.children es p))
                (TopSort.sortResult final)
                (fun p => in_dec string_dec c (TopSort.children es p)))
      as [Hex|Hnex].
    + apply Exists_exists in Hex. destruct Hex as (p & Hp & He).
      rewrite (proj1 (TopSort.inv_once HI Hsp c Hnin)); [lia|].
      exists p. split; assumption.
    + rewrite (proj2 (TopSort.inv_once HI Hsp c Hnin)); [lia|].
      intros p Hp He. apply Hnex. apply Exists_exists. exists p.
      split; assumption.
Qed.

Lemma pseudoTopSort_forest_no_duplicates_witness :
  TopSortMore.forest SampleMore.twoTrees ["A"; "E"]
  /\ NoDup (TopSort.pseudoTopSort [] SampleMore.twoTrees ["A"; "E"]).
Proof.
  split; [exact forest_twoTrees|].
  exact (proj1 (pseudoTopSort_forest_no_duplicates []
                  forest_twoTrees)).
Defined.

(* ================================================================= *)
(** ** More on [deleteNested] *)

(** X7: when the last part of the path is not also one of the parts
    before it, [deleteNested] run a second time on the same path does
    not delete again: it does not return [true], and it returns [false],
    leaving everything as the first run left it, unless the property
    deleted was [hasOwnProperty] itself.  (When the last part occurs
    earlier in the path, the deletion can change where the path leads,
    and a second run can delete from another object.) *)
Theorem deleteNested_again : forall realm H path object b H',
  let pathParts := Str.split "." path in
  let lastPart := List.last pathParts "" in
  let containingParts := List.removelast pathParts in
  ~ In lastPart containingParts ->
  Heap.Misc.deleteNested realm H path object = Heap.Returned b H' ->
  (forall H'',
      Heap.Misc.deleteNested realm H' path object
      <> Heap.Returned true H'')
  /\ (lastPart <> "hasOwnProperty" ->
      Heap.Misc.deleteNested realm H' path object = Heap.Returned false H').
Proof.
  intros rl H path object b H' pathParts lastPart containingParts Hnot Hrun.
  destruct b.
  - apply deleteNested_Returned_true, attempt_Deleted in Hrun.
    destruct Hrun as (l & o & p & m & f & Hnav & Hl & He & _ & _ & Hget & Hm
                      & Hf & ->).
    destruct (@attempt_after_removal rl H path object l o Hnot Hnav Hl He)
      as [Hnever Hfails].
    split.
    + intros H'' Hagain. apply deleteNested_Returned_true in Hagain.
      exact (Hnever H'' Hagain).
    + intros Hlast. unfold Heap.Misc.deleteNested.
      now rewrite (Hfails m f Hlast Hget Hm Hf).
  - destruct (deleteNested_Returned_false _ _ _ _ Hrun) as [-> Hfail].
    unfold Heap.Misc.deleteNested. rewrite Hfail.
    split; [discriminate | reflexivity].
Qed.

Lemma deleteNested_again_witness :
  Heap.Misc.deleteNested HeapSample.sampleRealm
    (Heap.removeProperty HeapSample.sampleHeap HeapSample.contact "phone")
    "contact.phone" (Heap.HRef HeapSample.user)
  = Heap.Returned false
      (Heap.removeProperty HeapSample.sampleHeap HeapSample.contact "phone").
Proof.
  refine (proj2 (@deleteNested_again HeapSample.sampleRealm
                   HeapSample.sampleHeap "contact.phone"
                   (Heap.HRef HeapSample.user) true _ _ eq_refl) _).
  - simpl. intros [H|[]]. discriminate.
  - discriminate.
Defined.

(** Without the condition on the path a second run can delete again:
    on an empty object the path below first deletes the [constructor] of
    [Function.prototype], after which it leads to [Object.prototype],
    whose [constructor] the second run deletes. *)
Lemma deleteNested_again_through_constructor :
  Heap.Misc.deleteNested HeapSample.sampleRealm HeapSample.sampleHeap
    "constructor.constructor.prototype.constructor"
    (Heap.HRef HeapSample.emptyObject)
  = Heap.Returned true
      (Heap.removeProperty HeapSample.sampleHeap
         HeapSample.functionPrototype "constructor")
  /\ Heap.Misc.deleteNested HeapSample.sampleRealm
       (Heap.removeProperty HeapSample.sampleHeap
          HeapSample.functionPrototype "constructor")
       "constructor.constructor.prototype.constructor"
       (Heap.HRef HeapSample.emptyObject)
     = Heap.Returned true
         (Heap.removeProperty
            (Heap.removeProperty HeapSample.sampleHeap
               HeapSample.functionPrototype "constructor")
            HeapSample.objectPrototype "constructor").
Proof. split; reflexivity. Qed.

(** X8: after [deleteNested] returned [true], the object the path led to
    has no own property of the name of the last part, and every other
    own property of every object is as before.  Reading the path again
    gives what the prototype chain of that object holds under the name
    (when the last part is not also one of the parts before it), and a
    path that does not mention the name reads from any value what it
    read before. *)
Theorem deleteNested_path_gone : forall realm H path object H',
  let pathParts := Str.split "." path in
  let lastPart := List.last pathParts "" in
  let containingParts := List.removelast pathParts in
  Heap.Misc.deleteNested realm H path object = Heap.Returned true H' ->
  (exists l o,
      Heap.reduceGet realm H containingParts object = Heap.Got (Heap.HRef l)
      /\ H l = Some o
      /\ (forall l' k',
             Heap.getOwnProperty H' (Heap.HRef l') k'
             = if Nat.eqb l' l && String.eqb k' lastPart then Heap.NotOwn
               else Heap.getOwnProperty H (Heap.HRef l') k')
      /\ (~ In lastPart containingParts ->
          Heap.reduceGet realm H' pathParts object
          = Heap.findInChain H' (Heap.o_chain o) lastPart))
  /\ (forall parts start,
         ~ In lastPart parts ->
         Heap.reduceGet realm H' parts start
         = Heap.reduceGet realm H parts start).
Proof.
  intros rl H path object H' pathParts lastPart containingParts Hrun.
  apply deleteNested_Returned_true, attempt_Deleted in Hrun.
  destruct Hrun as (l & o & p & m & f & Hnav & Hl & He & _ & _ & _ & _ & _
                    & ->).
  fold pathParts lastPart. split.
  - exists l, o. split; [exact Hnav|]. split; [exact Hl|]. split.
    + intros l' k'.
      exact (@getOwnProperty_removeProperty H l lastPart o l' k' Hl He).
    + intros Hnot.
      assert (Hsplit : pathParts = containingParts ++ [lastPart])
        by (apply app_removelast_last, split_nonempty).
      rewrite Hsplit, reduceGet_app.
      rewrite reduceGet_removeProperty by exact Hnot.
      fold pathParts containingParts in Hnav. rewrite Hnav.
      cbn [Heap.reduceGet Heap.get].
      rewrite (@removeProperty_same H l lastPart o Hl).
      cbn [Heap.o_chain Heap.findInChain].
      rewrite (@removeProperty_same H l lastPart o Hl).
      cbn [Heap.o_exotic Heap.o_props]. rewrite He, lookup_remove_same.
      destruct (Heap.findInChain _ (Heap.o_chain o) lastPart); reflexivity.
  - intros parts start Hnot. now apply reduceGet_removeProperty.
Qed.

Lemma deleteNested_path_gone_witness :
  Heap.reduceGet HeapSample.sampleRealm
    (Heap.removeProperty HeapSample.sampleHeap HeapSample.shadowing
       "toString")
    ["toString"] (Heap.HRef HeapSample.shadowing)
  = Heap.Got (Heap.HRef HeapSample.toStringFunction).
Proof.
  destruct (proj1 (@deleteNested_path_gone HeapSample.sampleRealm
                     HeapSample.sampleHeap "toString"
                     (Heap.HRef HeapSample.shadowing) _ eq_refl))
    as (l & o & Hnav & Hl & _ & Hread).
  injection Hnav as <-. injection Hl as <-.
  refine (eq_trans (Hread _) _); [intros [] | reflexivity].
Defined.

(* ================================================================= *)
(** ** More on [docToResource] and [docsToResourceOrCollection] *)

Section DocFacts.
Import JS Misc MongooseAdapter MongooseAdapterMore.

Variable pluralize_plural : string -> string.

Lemma has_remove (A : Type) k k' (props : list (string * A)) :
  Obj.has k (Obj.remove k' props) = negb (String.eqb k k') && Obj.has k props.
Proof.
  unfold Obj.has. destruct (String.eqb_spec k k') as [->|Hne]; simpl.
  - now rewrite lookup_remove_same.
  - now rewrite lookup_remove_other.
Qed.

Lemma has_selectAttrs attrs selected k :
  Obj.has k (selectAttrs attrs selected) = true ->
  Obj.has k attrs = true /\ arrayContains selected k = true.
Proof.
  unfold Obj.has. rewrite lookup_selectAttrs.
  destruct (arrayContains selected k); [|discriminate].
  destruct (Obj.lookup k attrs); [auto | discriminate].
Qed.

Lemma has_cleanAttrs doc selected k :
  Obj.has k (cleanAttrs doc selected) = true ->
  Obj.has k (d_json doc) = true
  /\ isSelected selected k = true
  /\ k <> "id" /\ k <> "_id"
  /\ k <> versionKey (schema (d_model doc))
  /\ k <> discriminatorKey (schema (d_model doc)).
Proof.
  unfold cleanAttrs, isSelected. intros H.
  assert (Hall : Obj.has k
            (Obj.remove (discriminatorKey (schema (d_model doc)))
               (Obj.remove (versionKey (schema (d_model doc)))
                  (Obj.remove "_id" (Obj.remove "id" (d_json doc))))) = true
          /\ match selected with
             | Some fs => arrayContains fs k
             | None => true
             end = true).
  { destruct selected as [fs|]; [now apply has_selectAttrs | auto]. }
  destruct Hall as [Hk Hsel]. rewrite !has_remove in Hk.
  repeat (apply andb_prop in Hk; destruct Hk as [? Hk]).
  repeat match goal with
         | Hn : negb (String.eqb _ _) = true |- _ =>
             apply negb_true_iff, String.eqb_neq in Hn
         end.
  auto 10.
Qed.

Lemma deleteNested_keys p props :
  exists props',
    snd (deleteNested p (VObj props)) = VObj props'
    /\ forall k, Obj.has k props' = true -> Obj.has k props = true.
Proof.
  unfold deleteNested.
  destruct (List.removelast (Str.split "." p)) as [|part rest] eqn:Hc.
  - cbn [reduceGetProp hasOwnProperty].
    destruct (Obj.has "hasOwnProperty" props); [simpl; eauto|].
    destruct (Obj.has (List.last (Str.split "." p) "") props);
      cbn [deleteProp assignAt snd]; [|eauto].
    eexists; split; [reflexivity|]. intros k. rewrite has_remove.
    intros H. apply andb_prop in H. tauto.
  - destruct (reduceGetProp (part :: rest) (VObj props)) as [c|];
      [|simpl; eauto].
    destruct (hasOwnProperty c (List.last (Str.split "." p) ""))
      as [[|]|]; try (simpl; eauto; fail).
    destruct (deleteProp c (List.last (Str.split "." p) "")) as [c'|];
      [|simpl; eauto].
    cbn [snd assignAt].
    destruct (Obj.lookup part props) as [child|] eqn:L; [|eauto].
    eexists; split; [reflexivity|]. intros k. rewrite has_set.
    destruct (String.eqb_spec k part) as [->|]; simpl; [|auto].
    intros _. unfold Obj.has. now rewrite L.
Qed.

Lemma deleteNested_top_level_gone p props :
  Str.split "." p = [p] -> Obj.has "hasOwnProperty" props = false ->
  exists props',
    snd (deleteNested p (VObj props)) = VObj props'
    /\ Obj.has p props' = false.
Proof.
  intros Hp Hh. unfold deleteNested. rewrite Hp.
  cbn [List.last List.removelast reduceGetProp hasOwnProperty]. rewrite Hh.
  destruct (Obj.has p props) eqn:Hk; cbn [deleteProp assignAt snd].
  - eexists; split; [reflexivity | apply has_remove_same].
  - eauto.
Qed.

Lemma addRelationships_keys m selected paths :
  forall props rels attrs' rels',
  addRelationships pluralize_plural m selected paths (VObj props, rels)
  = inr (attrs', rels') ->
  exists props',
    attrs' = VObj props'
    /\ (forall k, Obj.has k props' = true -> Obj.has k props = true)
    /\ (Obj.has "hasOwnProperty" props = false ->
        forall p, In p paths -> isSelected selected p = true ->
                  Str.split "." p = [p] -> Obj.has p props' = false).
Proof.
  induction paths as [|q paths IH]; intros props rels attrs' rels';
    cbn [addRelationships].
  - intros [= <- <-]. exists props. repeat split; auto. intros _ p [].
  - destruct (addRelationship pluralize_plural m selected (VObj props, rels) q)
      as [e|[attrs1 rels1]] eqn:Hstep; cbn [bind]; [discriminate|].
    intros Hrest. apply addRelationship_inr in Hstep.
    destruct Hstep as [(Hno & -> & ->)|(Hsel & raw & t & _ & -> & ->)].
    + destruct (IH _ _ _ _ Hrest) as (props' & -> & Hsub & Hgone).
      exists props'. repeat split; auto.
      intros Hh p [<-|Hp] Hs Htop; [congruence | auto].
    + destruct (deleteNested_keys q props) as (props1 & Hd & Hsub1).
      rewrite Hd in Hrest.
      destruct (IH _ _ _ _ Hrest) as (props' & -> & Hsub & Hgone).
      exists props'. repeat split; auto.
      intros Hh p Hin Hs Htop.
      assert (Hh1 : Obj.has "hasOwnProperty" props1 = false).
      { destruct (Obj.has "hasOwnProperty" props1) eqn:E; [|reflexivity].
        apply Hsub1 in E. congruence. }
      destruct Hin as [<-|Hp]; [|auto].
      destruct (@deleteNested_top_level_gone q props Htop Hh)
        as (props2 & Hd2 & Hq).
      rewrite Hd in Hd2. injection Hd2 as <-.
      destruct (Obj.has q props') eqn:E; [|reflexivity].
      apply Hsub in E. congruence.
Qed.







Lemma mapM_Forall2 (A B : Type) (f : A -> Result B) l : forall bs,
  mapM f l = inr bs <-> Forall2 (fun a b => f a = inr b) l bs.
Proof.
  induction l as [|a l IH]; intros bs; simpl.
  - split; [intros [= <-]; constructor | intros H; now inversion H].
  - destruct (f a) as [e|b] eqn:Ha; simpl.
    + split; [discriminate|]. intros H. inversion H; subst. congruence.
    + destruct (mapM f l) as [e|bs'] eqn:Hl; simpl.
      * split; [discriminate|]. intros H. inversion H as [|? b' ? bs'' Hb Hr];
          subst. apply IH in Hr. discriminate.
      * split.
        -- intros [= <-]. constructor; [exact Ha | now apply IH].
        -- intros H. inversion H as [|? b' ? bs'' Hb Hr]; subst.
           apply IH in Hr. congruence.
Qed.

Lemma mapM_inl (A B : Type) (f : A -> Result B) l e :
  mapM f l = inl e -> exists a, In a l /\ f a = inl e.
Proof.
  induction l as [|a l IH]; simpl; [discriminate|].
  destruct (f a) as [e'|b] eqn:Ha; simpl.
  - intros [= <-]. eauto.
  - destruct (mapM f l) as [e'|bs]; simpl; [|discriminate].
    intros [= <-]. destruct (IH eq_refl) as (a' & Hin & Hf). eauto.
Qed.

Lemma mapM_fails (A B : Type) (f : A -> Result B) l a e :
  In a l -> f a = inl e -> exists e', mapM f l = inl e'.
Proof.
  induction l as [|x l IH]; simpl; [intros []|].
  intros [->|Hin] Ha.
  - rewrite Ha. simpl. eauto.
  - destruct (f x); simpl; [eauto|].
    destruct (IH Hin Ha) as [e' ->]. simpl. eauto.
Qed.

Lemma addRelationships_error m selected paths : forall acc e,
  addRelationships pluralize_plural m selected paths acc = inl e ->
  e = ETypeError.
Proof.
  induction paths as [|q paths IH]; intros acc e; cbn [addRelationships];
    [discriminate|].
  destruct (addRelationship pluralize_plural m selected acc q)
    as [e'|acc'] eqn:Hstep; cbn [bind].
  - intros [= <-]. unfold addRelationship in Hstep. destruct acc as [attrs rels].
    destruct (isSelected selected q); simpl in Hstep; [|discriminate].
    destruct (reduceGetProp (Str.split "." q) attrs); [|congruence].
    unfold getReferencedType in Hstep.
    destruct (getReferencedModelName m q); simpl in Hstep; congruence.
  - apply IH.
Qed.

Lemma docToResource_error doc pluralizer fields e :
  docToResource pluralize_plural doc pluralizer fields = inl e ->
  e = ETypeError.
Proof.
  unfold docToResource.
  destruct (addRelationships pluralize_plural (d_model doc) _ _ _)
    as [e'|res] eqn:H; cbn [bind]; [|discriminate].
  intros [= <-]. now apply addRelationships_error in H.
Qed.

Lemma entryToResource_error pluralizer fields entry e :
  entryToResource pluralize_plural pluralizer fields entry = inl e ->
  e = ETypeError.
Proof.
  destruct entry as [doc|]; simpl; [apply docToResource_error | congruence].
Qed.

End DocFacts.

(** X9: for a document whose model name is made of ASCII characters,
    when neither its type nor a selected field bears the name of a
    member of [Object.prototype], the attributes of the resource
    [docToResource] builds are a plain object whose keys are keys of the
    serialized document that the field selection lets through; [id],
    [_id], the version key and the discriminator key are never among
    them.  A selected top-level relationship path is moved out of the
    attributes, provided the serialized document has no field named
    [hasOwnProperty]. *)
Theorem docToResource_attributes :
  forall pluralize_plural doc pluralizer fields resource,
    let type :=
      MongooseAdapter.getType (modelName (d_model doc)) pluralizer in
    let selected := MongooseAdapter.selectedFields fields type in
    Engine.isAscii (modelName (d_model doc)) = true ->
    Engine.objectPrototypeMember type = false ->
    (forall names field,
        selected = Some names -> In field names ->
        Engine.objectPrototypeMember field = false) ->
    MongooseAdapter.docToResource pluralize_plural doc pluralizer fields
    = inr resource ->
    exists props,
      r_attrs resource = VObj props
      /\ (forall k,
             Obj.has k props = true ->
             Obj.has k (d_json doc) = true
             /\ MongooseAdapter.isSelected selected k = true
             /\ k <> "id" /\ k <> "_id"
             /\ k <> versionKey (schema (d_model doc))
             /\ k <> discriminatorKey (schema (d_model doc)))
      /\ (Obj.has "hasOwnProperty" (d_json doc) = false ->
          forall p,
            In p (MongooseAdapter.getReferencePaths (d_model doc)) ->
            MongooseAdapter.isSelected selected p = true ->
            Str.split "." p = [p] ->
            Obj.has p props = false).
Proof.
  intros pp doc pluralizer fields resource type selected _ _ _ Hdoc.
  unfold MongooseAdapter.docToResource in Hdoc.
  fold type in Hdoc. fold selected in Hdoc.
  destruct (MongooseAdapter.addRelationships pp (d_model doc) selected _ _)
    as [e|[attrs' rels']] eqn:Hfold; simpl in Hdoc; [discriminate|].
  injection Hdoc as <-. simpl.
  destruct (addRelationships_keys _ _ _ _ _ _ Hfold)
    as (props' & -> & Hsub & Hgone).
  exists props'. split; [reflexivity|]. split.
  - intros k Hk. now apply has_cleanAttrs, Hsub.
  - intros Hh. apply Hgone.
    destruct (Obj.has "hasOwnProperty"
                (MongooseAdapter.cleanAttrs doc selected)) eqn:E;
      [|reflexivity].
    apply has_cleanAttrs in E. destruct E as [E _]. congruence.
Qed.

Lemma docToResource_attributes_witness :
  exists props,
    VObj [("title", VStr "Hello")] = VObj props
    /\ (forall k,
           Obj.has k props = true ->
           Obj.has k (d_json Sample.taggedPost) = true
           /\ MongooseAdapter.isSelected
                (Some ["title"; "likes"; "tags"]) k = true
           /\ k <> "id" /\ k <> "_id" /\ k <> "__v" /\ k <> "__t")
    /\ (Obj.has "hasOwnProperty" (d_json Sample.taggedPost) = false ->
        forall p,
          In p ["author"; "tags"] ->
          MongooseAdapter.isSelected (Some ["title"; "likes"; "tags"]) p
          = true ->
          Str.split "." p = [p] ->
          Obj.has p props = false).
Proof.
  refine (@docToResource_attributes Sample.plural Sample.taggedPost
            Sample.plural (Some [("posts", ["title"; "likes"; "tags"])])
            _ eq_refl eq_refl _ eq_refl).
  intros names field [= <-] [<-|[<-|[<-|[]]]]; reflexivity.
Defined.



(* ================================================================= *)
(** ** More on the operations of the adapter *)

Section CollectionFacts.
Import JS Misc MongooseAdapter MongooseAdapterMore.

Variable pluralize_plural : string -> string.

Lemma entries_Forall2 pluralizer fields ds rs :
  mapM (entryToResource pluralize_plural pluralizer fields) ds = inr rs ->
  Forall2
    (fun d r =>
       exists doc,
         d = Some doc
         /\ docToResource pluralize_plural doc pluralizer fields = inr r)
    ds rs.
Proof.
  intros H. apply mapM_Forall2 in H.
  induction H as [|d r ds rs Hd _ IH]; constructor; [|exact IH].
  destruct d as [doc|]; simpl in Hd; [eauto | discriminate].
Qed.

Lemma entries_null pluralizer fields ds :
  In None ds ->
  mapM (entryToResource pluralize_plural pluralizer fields) ds
  = inl ETypeError.
Proof.
  intros Hin.
  destruct (@mapM_fails _ _
              (entryToResource pluralize_plural pluralizer fields)
              ds None ETypeError Hin eq_refl) as [e He].
  rewrite He. f_equal.
  apply mapM_inl in He. destruct He as (a & _ & Ha).
  now apply entryToResource_error in Ha.
Qed.

Lemma docsToResourceOrCollection_error docs makeCollection pluralizer fields e :
  docsToResourceOrCollection pluralize_plural docs makeCollection
    pluralizer fields = inl e ->
  (e = EApi noMatchError
   /\ (docs = DNull \/ (makeCollection = false /\ docs = DMany [])))
  \/ (e = ETypeError /\ docs <> DNull
      /\ (makeCollection = false -> docs <> DMany [])).
Proof.
  unfold docsToResourceOrCollection.
  destruct docs as [|d|ds].
  - intros [= <-]. left. auto.
  - destruct (mapM _ [Some d]) as [e'|rs] eqn:Hm; cbn [bind];
      [|discriminate].
    intros [= <-]. right. apply mapM_inl in Hm.
    destruct Hm as (a & _ & Ha). apply entryToResource_error in Ha.
    repeat split; [exact Ha | discriminate | discriminate].
  - destruct makeCollection; cbn [negb andb].
    + destruct (mapM _ ds) as [e'|rs] eqn:Hm; cbn [bind]; [|discriminate].
      intros [= <-]. right. apply mapM_inl in Hm.
      destruct Hm as (a & _ & Ha). apply entryToResource_error in Ha.
      repeat split; [exact Ha | discriminate | discriminate].
    + destruct ds as [|d ds]; cbn [List.length Nat.eqb].
      * intros [= <-]. left. auto.
      * destruct (mapM _ (d :: ds)) as [e'|rs] eqn:Hm; cbn [bind];
          [|discriminate].
        intros [= <-]. right. apply mapM_inl in Hm.
        destruct Hm as (a & _ & Ha). apply entryToResource_error in Ha.
        repeat split; [exact Ha | discriminate | discriminate].
Qed.

Lemma docsToResourceOrCollection_many ds makeCollection pluralizer fields :
  ds <> [] ->
  docsToResourceOrCollection pluralize_plural (DMany ds) makeCollection
    pluralizer fields
  = (resources <- mapM (entryToResource pluralize_plural pluralizer fields) ds ;;
     inr (if makeCollection then Collection resources
          else match resources with
               | first :: _ => OneResource first
               | [] => NoResource
               end)).
Proof.
  intros Hne. unfold docsToResourceOrCollection.
  destruct ds as [|d ds]; [congruence|].
  cbn [List.length Nat.eqb]. rewrite andb_false_r. reflexivity.
Qed.

Lemma docsToResourceOrCollection_collection ds pluralizer fields :
  docsToResourceOrCollection pluralize_plural (DMany ds) true
    pluralizer fields
  = (resources <- mapM (entryToResource pluralize_plural pluralizer fields) ds ;;
     inr (Collection resources)).
Proof. reflexivity. Qed.

End CollectionFacts.

Section UpdateFacts.
Import JS Misc MongooseAdapter MongooseAdapterMore.



End UpdateFacts.

(** X11: [docsToResourceOrCollection] fails with the [APIError] 404 exactly
    when the documents are [null], or an empty array of which a single
    resource is asked; its only other failure is the [TypeError] of a
    document that cannot be converted, as a [null] entry of an array
    cannot.  A collection holds the resources of the documents in their
    order, one for each; a single resource asked of an array is that of
    its first document, and yet every document of the array is
    converted. *)
Theorem docsToResourceOrCollection_outcomes :
  forall pluralize_plural docs makeCollection pluralizer fields,
    let run :=
      MongooseAdapter.docsToResourceOrCollection pluralize_plural docs
        makeCollection pluralizer fields in
    (run = inl (EApi MongooseAdapter.noMatchError) <->
       docs = DNull \/ (makeCollection = false /\ docs = DMany []))
    /\ (forall e, run = inl e ->
                  e = EApi MongooseAdapter.noMatchError \/ e = ETypeError)
    /\ (forall ds, docs = DMany ds -> In None ds -> run = inl ETypeError)
    /\ (forall ds rs,
           docs = DMany ds -> run = inr (Collection rs) ->
           Forall2
             (fun d r =>
                exists doc,
                  d = Some doc
                  /\ MongooseAdapter.docToResource pluralize_plural doc
                       pluralizer fields = inr r)
             ds rs)
    /\ (forall ds r,
           docs = DMany ds -> run = inr (OneResource r) ->
           exists doc rest,
             ds = Some doc :: rest
             /\ MongooseAdapter.docToResource pluralize_plural doc
                  pluralizer fields = inr r
             /\ forall d, In d rest ->
                  exists doc' r',
                    d = Some doc'
                    /\ MongooseAdapter.docToResource pluralize_plural doc'
                         pluralizer fields = inr r').
Proof.
  intros pp docs mk pluralizer fields run.
  split; [|split; [|split; [|split]]].
  - split.
    + intros H. apply docsToResourceOrCollection_error in H.
      destruct H as [[_ H]|[H _]]; [exact H | discriminate].
    + intros [->|[-> ->]]; reflexivity.
  - intros e H. apply docsToResourceOrCollection_error in H.
    destruct H as [[-> _]|[-> _]]; auto.
  - intros ds -> Hin. unfold run.
    rewrite docsToResourceOrCollection_many
      by (intros ->; contradiction).
    now rewrite entries_null.
  - intros ds rs -> H. unfold run in H.
    destruct mk.
    + rewrite docsToResourceOrCollection_collection in H.
      destruct (MongooseAdapter.mapM _ ds) as [e|rs'] eqn:Hm;
        simpl in H; [discriminate|].
      injection H as <-. now apply entries_Forall2.
    + pose proof (docsToResourceOrCollection_shape _ _ _ _ _ H) as Hs.
      simpl in Hs. destruct Hs as [r Hr]. discriminate.
  - intros ds r -> H. unfold run in H.
    destruct mk.
    + pose proof (docsToResourceOrCollection_shape _ _ _ _ _ H) as Hs.
      simpl in Hs. destruct Hs as [rs Hr]. discriminate.
    + destruct ds as [|d ds]; [discriminate|].
      rewrite docsToResourceOrCollection_many in H by discriminate.
      destruct (MongooseAdapter.mapM _ (d :: ds)) as [e|rs'] eqn:Hm;
        simpl in H; [discriminate|].
      apply entries_Forall2 in Hm.
      inversion Hm as [|? r0 ? rs0 (doc & -> & Hdoc) Hrest]; subst.
      injection H as ->. exists doc, ds. split; [reflexivity|].
      split; [exact Hdoc|].
      intros d' Hin. clear Hm Hdoc.
      induction Hrest as [|d0 r1 ds0 rs1 (doc0 & -> & Hd0) _ IH];
        [destruct Hin|].
      destruct Hin as [<-|Hin]; [eauto | auto].
Qed.

Lemma docsToResourceOrCollection_outcomes_witness :
  MongooseAdapter.docsToResourceOrCollection Sample.plural
    (DMany [Some Sample.taggedPost; None]) false Sample.plural None
  = inl ETypeError.
Proof.
  refine (proj1 (proj2 (proj2
            (docsToResourceOrCollection_outcomes Sample.plural
               (DMany [Some Sample.taggedPost; None]) false
               Sample.plural None))) _ eq_refl _).
  right. left. reflexivity.
Defined.



(* ================================================================= *)
(** ** Ids, store calls and unregistered types *)

Section CallFacts.
Import JS Misc MongooseAdapter MongooseAdapterMore.

Lemma has_false_lookup (A : Type) k (props : list (string * A)) :
  Obj.has k props = false -> Obj.lookup k props = None.
Proof. unfold Obj.has. destruct (Obj.lookup k props); [discriminate | auto]. Qed.


Lemma getModel_unregistered adapter name :
  Obj.has name (models adapter) = false ->
  getModel adapter name = inl (unregistered name).
Proof. intros H. unfold getModel. now rewrite (has_false_lookup _ _ H). Qed.


Lemma in_calls_count (b : bool) criteria criteria' query :
  In (CallCount criteria')
     ((if b then [CallCount criteria] else []) ++ [CallExec query])
  <-> b = true /\ criteria' = criteria.
Proof.
  rewrite in_app_iff. destruct b; simpl.
  - split.
    + intros [[H|[]]|[H|[]]]; [injection H as <-; auto | discriminate].
    + intros [_ ->]. auto.
  - split.
    + intros [[]|[H|[]]]. discriminate.
    + intros [H _]. discriminate.
Qed.

Lemma getIdQueryType_cases idOrIds mode idQuery :
  getIdQueryType idOrIds = inr (mode, idQuery) <->
  (idFalsy idOrIds = true /\ mode = FindMode /\ idQuery = QAll)
  \/ (exists id,
        idOrIds = IdString id /\ id <> EmptyString
        /\ idIsValid (VStr id) = true
        /\ mode = FindOneMode /\ idQuery = QId id)
  \/ (exists ids,
        idOrIds = IdArray ids
        /\ every (fun id => idIsValid (VStr id)) ids = true
        /\ mode = FindMode /\ idQuery = QIn ids).
Proof.
  destruct idOrIds as [|id|ids].
  - rewrite getIdQueryType_falsy by reflexivity. split.
    + intros [= <- <-]. left. auto.
    + intros [(_ & -> & ->)|[(id & H & _)|(ids & H & _)]];
        [reflexivity | discriminate | discriminate].
  - destruct (String.eqb_spec id "") as [->|Hne].
    + rewrite getIdQueryType_falsy by reflexivity. split.
      * intros [= <- <-]. left. auto.
      * intros [(_ & -> & ->)|[(id & H & Hid & _)|(ids & H & _)]];
          [reflexivity | injection H as <-; congruence | discriminate].
    + rewrite (getIdQueryType_string Hne).
      destruct (idIsValid (VStr id)) eqn:V.
      * split.
        -- intros [= <- <-]. right. left. exists id. auto.
        -- intros [(Hf & _)|[(id' & H & _ & _ & -> & ->)|(ids & H & _)]].
           ++ simpl in Hf. apply String.eqb_eq in Hf. contradiction.
           ++ now injection H as <-.
           ++ discriminate.
      * split; [discriminate|].
        intros [(Hf & _)|[(id' & H & _ & V' & _)|(ids & H & _)]].
        -- simpl in Hf. apply String.eqb_eq in Hf. contradiction.
        -- injection H as <-. congruence.
        -- discriminate.
  - rewrite getIdQueryType_array.
    destruct (every (fun id => idIsValid (VStr id)) ids) eqn:V.
    + split.
      * intros [= <- <-]. right. right. exists ids. auto.
      * intros [(Hf & _)|[(id' & H & _)|(ids' & H & _ & -> & ->)]];
          [discriminate | discriminate | now injection H as <-].
    + split; [discriminate|].
      intros [(Hf & _)|[(id' & H & _)|(ids' & H & V' & _)]];
        [discriminate | discriminate | injection H as <-; congruence].
Qed.

End CallFacts.

(** X13: [isSubsetOf] answers [true] exactly when every item of the second
    array is an item of the first, whether or not the items are unique.
    So every array is a subset of itself, the answer is transitive, and
    two duplicate-free arrays that are subsets of each other have the
    same length. *)
Theorem isSubsetOf_spec : forall setArr potentialSubsetArr,
  (Utils.isSubsetOf setArr potentialSubsetArr = true <->
     forall it, In it potentialSubsetArr -> In it setArr)
  /\ Utils.isSubsetOf setArr setArr = true
  /\ (forall third,
         Utils.isSubsetOf setArr potentialSubsetArr = true ->
         Utils.isSubsetOf potentialSubsetArr third = true ->
         Utils.isSubsetOf setArr third = true)
  /\ (NoDup setArr -> NoDup potentialSubsetArr ->
      Utils.isSubsetOf setArr potentialSubsetArr = true ->
      Utils.isSubsetOf potentialSubsetArr setArr = true ->
      List.length setArr = List.length potentialSubsetArr).
Proof.
  assert (Hspec : forall a b,
            Utils.isSubsetOf a b = true <-> forall it, In it b -> In it a).
  { intros a b. unfold Utils.isSubsetOf. rewrite forallb_forall.
    split; intros H it Hin; apply existsb_eqb_In; auto. }
  intros a b. split; [apply Hspec|]. split; [apply Hspec; auto|]. split.
  - intros c Hab Hbc. apply Hspec. intros it Hin.
    apply (proj1 (Hspec a b) Hab), (proj1 (Hspec b c) Hbc), Hin.
  - intros Ha Hb Hab Hba. apply Nat.le_antisymm.
    + apply NoDup_incl_length; [exact Ha|]. exact (proj1 (Hspec b a) Hba).
    + apply NoDup_incl_length; [exact Hb|]. exact (proj1 (Hspec a b) Hab).
Qed.

Lemma isSubsetOf_spec_witness :
  Utils.isSubsetOf ["a"; "b"; "c"] ["c"] = true.
Proof.
  refine (proj1 (proj2 (proj2 (isSubsetOf_spec ["a"; "b"; "c"] ["c"; "a"])))
            ["c"] eq_refl eq_refl).
Defined.

(** X14: [getIdQueryType] accepts an id filter in three cases only: no
    id (absent or the empty string), which asks for all documents with
    [find]; a single non-empty valid id, which asks for that document
    with [findOne]; an array of valid ids, the empty array included,
    which asks with [find] for the documents whose id is in the array. *)
Theorem getIdQueryType_accepts : forall idOrIds mode idQuery,
  MongooseAdapter.getIdQueryType idOrIds = inr (mode, idQuery) <->
  (MongooseAdapter.idFalsy idOrIds = true
   /\ mode = FindMode /\ idQuery = QAll)
  \/ (exists id,
        idOrIds = IdString id /\ id <> EmptyString
        /\ MongooseAdapter.idIsValid (VStr id) = true
        /\ mode = FindOneMode /\ idQuery = QId id)
  \/ (exists ids,
        idOrIds = IdArray ids
        /\ MongooseAdapter.every
             (fun id => MongooseAdapter.idIsValid (VStr id)) ids = true
        /\ mode = FindMode /\ idQuery = QIn ids).
Proof. exact getIdQueryType_cases. Qed.

Lemma getIdQueryType_accepts_witness :
  MongooseAdapter.getIdQueryType (IdArray []) = inr (FindMode, QIn []).
Proof.
  apply (proj2 (getIdQueryType_accepts (IdArray []) FindMode (QIn []))).
  right. right. exists []. repeat split; reflexivity.
Defined.

(** X15: [find] on a registered type with an accepted id filter asks the
    store for the size of the collection exactly when the id filter is
    not a single id and an offset or a limit is given; the count takes
    the filters of the query and neither the id filter nor the page.
    The size returned is that count, and [null] otherwise; the included
    resources are [null] exactly when no include path was given.  The
    query that is executed skips and limits by the offset and the limit
    unless they are [0], so that a limit of [0] is counted for but not
    applied. *)
Theorem find_collection_size :
  forall pluralize_singular pluralize_plural errorHandler toMongoCriteria
         adapter query model mode idQuery,
    MongooseAdapter.getModel adapter
      (MongooseAdapter.getModelName (fq_type query) pluralize_singular)
    = inr model ->
    MongooseAdapter.getIdQueryType (fq_idOrIds query) = inr (mode, idQuery) ->
    let run := MongooseAdapter.find pluralize_singular pluralize_plural
                 errorHandler toMongoCriteria adapter query in
    (forall criteria,
        In (CallCount criteria) (fst run) <->
        MongooseAdapterMore.isPaginating query = true
        /\ criteria = toMongoCriteria (fq_filters query))
    /\ (forall primary included size,
           snd run = inr (primary, included, size) ->
           size = (if MongooseAdapterMore.isPaginating query
                   then Some (m_count model
                                (toMongoCriteria (fq_filters query)))
                   else None)
           /\ (included = None <-> fq_populates query = None))
    /\ (forall queryBuilder,
           In (CallExec queryBuilder) (fst run) ->
           qb_mode queryBuilder = mode
           /\ qb_idQuery queryBuilder = idQuery
           /\ qb_skip queryBuilder
              = MongooseAdapter.whenTruthy (fq_offset query)
           /\ qb_limit queryBuilder
              = MongooseAdapter.whenTruthy (fq_limit query)
           /\ (fq_limit query = Some 0%Z -> qb_limit queryBuilder = None)
           /\ (fq_offset query = Some 0%Z -> qb_skip queryBuilder = None)).
Proof.
  intros ps pp eh tmc adapter query model mode idQuery Hmodel Hid run.
  unfold run, MongooseAdapter.find. rewrite Hmodel, Hid. cbv zeta.
  unfold MongooseAdapterMore.isPaginating.
  set (paginating :=
         negb match fq_idOrIds query with IdString _ => true | _ => false end
         && (MongooseAdapter.isDefined (fq_offset query)
             || MongooseAdapter.isDefined (fq_limit query))).
  assert (Hzero : forall n, n = Some 0%Z -> MongooseAdapter.whenTruthy n = None)
    by (intros n ->; reflexivity).
  destruct (fq_populates query) as [includePaths|].
  - destruct (MongooseAdapter.checkIncludes (fq_type query) _ includePaths)
      as [e|populated]; cbn [fst snd].
    + split; [|split].
      * intros c. destruct paginating; simpl.
        -- split; [intros [H|[]]; injection H as <-; auto | intros [_ ->]; auto].
        -- split; [intros [] | intros [H _]; discriminate].
      * intros primary included size H. discriminate.
      * intros qb H. now apply not_in_calls_count in H.
    + split; [|split].
      * intros c. apply in_calls_count.
      * intros primary included size H.
        unfold MongooseAdapter.catch in H.
        destruct (MongooseAdapter.includedResources pp _ populated _ _)
          as [e|inc]; simpl in H; [discriminate|].
        destruct (MongooseAdapter.docsToResourceOrCollection pp _ _ _ _)
          as [e|prim]; simpl in H; [discriminate|].
        injection H as <- <- <-. split; [reflexivity|].
        split; discriminate.
      * intros qb H. apply in_calls_exec in H. subst qb. cbn.
        repeat split; auto.
  - cbn [fst snd]. split; [|split].
    + intros c. apply in_calls_count.
    + intros primary included size H.
      unfold MongooseAdapter.catch in H.
      destruct (MongooseAdapter.docsToResourceOrCollection pp _ _ _ _)
        as [e|prim]; simpl in H; [discriminate|].
      injection H as <- <- <-. split; [reflexivity|].
      split; reflexivity.
    + intros qb H. apply in_calls_exec in H. subst qb. cbn.
      repeat split; auto.
Qed.

Lemma find_collection_size_witness :
  In (CallCount (Sample.criteria []))
     (fst (MongooseAdapter.find Sample.singular Sample.plural Sample.passOn
             Sample.criteria (Sample.adapterOf [])
             (mkFindQuery "posts" None None None None (Some 0%Z)
                IdUndefined []))).
Proof.
  refine (proj2 (proj1
            (@find_collection_size Sample.singular Sample.plural
               Sample.passOn Sample.criteria (Sample.adapterOf [])
               (mkFindQuery "posts" None None None None (Some 0%Z)
                  IdUndefined [])
               (Sample.postStore []) FindMode QAll eq_refl eq_refl)
            (Sample.criteria [])) _).
  split; reflexivity.
Defined.

(** X16: [delete] on a registered type never runs a query without an id
    filter: an id filter that is rejected fails with its error before
    any store call, and a query that is executed asks for the single
    valid id or for the array of valid ids of the request.  Every
    document it removes was returned by the store for that query. *)
Theorem delete_store_calls :
  forall pluralize_singular errorHandler adapter query model,
    MongooseAdapter.getModel adapter
      (MongooseAdapter.getModelName (dq_type query) pluralize_singular)
    = inr model ->
    let run :=
      MongooseAdapter.delete pluralize_singular errorHandler adapter query in
    (forall e,
        MongooseAdapter.getIdQueryType (dq_idOrIds query) = inl e ->
        run = ([], inl e))
    /\ (forall queryBuilder,
           In (CallExec queryBuilder) (fst run) ->
           match qb_idQuery queryBuilder with
           | QAll => False
           | QId id =>
               dq_idOrIds query = IdString id
               /\ MongooseAdapter.idIsValid (VStr id) = true
           | QIn ids =>
               dq_idOrIds query = IdArray ids
               /\ MongooseAdapter.every
                    (fun id => MongooseAdapter.idIsValid (VStr id)) ids = true
           end)
    /\ (forall d,
           In (CallRemove d) (fst run) ->
           exists queryBuilder,
             In (CallExec queryBuilder) (fst run)
             /\ (In d (m_find model queryBuilder)
                 \/ m_findOne model queryBuilder = Some d))
    /\ (forall criteria, ~ In (CallCount criteria) (fst run)).
Proof.
  intros ps eh adapter query model Hmodel run.
  unfold run, MongooseAdapter.delete. rewrite Hmodel. cbv zeta.
  split; [intros e He; now rewrite He|].
  destruct (MongooseAdapter.getIdQueryType (dq_idOrIds query))
    as [e|[mode idQuery]] eqn:Hid.
  { cbn [fst]. split; [intros qb []|]. split; [intros d []|]. intros c []. }
  apply getIdQueryType_cases in Hid.
  destruct Hid as [(Hf & -> & ->)|[(id & Hq & Hne & V & -> & ->)
                                  |(ids & Hq & V & -> & ->)]].
  - rewrite Hf. cbn [fst].
    split; [intros qb []|]. split; [intros d []|]. intros c [].
  - rewrite Hq. cbn [MongooseAdapter.idFalsy].
    destruct (String.eqb_spec id "") as [->|_]; [congruence|].
    unfold MongooseAdapter.exec. cbn [qb_mode].
    destruct (m_findOne model _) as [d|] eqn:F.
    + cbn. split; [|split].
      * intros qb [H|[H|[]]]; [|discriminate].
        injection H as <-. cbn. auto.
      * intros d' [H|[H|[]]]; [discriminate|]. injection H as <-.
        eexists. split; [left; reflexivity|]. right. exact F.
      * intros c [H|[H|[]]]; discriminate.
    + cbn. split; [|split].
      * intros qb [H|[]]. injection H as <-. cbn. auto.
      * intros d' [H|[]]. discriminate.
      * intros c [H|[]]. discriminate.
  - rewrite Hq. cbn [MongooseAdapter.idFalsy].
    unfold MongooseAdapter.exec. cbn [qb_mode MongooseAdapter.arrayOrVal].
    rewrite removeEach_present. cbn [fst]. split; [|split].
    + intros qb [H|H].
      * injection H as <-. cbn. auto.
      * apply in_map_iff in H. destruct H as (d & H & _). discriminate.
    + intros d [H|H]; [discriminate|].
      apply in_map_iff in H. destruct H as (d' & H & Hin).
      injection H as ->.
      eexists. split; [left; reflexivity|]. left. exact Hin.
    + intros c [H|H]; [discriminate|].
      apply in_map_iff in H. destruct H as (d' & H & _). discriminate.
Qed.

Lemma delete_store_calls_witness :
  MongooseAdapter.delete Sample.singular Sample.passOn
    (Sample.adapterOf []) (mkDeleteQuery "posts" (IdArray ["x"]))
  = ([], inl (EApi MongooseAdapter.invalidIdError)).
Proof.
  exact (proj1 (@delete_store_calls Sample.singular Sample.passOn
                  (Sample.adapterOf [])
                  (mkDeleteQuery "posts" (IdArray ["x"]))
                  (Sample.postStore []) eq_refl)
           (EApi MongooseAdapter.invalidIdError) eq_refl).
Defined.

(** X17: an operation on a type whose model is not registered raises
    the [Error] with status 404 that names the model, as it is (the
    error handler does not see it), and makes no store call; this for a
    model name of ASCII characters that is not the name of a member of
    [Object.prototype].  [find], [delete] and the relationship
    operations look the model up under the default singularizer,
    [update] under the singularizer of the adapter's inflector. *)
Theorem unregistered_type_raises :
  forall pluralize_singular pluralize_plural errorHandler toMongoCriteria
         m_findOneAndUpdate adapter,
    (forall query,
        let name :=
          MongooseAdapter.getModelName (fq_type query) pluralize_singular in
        Obj.has name (models adapter) = false ->
        Engine.objectPrototypeMember name = false ->
        Engine.isAscii name = true ->
        MongooseAdapter.find pluralize_singular pluralize_plural errorHandler
          toMongoCriteria adapter query
        = ([], inl (MongooseAdapter.unregistered name)))
    /\ (forall query,
           let name :=
             MongooseAdapter.getModelName (dq_type query) pluralize_singular in
           Obj.has name (models adapter) = false ->
           Engine.objectPrototypeMember name = false ->
           Engine.isAscii name = true ->
           MongooseAdapter.delete pluralize_singular errorHandler adapter query
           = ([], inl (MongooseAdapter.unregistered name)))
    /\ (forall query,
           let name :=
             MongooseAdapter.getModelName (uq_type query)
               (inflector_singular adapter) in
           Obj.has name (models adapter) = false ->
           Engine.objectPrototypeMember name = false ->
           Engine.isAscii name = true ->
           MongooseAdapter.update pluralize_plural errorHandler adapter query
           = ([], inl (MongooseAdapter.unregistered name)))
    /\ (forall query,
           let name :=
             MongooseAdapter.getModelName
               (MongooseAdapterMore.rq_type query) pluralize_singular in
           Obj.has name (models adapter) = false ->
           Engine.objectPrototypeMember name = false ->
           Engine.isAscii name = true ->
           MongooseAdapterMore.addToRelationship pluralize_singular
             m_findOneAndUpdate adapter query
           = ([], inl (MongooseAdapter.unregistered name))
           /\ MongooseAdapterMore.removeFromRelationship pluralize_singular
                m_findOneAndUpdate adapter query
              = ([], inl (MongooseAdapter.unregistered name)))
    /\ (forall name,
           exists message,
             MongooseAdapter.unregistered name = EError (Some 404%Z) message).
Proof.
  intros ps pp eh tmc foau adapter.
  split; [|split; [|split; [|split]]].
  - intros query name H _ _. unfold MongooseAdapter.find. fold name.
    now rewrite (getModel_unregistered _ _ H).
  - intros query name H _ _. unfold MongooseAdapter.delete. fold name.
    now rewrite (getModel_unregistered _ _ H).
  - intros query name H _ _. unfold MongooseAdapter.update. fold name.
    now rewrite (getModel_unregistered _ _ H).
  - intros query name H _ _.
    unfold MongooseAdapterMore.addToRelationship,
      MongooseAdapterMore.removeFromRelationship,
      MongooseAdapterMore.mutateRelationship. fold name.
    now rewrite (getModel_unregistered _ _ H).
  - intros name. unfold MongooseAdapter.unregistered. eauto.
Qed.

Lemma unregistered_type_raises_witness :
  MongooseAdapter.find Sample.singular Sample.plural Sample.passOn
    Sample.criteria (Sample.adapterOf [])
    (mkFindQuery "comments" None None None None None IdUndefined [])
  = ([], inl (MongooseAdapter.unregistered "Comment")).
Proof.
  exact (proj1 (unregistered_type_raises Sample.singular Sample.plural
                  Sample.passOn Sample.criteria SampleMore.noneFound
                  (Sample.adapterOf []))
           (mkFindQuery "comments" None None None None None IdUndefined [])
           eq_refl eq_refl eq_refl).
Defined.

(* ================================================================= *)
(** ** [create] and the relationship operations *)

Section CreateFacts.
Import JS Misc MongooseAdapter MongooseAdapterMore.

Variable pluralize_singular : string -> string.
Variable m_create : Model -> list (list (string * value)) -> list Doc.
Variable idGenerator : option (list (string * value) -> value).
Variable adapter : Adapter.




End CreateFacts.



(** X19: [addToRelationship] and [removeFromRelationship] on a registered
    type make one call to the store, for the id of the resource, when
    the linkage is a list without [null] entry: it adds to, or pulls
    from, the relationship path the ids of the linkage in their order,
    and the answer of the store is returned, also when no document was
    found.  For any other linkage they raise a [TypeError] without
    calling the store. *)
Theorem relationship_update_calls :
  forall pluralize_singular m_findOneAndUpdate adapter query model,
    MongooseAdapter.getModel adapter
      (MongooseAdapter.getModelName (MongooseAdapterMore.rq_type query)
         pluralize_singular)
    = inr model ->
    let id := MongooseAdapterMore.rq_resourceId query in
    let path := MongooseAdapterMore.rq_relationshipName query in
    let value := lvalue (MongooseAdapterMore.rq_linkage query) in
    (forall identifiers,
        value = LinkList (List.map Some identifiers) ->
        let ids := List.map ri_id identifiers in
        MongooseAdapterMore.addToRelationship pluralize_singular
          m_findOneAndUpdate adapter query
        = ([MongooseAdapterMore.CallFindOneAndUpdate id
              (MongooseAdapterMore.addToSetUpdate path ids)],
           inr (m_findOneAndUpdate model id
                  (MongooseAdapterMore.addToSetUpdate path ids)))
        /\ MongooseAdapterMore.removeFromRelationship pluralize_singular
             m_findOneAndUpdate adapter query
           = ([MongooseAdapterMore.CallFindOneAndUpdate id
                 (MongooseAdapterMore.pullAllUpdate path ids)],
              inr (m_findOneAndUpdate model id
                     (MongooseAdapterMore.pullAllUpdate path ids))))
    /\ ((forall identifiers, value <> LinkList (List.map Some identifiers)) ->
        MongooseAdapterMore.addToRelationship pluralize_singular
          m_findOneAndUpdate adapter query
        = ([], inl ETypeError)
        /\ MongooseAdapterMore.removeFromRelationship pluralize_singular
             m_findOneAndUpdate adapter query
           = ([], inl ETypeError)).
Proof.
  intros ps foau adapter query model Hmodel id path value.
  assert (Hids : forall identifiers,
            MongooseAdapterMore.entryIds (List.map Some identifiers)
            = Some (List.map ri_id identifiers)).
  { induction identifiers as [|it rest IH]; simpl; [reflexivity|].
    now rewrite IH. }
  assert (Hnone : forall entries,
            (forall identifiers, entries <> List.map Some identifiers) ->
            MongooseAdapterMore.entryIds entries = None).
  { induction entries as [|[it|] rest IH]; intros Hno; simpl.
    - exfalso. now apply (Hno []).
    - rewrite IH; [reflexivity|]. intros identifiers ->.
      now apply (Hno (it :: identifiers)).
    - reflexivity. }
  unfold MongooseAdapterMore.addToRelationship,
    MongooseAdapterMore.removeFromRelationship,
    MongooseAdapterMore.mutateRelationship.
  rewrite Hmodel. subst id path value. cbv zeta. split.
  - intros identifiers Hv. rewrite Hv.
    cbn [MongooseAdapterMore.linkageValueIds].
    rewrite Hids. split; reflexivity.
  - intros Hno.
    assert (Hv : MongooseAdapterMore.linkageValueIds
                   (lvalue (MongooseAdapterMore.rq_linkage query)) = None).
    { destruct (lvalue (MongooseAdapterMore.rq_linkage query))
        as [|entry|entries]; try reflexivity.
      apply Hnone. intros identifiers ->. now apply (Hno identifiers). }
    rewrite Hv. split; reflexivity.
Qed.

Lemma relationship_update_calls_witness :
  MongooseAdapterMore.addToRelationship Sample.singular SampleMore.noneFound
    (Sample.adapterOf []) SampleMore.addTags
  = ([MongooseAdapterMore.CallFindOneAndUpdate Sample.validId
        (MongooseAdapterMore.addToSetUpdate "tags"
           ["bbbbbbbbbbbbbbbbbbbbbbbb"; "cccccccccccccccccccccccc"])],
     inr None).
Proof.
  exact (proj1 (proj1
           (@relationship_update_calls Sample.singular SampleMore.noneFound
              (Sample.adapterOf []) SampleMore.addTags
              (Sample.postStore []) eq_refl)
           [mkIdentifier "tags" "bbbbbbbbbbbbbbbbbbbbbbbb";
            mkIdentifier "tags" "cccccccccccccccccccccccc"]
           eq_refl)).
Defined.
